(** * fgread.read: dataset discovery, selection and format dispatch

    A shallow embedding of [fgread/read.py] and the properties of its
    scanner ([get_ds_paths]), aggregator ([ds_info]), selector
    ([select_ds_id]) and loader ([load_data], [read_dataset]).

    Python objects are modelled as follows.
    - [str]: [string]; a character is a code point below 256.
    - [pathlib.Path]: the list of its [parts].
    - a decoded JSON document: [json]; a value held in a table: [cell].
    - [dict] with [str] keys: an association list in insertion order, keys
      unique ([dict_set] keeps the position of a key that is already there).
    - [pandas.DataFrame]: [Frame], a list of column names, a list of index
      labels and the rows; a Python variable holding a frame is a reference
      into the heap of the [World], so that two variables may alias.
    - exceptions, log records and displayed objects: the result [Res] and the
      event log of the [World].
    - the file system, the interpreter's builtins and the constants the
      package imports from elsewhere: the environment [Env]. *)

From Stdlib Require Import String Ascii List ZArith Bool Arith Lia DecimalString.
From Stdlib Require Import Sorting.Sorted Sorting.Permutation OrderedTypeEx.
From stdpp Require Import base list strings.
Import ListNotations.

#[local] Open Scope list_scope.

(** ** Strings *)

(** The double quote and the line feed, built from their codes. *)
Definition dq : string := String (ascii_of_nat 34) EmptyString.
Definition nl : string := String (ascii_of_nat 10) EmptyString.

(** [str(n)] for a non-negative [int]. *)
Definition str_of_nat (n : nat) : string := NilZero.string_of_uint (Nat.to_uint n).

(** [needle in hay] for two [str]. *)
Fixpoint str_contains (needle hay : string) : bool :=
  String.prefix needle hay
  || match hay with
     | EmptyString => false
     | String _ rest => str_contains needle rest
     end.

(** [hay] has [needle] as a contiguous part. *)
Definition str_infix (needle hay : string) : Prop :=
  exists pre post, hay = pre +:+ needle +:+ post.

(** [s.split(sep)] for a one-character separator. *)
Fixpoint split_on (sep : ascii) (s : string) : list string :=
  match s with
  | EmptyString => [EmptyString]
  | String c s' =>
      if Ascii.eqb c sep then EmptyString :: split_on sep s'
      else match split_on sep s' with
           | [] => [String c EmptyString]
           | w :: ws => String c w :: ws
           end
  end.

Fixpoint str_drop (n : nat) (s : string) : string :=
  match n, s with
  | S n', String _ s' => str_drop n' s'
  | _, _ => s
  end.

(** ** Values *)

(** What [json.load] returns. A JSON real number keeps its literal. *)
#[local] Unset Elimination Schemes.
Inductive json :=
| JNull
| JBool (b : bool)
| JNum (z : Z)
| JFloat (lit : string)
| JStr (s : string)
| JArr (items : list json)
| JObj (members : list (string * json)).
#[local] Set Elimination Schemes.

(** [pathlib.PurePosixPath], as its [parts]: the root (["/"] or ["//"]) comes
    first when the path is absolute. *)
Definition Path := list string.

(** A value held in a table: a decoded JSON value, the [Path] that [ds_info]
    stores under ["path"], or the missing value NaN. *)
Inductive cell :=
| CJson (j : json)
| CPath (p : Path)
| CNaN.

Definition CStr (s : string) : cell := CJson (JStr s).

(** [c == s] for a [str] [s]: only an equal [str] compares equal. *)
Definition cell_eq_str (s : string) (c : cell) : bool :=
  match c with
  | CJson (JStr t) => String.eqb t s
  | _ => false
  end.

(** [hash(c)] succeeds: lists and dicts are unhashable. *)
Definition hashable (c : cell) : bool :=
  match c with
  | CJson (JArr _) | CJson (JObj _) => false
  | _ => true
  end.

(** ** Exceptions *)

Inductive exn_class :=
| KeyError
| ValueError
| NotImplementedError
| AssertionError
| NameError
| TypeError
| OSError
| ReferenceError.

Record exn := Exn { exn_cls : exn_class; exn_msg : string }.

Inductive Res (A : Type) :=
| Ok (a : A)
| Raise (e : exn).

Arguments Ok {A} a.
Arguments Raise {A} e.

(** ** Dictionaries with [str] keys, in insertion order *)

Definition dict (V : Type) := list (string * V).

Fixpoint dict_get {V} (k : string) (d : dict V) : option V :=
  match d with
  | [] => None
  | (k', v) :: d' => if String.eqb k k' then Some v else dict_get k d'
  end.

(** [d[k] = v]: a key already present keeps its position. *)
Fixpoint dict_set {V} (k : string) (v : V) (d : dict V) : dict V :=
  match d with
  | [] => [(k, v)]
  | (k', v') :: d' =>
      if String.eqb k k' then (k, v) :: d' else (k', v') :: dict_set k v d'
  end.

(** [d.pop(k, None)], the popped value dropped. *)
Fixpoint dict_pop {V} (k : string) (d : dict V) : dict V :=
  match d with
  | [] => []
  | (k', v') :: d' => if String.eqb k k' then d' else (k', v') :: dict_pop k d'
  end.

(** [list(d)] *)
Definition dict_keys {V} (d : dict V) : list string := map fst d.

(** [{**d1, **d2}]: the entries of [d1] in order, then those of [d2], an
    entry of [d2] replacing in place the entry of [d1] with its key. *)
Definition dict_merge {V} (d1 d2 : dict V) : dict V :=
  fold_left (fun acc kv => dict_set (fst kv) (snd kv) acc) d2 d1.

(** [dict(pairs)], as [json] builds an object from its members. *)
Definition dict_of_pairs {V} (pairs : list (string * V)) : dict V :=
  dict_merge [] pairs.

(** ** Paths *)

Definition DATA_DIR : Path := ["/"; "fastgenomics"; "data"].

Definition is_root (part : string) : bool := String.prefix "/" part.

Definition is_absolute (p : Path) : bool :=
  match p with
  | r :: _ => is_root r
  | [] => false
  end.

(** [p.name]: the last part, empty for a bare root and for the empty path. *)
Definition path_name (p : Path) : string :=
  match p with
  | [] => EmptyString
  | [r] => if is_root r then EmptyString else r
  | _ => List.last p EmptyString
  end.

(** The child [p / name] that [iterdir] yields for a directory entry. *)
Definition path_child (p : Path) (name : string) : Path := p ++ [name].

(** [Path(s)]: exactly two leading slashes are kept as the root ["//"], any
    other number is the root ["/"]; empty and ["."] components are dropped. *)
Definition parse_path (s : string) : Path :=
  (if String.prefix "//" s && negb (String.prefix "///" s) then ["//"]
   else if String.prefix "/" s then ["/"]
   else [])
  ++ List.filter (fun w => negb (String.eqb w "") && negb (String.eqb w "."))
       (split_on "/"%char s).

(** [p / q]: an absolute right operand replaces the left one. *)
Definition joinpath (p q : Path) : Path :=
  if is_absolute q then q else p ++ q.

(** Python compares sequences lexicographically; a proper prefix is smaller. *)
Fixpoint path_compare (p q : Path) : comparison :=
  match p, q with
  | [], [] => Eq
  | [], _ :: _ => Lt
  | _ :: _, [] => Gt
  | a :: p', b :: q' =>
      match String.compare a b with
      | Eq => path_compare p' q'
      | c => c
      end
  end.

(** [p < q] *)
Definition path_ltb (p q : Path) : bool :=
  match path_compare p q with Lt => true | _ => false end.

Definition path_le (p q : Path) : Prop := path_compare p q <> Gt.

(** [sorted(paths)]: a stable sort that only asks [<]. *)
Fixpoint sorted_insert (x : Path) (l : list Path) : list Path :=
  match l with
  | [] => [x]
  | y :: l' => if path_ltb y x then y :: sorted_insert x l' else x :: l
  end.

Fixpoint sorted (l : list Path) : list Path :=
  match l with
  | [] => []
  | x :: l' => sorted_insert x (sorted l')
  end.

(** ** The directory-name pattern *)

(** [\d] on the characters of this model. In a [str] pattern without
    [re.ASCII], as the one of line 273, [\d] matches every Unicode decimal
    digit; those of other scripts all have code points above 255 (the
    first is U+0660), so among the code points below 256, which are the
    characters a [string] here can hold, the class is ["0"] to ["9"]. A
    name with a digit of another script is outside the model. *)
Definition is_digit (c : ascii) : bool :=
  (48 <=? nat_of_ascii c) && (nat_of_ascii c <=? 57).

(** [re.match(r"^dataset_\d{4}$", name)] finds a match. Without the
    MULTILINE flag [$] matches at the end of the string and also just before
    a line feed that ends the string. *)
Definition re_match_dataset (name : string) : bool :=
  String.prefix "dataset_" name
  && match list_ascii_of_string (str_drop 8 name) with
     | [a; b; c; d] => is_digit a && is_digit b && is_digit c && is_digit d
     | [a; b; c; d; e] =>
         is_digit a && is_digit b && is_digit c && is_digit d
         && Ascii.eqb e (ascii_of_nat 10)
     | _ => false
     end.

(** ** Tables *)

Record Frame := {
  columns : list string;
  index : list nat;
  rows : list (list cell)
}.

(** [pd.DataFrame()] *)
Definition frame_empty : Frame := {| columns := []; index := []; rows := [] |}.

(** [len(df)] *)
Definition frame_len (f : Frame) : nat := length (index f).

Fixpoint str_index (c : string) (l : list string) : option nat :=
  match l with
  | [] => None
  | x :: l' => if String.eqb c x then Some 0 else option_map S (str_index c l')
  end.

Fixpoint nat_index (n : nat) (l : list nat) : option nat :=
  match l with
  | [] => None
  | x :: l' => if Nat.eqb n x then Some 0 else option_map S (nat_index n l')
  end.

(** [name in names] for a list of [str]. *)
Definition str_mem (c : string) (l : list string) : bool :=
  existsb (String.eqb c) l.

(** Rows and cells by position; a frame's rows all have one cell per column. *)
Definition row_cell (r : list cell) (j : nat) : cell := nth j r CNaN.
Definition frame_row (f : Frame) (i : nat) : list cell := nth i (rows f) [].

(** [df.append(d, ignore_index=True)] for a dict [d]: the keys that are new
    become columns after the existing ones, older rows are NaN there, the new
    row is NaN where [d] has no entry, and the index is renumbered from 0.
    The new columns are taken in the order of the keys of [d]; the order
    pandas gives them has changed between its versions, and no statement
    below depends on the order of the new columns among themselves. *)
Definition frame_append (f : Frame) (d : dict cell) : Frame :=
  let new_cols :=
    List.filter (fun k => negb (str_mem k (columns f))) (dict_keys d) in
  let cols := columns f ++ new_cols in
  {| columns := cols;
     index := seq 0 (S (length (rows f)));
     rows := map (fun r => r ++ repeat CNaN (length new_cols)) (rows f)
             ++ [map (fun c => match dict_get c d with
                               | Some v => v
                               | None => CNaN
                               end) cols] |}.

(** [df[c]] for one column name: its values, or [KeyError]. *)
Definition frame_column (f : Frame) (c : string) : Res (list cell) :=
  match str_index c (columns f) with
  | Some j => Ok (map (fun r => row_cell r j) (rows f))
  | None => Raise (Exn KeyError c)
  end.

Fixpoint positions (cols : list string) (names : list string)
  : Res (list nat) :=
  match names with
  | [] => Ok []
  | c :: names' =>
      match str_index c cols with
      | None => Raise (Exn KeyError c)
      | Some j =>
          match positions cols names' with
          | Ok js => Ok (j :: js)
          | Raise e => Raise e
          end
      end
  end.

(** [df[names]] for a list of column names: those columns in that order. *)
Definition frame_getitem (f : Frame) (names : list string) : Res Frame :=
  match positions (columns f) names with
  | Raise e => Raise e
  | Ok js =>
      Ok {| columns := names;
            index := index f;
            rows := map (fun r => map (row_cell r) js) (rows f) |}
  end.

Fixpoint mask_filter {A} (mask : list bool) (l : list A) : list A :=
  match mask, l with
  | b :: mask', x :: l' =>
      if b then x :: mask_filter mask' l' else mask_filter mask' l'
  | _, _ => []
  end.

(** [df.loc[mask]] for a boolean mask: the rows where it holds, each with
    the index label it had. *)
Definition frame_mask (f : Frame) (mask : list bool) : Frame :=
  {| columns := columns f;
     index := mask_filter mask (index f);
     rows := mask_filter mask (rows f) |}.

(** [df.reset_index(drop=True)] *)
Definition frame_reset_index (f : Frame) : Frame :=
  {| columns := columns f;
     index := seq 0 (length (index f));
     rows := rows f |}.

(** [df.loc[label, c]] *)
Definition frame_loc (f : Frame) (label : nat) (c : string) : Res cell :=
  match nat_index label (index f) with
  | None => Raise (Exn KeyError (str_of_nat label))
  | Some i =>
      match str_index c (columns f) with
      | None => Raise (Exn KeyError c)
      | Some j => Ok (row_cell (frame_row f i) j)
      end
  end.

(** [df.loc[label].to_dict()] *)
Definition frame_loc_dict (f : Frame) (label : nat) : Res (dict cell) :=
  match nat_index label (index f) with
  | None => Raise (Exn KeyError (str_of_nat label))
  | Some i =>
      Ok (map (fun '(j, c) => (c, row_cell (frame_row f i) j))
            (combine (seq 0 (length (columns f))) (columns f)))
  end.

Fixpoint list_set {A} (i : nat) (x : A) (l : list A) : list A :=
  match l, i with
  | [], _ => []
  | _ :: l', O => x :: l'
  | y :: l', S i' => y :: list_set i' x l'
  end.

(** [df.loc[label, c] = v] for a label and a column that exist. *)
Definition frame_set_loc (f : Frame) (label : nat) (c : string) (v : cell)
  : Res Frame :=
  match nat_index label (index f) with
  | None => Raise (Exn KeyError (str_of_nat label))
  | Some i =>
      match str_index c (columns f) with
      | None => Raise (Exn KeyError c)
      | Some j =>
          Ok {| columns := columns f;
                index := index f;
                rows := list_set i (list_set j v (frame_row f i)) (rows f) |}
      end
  end.

(** [df[c] = values] for a column that exists, one value per row. *)
Definition frame_set_column (f : Frame) (c : string) (values : list cell)
  : Res Frame :=
  match str_index c (columns f) with
  | None => Raise (Exn KeyError c)
  | Some j =>
      Ok {| columns := columns f;
            index := index f;
            rows := map (fun '(r, v) => list_set j v r)
                      (combine (rows f) values) |}
  end.

(** [df.drop(labels=..., axis=1, errors="ignore")] *)
Definition frame_drop (f : Frame) (labels : list string) : Frame :=
  let keep := map (fun c => negb (str_mem c labels)) (columns f) in
  {| columns := mask_filter keep (columns f);
     index := index f;
     rows := map (mask_filter keep) (rows f) |}.

(** ** Loaded datasets *)

(** A value of the global annotations [adata.uns]. *)
Inductive uns_value :=
| UnsJson (j : json)
| UnsMetadata (entries : list (cell * dict cell)).

(** [anndata.AnnData], as far as the loader touches it: the shape of the body
    ([adata.shape = (n_obs, n_vars)]), the per-row annotations [obs] (one
    column per key, each with [n_obs] values, which AnnData enforces) and the
    global annotations [uns]. *)
Record AnnData := {
  n_obs : nat;
  n_vars : nat;
  obs : dict (list cell);
  uns : dict uns_value
}.

(** A reader of the current calling convention: from the payload path to a
    body, or the exception it raises. *)
Definition reader := Path -> Res AnnData.

(** Modelled from the spec: the class [DataSet] of [fgread.dataset], the
    dataset handle of the legacy calling convention, is not among the
    sources; these are the attributes [read_dataset] reads. *)
Record DataSet := {
  dataset_id : cell;
  dataset_title : cell;
  dataset_format : cell;
  dataset_path : cell;
  dataset_metadata : json
}.

(** A reader of the legacy calling convention. *)
Definition reader_old := DataSet -> Res AnnData.

(** The functions of the modules [readers] and [readers_old], which are not
    among the sources. *)
Record ReadersModule (R : Type) := {
  read_loom_to_anndata : R;
  read_seurat_to_anndata : R;
  read_anndata_to_anndata : R;
  read_10xhdf5_to_anndata : R;
  read_10xmtx_to_anndata : R;
  read_densetsv_to_anndata : R;
  read_densecsv_to_anndata : R
}.

Arguments read_loom_to_anndata {R} _.
Arguments read_seurat_to_anndata {R} _.
Arguments read_anndata_to_anndata {R} _.
Arguments read_10xhdf5_to_anndata {R} _.
Arguments read_10xmtx_to_anndata {R} _.
Arguments read_densetsv_to_anndata {R} _.
Arguments read_densecsv_to_anndata {R} _.

(** The dict displays that initialise [DEFAULT_READERS_OLD] and
    [DEFAULT_READERS] when the module is imported. *)
Definition default_readers {R} (m : ReadersModule R) : dict R :=
  [ ("Loom", read_loom_to_anndata m);
    ("Seurat Object", read_seurat_to_anndata m);
    ("AnnData", read_anndata_to_anndata m);
    ("10x (hdf5)", read_10xhdf5_to_anndata m);
    ("10x (mtx)", read_10xmtx_to_anndata m);
    ("tab-separated text", read_densetsv_to_anndata m);
    ("comma-separated text", read_densecsv_to_anndata m) ].

(** ** The world: what a call can change *)

Inductive event :=
| LogWarning (msg : string)
| LogInfo (msg : string)
| Display (df : Frame)
| DisplayMarkdown (df : Frame) (transposed index header : bool).

(** A reference to a [DataFrame] object. *)
Definition ref := nat.

(** The event log (logger records and displayed objects, oldest first), the
    heap of [DataFrame] objects, the two module-level registries, and the
    dict objects that are the default value of the parameter
    [additional_readers] of [load_data] and of [read_dataset] (Python
    evaluates a default once and shares the object between calls). *)
Record World := {
  w_log : list event;
  heap : list Frame;
  DEFAULT_READERS : dict reader;
  DEFAULT_READERS_OLD : dict reader_old;
  load_data_defaults : dict reader;
  read_dataset_defaults : dict reader_old
}.

Definition initial_world (m : ReadersModule reader)
    (m_old : ReadersModule reader_old) : World :=
  {| w_log := [];
     heap := [];
     DEFAULT_READERS := default_readers m;
     DEFAULT_READERS_OLD := default_readers m_old;
     load_data_defaults := [];
     read_dataset_defaults := [] |}.

Definition with_log (l : list event) (w : World) : World :=
  {| w_log := l;
     heap := heap w;
     DEFAULT_READERS := DEFAULT_READERS w;
     DEFAULT_READERS_OLD := DEFAULT_READERS_OLD w;
     load_data_defaults := load_data_defaults w;
     read_dataset_defaults := read_dataset_defaults w |}.

Definition with_heap (h : list Frame) (w : World) : World :=
  {| w_log := w_log w;
     heap := h;
     DEFAULT_READERS := DEFAULT_READERS w;
     DEFAULT_READERS_OLD := DEFAULT_READERS_OLD w;
     load_data_defaults := load_data_defaults w;
     read_dataset_defaults := read_dataset_defaults w |}.

(** ** The monad of calls: state and exceptions *)

Definition M (A : Type) : Type := World -> Res A * World.

Definition ret {A} (a : A) : M A := fun w => (Ok a, w).

Definition bind {A B} (m : M A) (k : A -> M B) : M B :=
  fun w =>
    match m w with
    | (Ok a, w') => k a w'
    | (Raise e, w') => (Raise e, w')
    end.

Definition raise {A} (e : exn) : M A := fun w => (Raise e, w).

Definition lift {A} (r : Res A) : M A := fun w => (r, w).

Definition gets {A} (proj : World -> A) : M A := fun w => (Ok (proj w), w).

Declare Scope call_scope.
Delimit Scope call_scope with call.
Notation "x <- c1 ;; c2" := (bind c1 (fun x => c2))
  (at level 100, c1 at next level, right associativity) : call_scope.
Notation "c1 ;; c2" := (bind c1 (fun _ => c2))
  (at level 100, right associativity) : call_scope.
#[local] Open Scope call_scope.

(** [logger.warning], [logger.info] and [display]. *)
Definition emit (e : event) : M unit :=
  fun w => (Ok tt, with_log (w_log w ++ [e]) w).

(** A new [DataFrame] object. *)
Definition alloc (f : Frame) : M ref :=
  fun w => (Ok (length (heap w)), with_heap (heap w ++ [f]) w).

(** The frame a reference stands for. A reference that a call received or
    allocated is never dangling; the error case is there for totality. *)
Definition deref (r : ref) : M Frame :=
  fun w =>
    match heap w !! r with
    | Some f => (Ok f, w)
    | None => (Raise (Exn ReferenceError "dangling reference"), w)
    end.

(** An update of the object behind a reference, seen through every alias. *)
Definition store (r : ref) (f : Frame) : M unit :=
  fun w => (Ok tt, with_heap (<[r := f]> (heap w)) w).

(** A [for] loop that threads one variable. *)
Fixpoint for_each {A B} (l : list A) (body : B -> A -> M B) (acc : B) : M B :=
  match l with
  | [] => ret acc
  | x :: l' => acc' <- body acc x ;; for_each l' body acc'
  end.

(** ** The environment: what a call can only read *)

(** - [DOCSURL], [DS_URL_PREFIX]: constants of the package's [__init__].
    - [path_exists], [path_is_dir], [path_iterdir]: the pathlib queries; the
      last one gives the names of the entries in the order of the operating
      system, or the [OSError] raised.
    - [json_load p]: [json.load] on the file opened at [p], or what [open]
      or the decoder raises.
    - [builtin_display]: the name [display] is bound in the builtins, which
      IPython does in its sessions and plain Python does not.
    - [ipython]: [IPython.display] can be imported and renders.
    - [py_str], [py_repr_keys]: how an f-string formats a table value, and a
      list of [str].
    - [astype_int32]: the conversion of one value by
      [astype("int32")], or what it raises. *)
Record Env := {
  DOCSURL : string;
  DS_URL_PREFIX : string;
  path_exists : Path -> bool;
  path_is_dir : Path -> bool;
  path_iterdir : Path -> Res (list string);
  json_load : Path -> Res json;
  builtin_display : bool;
  ipython : bool;
  py_str : cell -> string;
  py_repr_keys : list string -> string;
  astype_int32 : cell -> Res cell
}.

(** ** The module [fgread.read] *)

Definition quoted (s : string) : string := dq +:+ s +:+ dq.

(** [l.remove(name)]: the first occurrence goes, [ValueError] if there is
    none. *)
Fixpoint list_remove (name : string) (l : list string) : Res (list string) :=
  match l with
  | [] => Raise (Exn ValueError "list.remove(x): x not in list")
  | x :: l' =>
      if String.eqb x name then Ok l'
      else match list_remove name l' with
           | Ok r => Ok (x :: r)
           | Raise e => Raise e
           end
  end.

(** [[l.remove(name) for name in names]], for its effect on [l]. *)
Fixpoint remove_each (names : list string) (l : list string)
  : Res (list string) :=
  match names with
  | [] => Ok l
  | name :: names' =>
      match list_remove name l with
      | Ok l' => remove_each names' l'
      | Raise e => Raise e
      end
  end.

(** [if ds:] for an [Optional[str]]. *)
Definition truthy (ds : option string) : option string :=
  match ds with
  | Some s => if String.eqb s "" then None else Some s
  | None => None
  end.

(** [format in readers] and, when it holds, [readers[format]]. *)
Definition lookup_format {R} (format : cell) (readers : dict R)
  : Res (option R) :=
  match format with
  | CJson (JStr s) => Ok (dict_get s readers)
  | CJson (JArr _) => Raise (Exn TypeError "unhashable type: 'list'")
  | CJson (JObj _) => Raise (Exn TypeError "unhashable type: 'dict'")
  | _ => Ok None
  end.

(** [Path(path)] for a table value: a [Path] or a [str]. *)
Definition as_path (path : cell) : Res Path :=
  match path with
  | CPath p => Ok p
  | CJson (JStr s) => Ok (parse_path s)
  | _ => Raise (Exn TypeError "expected str, bytes or os.PathLike object")
  end.

(** [Path(path) / file] *)
Definition payload_path (path file : cell) : Res Path :=
  match as_path path with
  | Raise e => Raise e
  | Ok p =>
      match file with
      | CJson (JStr s) => Ok (joinpath p (parse_path s))
      | CPath q => Ok (joinpath p q)
      | _ => Raise (Exn TypeError "unsupported operand type(s) for /")
      end
  end.

(** The key of a dict display must be hashable. *)
Definition dict_key (c : cell) : Res cell :=
  match c with
  | CJson (JArr _) => Raise (Exn TypeError "unhashable type: 'list'")
  | CJson (JObj _) => Raise (Exn TypeError "unhashable type: 'dict'")
  | _ => Ok c
  end.

(** [adata.uns[key] = v] and [adata.obs[key] = scalar]; a scalar assigned to
    a column of [obs] is repeated once per row of the body. *)
Definition set_uns (key : string) (v : uns_value) (adata : AnnData) : AnnData :=
  {| n_obs := n_obs adata;
     n_vars := n_vars adata;
     obs := obs adata;
     uns := dict_set key v (uns adata) |}.

Definition set_obs (key : string) (scalar : cell) (adata : AnnData) : AnnData :=
  {| n_obs := n_obs adata;
     n_vars := n_vars adata;
     obs := dict_set key (repeat scalar (n_obs adata)) (obs adata);
     uns := uns adata |}.

Definition sort_order : list string :=
  [ "title"; "id"; "format"; "organism"; "tissue";
    "numberOfCells"; "numberOfGenes"; "path"; "file" ].

(** Lines 91 to 94 of [ds_info]: the new column order from [col_names]. *)
Definition sort_colnames (col_names : list string) : Res (list string) :=
  let col_names_sorted :=
    List.filter (fun name => str_mem name col_names) sort_order in
  match remove_each sort_order col_names with
  | Raise e => Raise e
  | Ok col_names => Ok (col_names_sorted ++ col_names)
  end.

Fixpoint map_res {A B} (f : A -> Res B) (l : list A) : Res (list B) :=
  match l with
  | [] => Ok []
  | x :: l' =>
      match f x with
      | Raise e => Raise e
      | Ok y =>
          match map_res f l' with
          | Raise e => Raise e
          | Ok ys => Ok (y :: ys)
          end
      end
  end.

Section Read.

Context (env : Env).

Definition get_ds_paths (data_dir : Path) : M (list Path) :=
  if negb (path_exists env data_dir) then
    emit (LogWarning "There are no datasets attached to this analysis.") ;;
    ret []
  else
    names <- lift (path_iterdir env data_dir) ;;
    let paths :=
      List.filter
        (fun subdir =>
           path_is_dir env subdir && re_match_dataset (path_name subdir))
        (sorted (map (path_child data_dir) names)) in
    match paths with
    | [] =>
        raise (Exn AssertionError "There is no data available in this analysis.")
    | _ => ret paths
    end.

(** [display(df)], the name looked up in the builtins. *)
Definition display (df : ref) : M unit :=
  if builtin_display env then
    f <- deref df ;;
    emit (Display f)
  else raise (Exn NameError "name 'display' is not defined").

Definition select_ds_id (ds : string) (df : ref) : M ref :=
  f <- deref df ;;
  ids <- lift (frame_column f "id") ;;
  titles <- lift (frame_column f "title") ;;
  let mask :=
    map (fun '(i, t) => cell_eq_str ds i || cell_eq_str ds t)
      (combine ids titles) in
  selected <- alloc (frame_mask f mask) ;;
  f <- deref selected ;;
  single_df <- alloc (frame_reset_index f) ;;
  f <- deref single_df ;;
  let len_df := frame_len f in
  if Nat.eqb len_df 1 then
    alloc f
  else
    (if Nat.ltb 1 len_df then display single_df else ret tt) ;;
    raise (Exn KeyError
             ("Your selection matches " +:+ str_of_nat len_df
              +:+ " datasets. Please make sure to select exactly one.")).

Definition add_url (title id : cell) : cell :=
  CStr ("<a href=" +:+ dq +:+ DS_URL_PREFIX env +:+ py_str env id +:+ dq
        +:+ " target=" +:+ dq +:+ "_blank" +:+ dq +:+ ">"
        +:+ py_str env title +:+ "</a>").

(** [df.apply(lambda x: add_url(x.title, x.id), axis=1)] *)
Definition apply_add_url (f : Frame) : Res (list cell) :=
  match frame_column f "title" with
  | Raise e => Raise e
  | Ok titles =>
      match frame_column f "id" with
      | Raise e => Raise e
      | Ok ids => Ok (map (fun '(t, i) => add_url t i) (combine titles ids))
      end
  end.

(** The renderer gets the frame, or its transpose when [transposed] is set;
    any failure inside the [try] ends in the warning. *)
Definition disp_pretty_df (df : ref) (transposed index header : bool)
  : M unit :=
  if ipython env then
    f <- deref df ;;
    emit (DisplayMarkdown f transposed index header)
  else
    emit (LogWarning
            "IPython not available. Pretty printing only works in Jupyter Notebooks.").

(** [df.astype({c: "int32" for c in cols})] *)
Fixpoint astype_int32_columns (cols : list string) (f : Frame) : Res Frame :=
  match cols with
  | [] => Ok f
  | c :: cols' =>
      match frame_column f c with
      | Raise e => Raise e
      | Ok values =>
          match map_res (astype_int32 env) values with
          | Raise e => Raise e
          | Ok values' =>
              match frame_set_column f c values' with
              | Raise e => Raise e
              | Ok f' => astype_int32_columns cols' f'
              end
          end
      end
  end.

(** Lines 73 to 76 of [ds_info], the [with] block: the sidecar file of one
    dataset directory as a dict, tagged with its directory and without the
    schema version. *)
Definition read_info (ds_path : Path) : Res (dict cell) :=
  match json_load env (joinpath ds_path (parse_path "dataset_info.json")) with
  | Raise e => Raise e
  | Ok (JObj members) =>
      let info_df :=
        map (fun '(k, v) => (k, CJson v)) (dict_of_pairs members) in
      let info_df := dict_set "path" (CPath ds_path) info_df in
      Ok (dict_pop "schemaVersion" info_df)
  | Ok (JArr _) =>
      Raise (Exn TypeError "list indices must be integers or slices, not str")
  | Ok _ => Raise (Exn TypeError "object does not support item assignment")
  end.

(** The body of the loop of [ds_info]: one sidecar file becomes one row. *)
Definition ds_info_append (ds_df : ref) (ds_path : Path) : M ref :=
  info_df <- lift (read_info ds_path) ;;
  f <- deref ds_df ;;
  alloc (frame_append f info_df).

(** Lines 70 to 95 of [ds_info]: the table of all datasets under
    [data_dir], its columns in the new order. *)
Definition ds_info_table (data_dir : Path) : M ref :=
  ds_paths <- get_ds_paths data_dir ;;
  ds_df <- alloc frame_empty ;;
  ds_df <- for_each ds_paths ds_info_append ds_df ;;
  f <- deref ds_df ;;
  let col_names := columns f in
  col_names_sorted <- lift (sort_colnames col_names) ;;
  f <- lift (frame_getitem f col_names_sorted) ;;
  alloc f.

(** Lines 117 to 150 of [ds_info]: what is displayed and what is returned. *)
Definition ds_info_output (ds : option string) (pretty output : bool)
    (ds_df : ref) : M (option ref) :=
  match truthy ds with
  | Some ds =>
      (if pretty then
         pretty_df <- select_ds_id ds ds_df ;;
         f <- deref pretty_df ;;
         urls <- lift (apply_add_url f) ;;
         url <- match urls with
                | [url] => ret url
                | _ => raise (Exn ValueError "Incompatible indexer with Series")
                end ;;
         f <- lift (frame_set_loc f 0 "title" url) ;;
         store pretty_df f ;;
         disp_pretty_df pretty_df true true false
       else ret tt) ;;
      if output then
        single_df <- select_ds_id ds ds_df ;;
        ret (Some single_df)
      else ret None
  | None =>
      (if pretty then
         f <- deref ds_df ;;
         pretty_df <-
           alloc (frame_drop f ["description"; "license"; "preprocessing";
                                "citation"; "webLink"]) ;;
         f <- deref pretty_df ;;
         urls <- lift (apply_add_url f) ;;
         f <- lift (frame_set_column f "title" urls) ;;
         store pretty_df f ;;
         f <- lift (astype_int32_columns ["numberOfCells"; "numberOfGenes"] f) ;;
         pretty_df <- alloc f ;;
         disp_pretty_df pretty_df false true true
       else ret tt) ;;
      if output then ret (Some ds_df) else ret None
  end.

Definition warning_nothing : string :=
  "You have set " +:+ quoted "pretty" +:+ " and " +:+ quoted "output"
  +:+ " to false. Hence, this function will do/return nothing.".

Definition ds_info (ds : option string) (pretty output : bool)
    (data_dir : Path) : M (option ref) :=
  (if negb pretty && negb output then emit (LogWarning warning_nothing)
   else ret tt) ;;
  ds_df <- ds_info_table data_dir ;;
  ds_info_output ds pretty output ds_df.

(** Lines 177 to 183 of [load_data]: the frame of the one dataset to load.
    [ds_info] is called with its default [output=True] and returns a frame;
    the [None] cases stand for what Python would do with [None]. *)
Definition load_data_select (ds : option string) (data_dir : Path) : M ref :=
  match truthy ds with
  | Some ds =>
      df <- ds_info None false true data_dir ;;
      match df with
      | Some df => select_ds_id ds df
      | None =>
          raise (Exn TypeError "'NoneType' object has no attribute 'loc'")
      end
  | None =>
      single_df <- ds_info None false true data_dir ;;
      match single_df with
      | Some single_df =>
          f <- deref single_df ;;
          if Nat.eqb (frame_len f) 1 then ret single_df
          else
            raise (Exn AssertionError
                     "There is more than one dataset available. Please select one by its ID or title.")
      | None => raise (Exn TypeError "object of type 'NoneType' has no len()")
      end
  end.

Definition msg_loading (title format path : cell) : string :=
  "Loading dataset " +:+ quoted (py_str env title) +:+ " in format "
  +:+ quoted (py_str env format) +:+ " from directory "
  +:+ quoted (py_str env path) +:+ "..." +:+ nl.

Definition msg_loaded (title : cell) (n_cells n_genes : nat) : string :=
  "Loaded dataset " +:+ quoted (py_str env title) +:+ " with "
  +:+ str_of_nat n_cells +:+ " cells and " +:+ str_of_nat n_genes
  +:+ " genes." +:+ nl
  +:+ "=================================================================="
  +:+ nl.

Definition msg_other (title format : cell) : string :=
  "The format of the dataset " +:+ quoted (py_str env title) +:+ " is "
  +:+ quoted (py_str env format) +:+ ". Datasets with the "
  +:+ quoted (py_str env format)
  +:+ " format are unsupported by this module and have to be loaded manually."
  +:+ nl +:+ "See " +:+ DOCSURL env +:+ " for more information.".

Definition msg_not_set (title : cell) : string :=
  "The format of the dataset " +:+ quoted (py_str env title)
  +:+ " was not defined. If you can modify the dataset please specify "
  +:+ "its format in its details page, otherwise ask the dataset owner to do that."
  +:+ nl +:+ "See " +:+ DOCSURL env +:+ " for more information.".

Definition msg_unknown (format : cell) (keys : list string) : string :=
  "Unsupported format " +:+ quoted (py_str env format) +:+ ", use one of "
  +:+ py_repr_keys env keys +:+ " or implement your "
  +:+ "own reading function." +:+ nl
  +:+ "See " +:+ DOCSURL env +:+ " for more information.".

(** The three [raise] branches shared by [load_data] and [read_dataset]. *)
Definition raise_format_error {A R} (title format : cell) (readers : dict R)
  : M A :=
  if cell_eq_str "Other" format then
    raise (Exn NotImplementedError (msg_other title format))
  else if cell_eq_str "Not set" format then
    raise (Exn ValueError (msg_not_set title))
  else
    raise (Exn KeyError (msg_unknown format (dict_keys readers))).

(** Lines 185 to 220 of [load_data]. *)
Definition load_data_dispatch (readers : dict reader) (single_df : ref)
  : M AnnData :=
  f <- deref single_df ;;
  title <- lift (frame_loc f 0 "title") ;;
  ds_id <- lift (frame_loc f 0 "id") ;;
  format <- lift (frame_loc f 0 "format") ;;
  path <- lift (frame_loc f 0 "path") ;;
  file <- lift (frame_loc f 0 "file") ;;
  found <- lift (lookup_format format readers) ;;
  match found with
  | Some read =>
      emit (LogInfo (msg_loading title format path)) ;;
      payload <- lift (payload_path path file) ;;
      adata <- lift (read payload) ;;
      f <- deref single_df ;;
      metadata <- lift (frame_loc_dict f 0) ;;
      key <- lift (dict_key ds_id) ;;
      let adata := set_uns "ds_metadata" (UnsMetadata [(key, metadata)]) adata in
      let adata := set_obs "fg_id" ds_id adata in
      let n_genes := n_vars adata in
      let n_cells := n_obs adata in
      emit (LogInfo (msg_loaded title n_cells n_genes)) ;;
      ret adata
  | None => raise_format_error title format readers
  end.

(** The registry of one call: [{**DEFAULT_READERS, **additional_readers}].
    [None] stands for a call that leaves [additional_readers] out, which then
    is the shared default object. *)
Definition effective_readers (additional_readers : option (dict reader))
    (w : World) : dict reader :=
  dict_merge (DEFAULT_READERS w)
    (match additional_readers with
     | Some d => d
     | None => load_data_defaults w
     end).

Definition load_data (ds : option string) (data_dir : Path)
    (additional_readers : option (dict reader)) : M AnnData :=
  readers <- gets (effective_readers additional_readers) ;;
  single_df <- load_data_select ds data_dir ;;
  load_data_dispatch readers single_df.

Definition effective_readers_old (additional_readers : option (dict reader_old))
    (w : World) : dict reader_old :=
  dict_merge (DEFAULT_READERS_OLD w)
    (match additional_readers with
     | Some d => d
     | None => read_dataset_defaults w
     end).

Definition read_dataset (dataset : DataSet)
    (additional_readers : option (dict reader_old)) : M AnnData :=
  let format := dataset_format dataset in
  let title := dataset_title dataset in
  let path := dataset_path dataset in
  readers <- gets (effective_readers_old additional_readers) ;;
  found <- lift (lookup_format format readers) ;;
  match found with
  | Some read =>
      emit (LogInfo (msg_loading title format path)) ;;
      adata <- lift (read dataset) ;;
      let adata := set_uns "metadata" (UnsJson (dataset_metadata dataset)) adata in
      let adata := set_obs "fg_title" (dataset_title dataset) adata in
      let adata := set_obs "fg_id" (dataset_id dataset) adata in
      let n_genes := n_vars adata in
      let n_cells := n_obs adata in
      emit (LogInfo (msg_loaded title n_cells n_genes)) ;;
      ret adata
  | None => raise_format_error title format readers
  end.

End Read.

(** ** A concrete file system, for examples *)

#[local] Unset Elimination Schemes.
Inductive node :=
| File (content : Res json)
| Dir (entries : list (string * node)).
#[local] Set Elimination Schemes.

Fixpoint fs_lookup (n : node) (parts : list string) : option node :=
  match parts with
  | [] => Some n
  | name :: parts' =>
      match n with
      | Dir entries =>
          match dict_get name entries with
          | Some child => fs_lookup child parts'
          | None => None
          end
      | File _ => None
      end
  end.

(** The node at a path, absolute or relative to the root of the tree. *)
Definition fs_node (root : node) (p : Path) : option node :=
  fs_lookup root (if is_absolute p then tl p else p).

(** [str(c)] for the values the examples use. *)
Definition example_str (c : cell) : string :=
  match c with
  | CJson (JStr s) => s
  | CJson (JNum z) =>
      if (z <? 0)%Z then "-" +:+ str_of_nat (Z.to_nat (- z))
      else str_of_nat (Z.to_nat z)
  | CPath p => String.concat "/" (if is_absolute p then "" :: tl p else p)
  | CJson JNull => "None"
  | _ => "nan"
  end.

(** The environment of a Python process over the tree [root]:
    [in_ipython] tells whether it is an IPython session. *)
Definition example_env (root : node) (in_ipython : bool) : Env :=
  {| DOCSURL := "https://github.com/FASTGenomics/jupyter-fgread-py";
     DS_URL_PREFIX := "https://beta.fastgenomics.org/datasets/detail-";
     path_exists := fun p =>
       match fs_node root p with Some _ => true | None => false end;
     path_is_dir := fun p =>
       match fs_node root p with Some (Dir _) => true | _ => false end;
     path_iterdir := fun p =>
       match fs_node root p with
       | Some (Dir entries) => Ok (map fst entries)
       | Some (File _) => Raise (Exn OSError "Not a directory")
       | None => Raise (Exn OSError "No such file or directory")
       end;
     json_load := fun p =>
       match fs_node root p with
       | Some (File content) => content
       | Some (Dir _) => Raise (Exn OSError "Is a directory")
       | None => Raise (Exn OSError "No such file or directory")
       end;
     builtin_display := in_ipython;
     ipython := in_ipython;
     py_str := example_str;
     py_repr_keys := fun keys =>
       "[" +:+ String.concat ", " (map (fun k => "'" +:+ k +:+ "'") keys) +:+ "]";
     astype_int32 := fun c =>
       match c with
       | CJson (JNum z) => Ok c
       | _ => Raise (Exn ValueError "cannot convert to int32")
       end |}.

(** A tree with [/fastgenomics/data] holding the given entries. *)
Definition data_tree (entries : list (string * node)) : node :=
  Dir [("fastgenomics", Dir [("data", Dir entries)])].

(** A dataset directory: the sidecar file and a payload. *)
Definition dataset_dir (sidecar : list (string * json)) : node :=
  Dir [("dataset_info.json", File (Ok (JObj sidecar)));
       ("data.csv", File (Raise (Exn ValueError "Expecting value")))].

(** A sidecar with every field of the layout. *)
Definition full_sidecar (id title format : string) : list (string * json) :=
  [ ("schemaVersion", JStr "1.0"); ("id", JStr id); ("title", JStr title);
    ("description", JStr "An example"); ("format", JStr format);
    ("file", JStr "data.csv"); ("organism", JStr "Homo sapiens");
    ("tissue", JStr "blood"); ("numberOfCells", JNum 3);
    ("numberOfGenes", JNum 2); ("license", JStr "MIT") ].

(** The sidecar of the specification's first scenario. *)
Definition demo_sidecar : list (string * json) :=
  [ ("id", JStr "a1"); ("title", JStr "Demo");
    ("format", JStr "comma-separated text"); ("file", JStr "data.csv") ].

(** Readers that return an empty body of a shape that tells them apart. *)
Definition example_body (rows cols : nat) : AnnData :=
  {| n_obs := rows; n_vars := cols; obs := []; uns := [] |}.

Definition example_readers : ReadersModule reader :=
  {| read_loom_to_anndata := fun _ => Ok (example_body 1 1);
     read_seurat_to_anndata := fun _ => Ok (example_body 2 1);
     read_anndata_to_anndata := fun _ => Ok (example_body 3 1);
     read_10xhdf5_to_anndata := fun _ => Ok (example_body 4 1);
     read_10xmtx_to_anndata := fun _ => Ok (example_body 5 1);
     read_densetsv_to_anndata := fun _ => Ok (example_body 6 1);
     read_densecsv_to_anndata := fun _ => Ok (example_body 7 1) |}.

Definition example_readers_old : ReadersModule reader_old :=
  {| read_loom_to_anndata := fun _ => Ok (example_body 1 2);
     read_seurat_to_anndata := fun _ => Ok (example_body 2 2);
     read_anndata_to_anndata := fun _ => Ok (example_body 3 2);
     read_10xhdf5_to_anndata := fun _ => Ok (example_body 4 2);
     read_10xmtx_to_anndata := fun _ => Ok (example_body 5 2);
     read_densetsv_to_anndata := fun _ => Ok (example_body 6 2);
     read_densecsv_to_anndata := fun _ => Ok (example_body 7 2) |}.

Definition example_world : World :=
  initial_world example_readers example_readers_old.

(** ** Example inputs *)

(** Two datasets between entries that are no dataset directories, listed
    out of order. *)
Definition two_datasets : node :=
  data_tree
    [ ("dataset_0002", dataset_dir (full_sidecar "b2" "Second" "Loom"));
      ("notes", Dir []);
      ("dataset_0001",
       dataset_dir (full_sidecar "a1" "Demo" "comma-separated text"));
      ("dataset_12", Dir []) ].

(** Datasets whose format has no reader. *)
Definition odd_formats : node :=
  data_tree
    [ ("dataset_0001", dataset_dir (full_sidecar "o1" "Special" "Other"));
      ("dataset_0002", dataset_dir (full_sidecar "n2" "Undeclared" "Not set"));
      ("dataset_0003", dataset_dir (full_sidecar "x3" "Strange" "BadFormat")) ].

(** The specification's first scenario: one dataset, the sidecar with the
    four required fields only. *)
Definition demo_scenario : node :=
  data_tree [("dataset_0001", dataset_dir demo_sidecar)].

(** A data directory that only holds entries that are no datasets. *)
Definition no_datasets : node :=
  data_tree [("notes", Dir []); ("dataset_12", Dir [])].

(** A table with a title that two datasets share. *)
Definition small_table : Frame :=
  {| columns := ["id"; "title"];
     index := [0; 1; 2];
     rows := [ [CStr "a1"; CStr "Demo"];
               [CStr "b2"; CStr "Demo"];
               [CStr "c3"; CStr "Third"] ] |}.

(** A caller's reader, told apart by the shape of its body. *)
Definition custom_reader : reader := fun _ => Ok (example_body 9 9).

Definition table_world : World := with_heap [small_table] example_world.

(** ** Notions the statements use *)

Definition has_column (c : string) (f : Frame) : Prop :=
  str_mem c (columns f) = true.

(** The value a row holds in a column of the table. *)
Definition frame_cell (f : Frame) (row : list cell) (c : string) : cell :=
  match str_index c (columns f) with
  | Some j => row_cell row j
  | None => CNaN
  end.

(** A row matches an identifier when its [id] or its [title] is that
    string. *)
Definition row_matches (ds : string) (f : Frame) (r : list cell) : bool :=
  match str_index "id" (columns f), str_index "title" (columns f) with
  | Some i, Some t => cell_eq_str ds (row_cell r i) || cell_eq_str ds (row_cell r t)
  | _, _ => false
  end.

Definition matching_rows (ds : string) (f : Frame) : list (list cell) :=
  List.filter (row_matches ds f) (rows f).

(** The matching rows as a frame of their own, numbered from 0. *)
Definition selection (ds : string) (f : Frame) : Frame :=
  {| columns := columns f;
     index := seq 0 (length (matching_rows ds f));
     rows := matching_rows ds f |}.

(** The message of the [KeyError] of [select_ds_id] for [n] matches. *)
Definition msg_selection (n : nat) : string :=
  "Your selection matches " +:+ str_of_nat n
  +:+ " datasets. Please make sure to select exactly one.".

(** A table as [ds_info] builds it: the index is the range of the row
    numbers and every row has one cell per column. *)
Definition table_inv (f : Frame) : Prop :=
  index f = seq 0 (length (rows f))
  /\ Forall (fun r => length r = length (columns f)) (rows f).

(** The children of [data_dir] that are directories with a dataset name, in
    the order of the listing. *)
Definition dataset_dirs (env : Env) (data_dir : Path) (names : list string)
  : list Path :=
  List.filter
    (fun subdir => path_is_dir env subdir && re_match_dataset (path_name subdir))
    (map (path_child data_dir) names).

(** A body with the provenance [load_data] attaches to it. *)
Definition enrich (ds_id : cell) (metadata : dict cell) (adata : AnnData)
  : AnnData :=
  set_obs "fg_id" ds_id
    (set_uns "ds_metadata" (UnsMetadata [(ds_id, metadata)]) adata).

(** The registries and the shared default arguments are the same. *)
Definition same_globals (w w' : World) : Prop :=
  DEFAULT_READERS w' = DEFAULT_READERS w
  /\ DEFAULT_READERS_OLD w' = DEFAULT_READERS_OLD w
  /\ load_data_defaults w' = load_data_defaults w
  /\ read_dataset_defaults w' = read_dataset_defaults w.

(** The log has only grown. *)
Definition log_extends (w w' : World) : Prop :=
  exists l, w_log w' = w_log w ++ l.

(** The relation [R] holds between the world before and after the call. *)
Definition preserved (R : World -> World -> Prop) {A} (m : M A) : Prop :=
  forall w, R w (snd (m w)).

(** ** Notions the further statements use *)

(** The value a record gives a column of the table: NaN when the record has
    no such field. *)
Definition cell_of (c : string) (d : dict cell) : cell :=
  match dict_get c d with
  | Some v => v
  | None => CNaN
  end.

(** The table holds the records, one row each and in their order: its
    columns are the field names of the records, each once, and the values
    of a column are what the records give it. *)
Definition holds_records (f : Frame) (infos : list (dict cell)) : Prop :=
  table_inv f
  /\ length (rows f) = length infos
  /\ List.NoDup (columns f)
  /\ (forall c, In c (columns f) <-> exists d, In d infos /\ In c (dict_keys d))
  /\ (forall c, In c (columns f) ->
        frame_column f c = Ok (map (cell_of c) infos)).

(** A call that starts with [n] objects or more leaves the first [n] as
    they are, and what it returns satisfies [post]. *)
Definition keeps (n : nat) {A} (post : A -> Prop) (m : M A) : Prop :=
  forall w, n <= length (heap w) ->
    n <= length (heap (snd (m w)))
    /\ (forall r, r < n -> heap (snd (m w)) !! r = heap w !! r)
    /\ (forall a, fst (m w) = Ok a -> post a).

(** The reference is none of the first [n] objects. *)
Definition fresh (n : nat) (r : ref) : Prop := n <= r.

Definition fresh_opt (n : nat) (o : option ref) : Prop :=
  forall r, o = Some r -> n <= r.

(** The postcondition that asks nothing. *)
Definition any {A} (a : A) : Prop := True.

(** The message of the [AssertionError] of [load_data]. *)
Definition msg_more_than_one : string :=
  "There is more than one dataset available. Please select one by its ID or title.".

(** What [disp_pretty_df] leaves in the log: the rendered frame, or outside
    IPython the warning. *)
Definition rendering (env : Env) (f : Frame) (transposed index header : bool)
  : event :=
  if ipython env then DisplayMarkdown f transposed index header
  else LogWarning
         "IPython not available. Pretty printing only works in Jupyter Notebooks.".

(** Two datasets, the second with a sidecar file that names no format. *)
Definition missing_format : node :=
  data_tree
    [ ("dataset_0001", dataset_dir (full_sidecar "a1" "Demo" "Loom"));
      ("dataset_0002",
       dataset_dir
         [ ("id", JStr "b2"); ("title", JStr "Second");
           ("file", JStr "data.csv"); ("organism", JStr "Mus musculus");
           ("tissue", JStr "brain"); ("numberOfCells", JNum 5);
           ("numberOfGenes", JNum 4) ]) ].

(** A handle of the legacy calling convention, of a given format. *)
Definition example_dataset (format : string) : DataSet :=
  {| dataset_id := CStr "0001";
     dataset_title := CStr "Demo";
     dataset_format := CStr format;
     dataset_path := CPath ["/"; "fastgenomics"; "data"; "dataset_0001"];
     dataset_metadata := JObj (full_sidecar "a1" "Demo" format) |}.

(** A caller's reader of the legacy calling convention. *)
Definition custom_reader_old : reader_old := fun _ => Ok (example_body 9 9).

(** * Proofs *)

(** ** Running a call *)

Lemma bind_ok {A B} (m : M A) (k : A -> M B) w a w1 :
  m w = (Ok a, w1) -> bind m k w = k a w1.
Proof. intros H. unfold bind. now rewrite H. Qed.

Lemma bind_ok_inv {A B} (m : M A) (k : A -> M B) w b w' :
  bind m k w = (Ok b, w') ->
  exists a w1, m w = (Ok a, w1) /\ k a w1 = (Ok b, w').
Proof.
  unfold bind. destruct (m w) as [[a | e] w1]; intros H.
  - eauto.
  - discriminate.
Qed.

Lemma heap_with_heap h w : heap (with_heap h w) = h.
Proof. reflexivity. Qed.

Lemma lookup_fresh (h : list Frame) f : (h ++ [f]) !! length h = Some f.
Proof. rewrite lookup_app_r by lia. now rewrite Nat.sub_diag. Qed.

Lemma lookup_old (h t : list Frame) r f : h !! r = Some f -> (h ++ t) !! r = Some f.
Proof. intros H. now apply lookup_app_l_Some. Qed.

Lemma deref_ok r f w : heap w !! r = Some f -> deref r w = (Ok f, w).
Proof. intros H. unfold deref. now rewrite H. Qed.

Lemma deref_ok_inv r f w w' : deref r w = (Ok f, w') -> heap w !! r = Some f /\ w' = w.
Proof. unfold deref. destruct (heap w !! r); intros H; inversion H; auto. Qed.

Lemma bind_lift {A B} (r : Res A) (k : A -> M B) w a :
  r = Ok a -> bind (lift r) k w = k a w.
Proof. intros ->. reflexivity. Qed.

Lemma bind_alloc {B} f (k : ref -> M B) w :
  bind (alloc f) k w = k (length (heap w)) (with_heap (heap w ++ [f]) w).
Proof. reflexivity. Qed.

Lemma bind_deref {B} r f (k : Frame -> M B) w :
  heap w !! r = Some f -> bind (deref r) k w = k f w.
Proof. intros H. apply bind_ok. now apply deref_ok. Qed.

Lemma bind_emit {B} e (k : unit -> M B) w :
  bind (emit e) k w = k tt (with_log (w_log w ++ [e]) w).
Proof. reflexivity. Qed.

Lemma with_heap_twice h1 h2 w : with_heap h2 (with_heap h1 w) = with_heap h2 w.
Proof. reflexivity. Qed.

Lemma lookup_fresh_world h f w :
  heap (with_heap (h ++ [f]) w) !! length h = Some f.
Proof. simpl. apply lookup_fresh. Qed.

Lemma Ok_inj {A} (a b : A) : Ok a = Ok b -> a = b.
Proof. now intros [= ->]. Qed.

Ltac splits := repeat match goal with |- _ /\ _ => split end.

(** ** Selection *)

Lemma mask_filter_map {A} (g : A -> bool) (l : list A) :
  mask_filter (map g l) l = List.filter g l.
Proof. induction l as [| x l IH]; simpl; [easy |]. destruct (g x); now rewrite IH. Qed.

Lemma mask_filter_length {A B} (m : list bool) (l1 : list A) (l2 : list B) :
  length l1 = length l2 ->
  length (mask_filter m l1) = length (mask_filter m l2).
Proof.
  revert l1 l2. induction m as [| b m IH]; intros [| x l1] [| y l2] H; simpl in *;
    try easy.
  injection H as H. destruct b; simpl; auto.
Qed.

Lemma combine_map_map {A B C} (a : A -> B) (b : A -> C) (l : list A) :
  combine (map a l) (map b l) = map (fun x => (a x, b x)) l.
Proof. induction l; simpl; congruence. Qed.

Lemma str_mem_index c l : str_mem c l = true -> exists j, str_index c l = Some j.
Proof.
  induction l as [| x l IH]; simpl; [easy |].
  destruct (String.eqb c x); simpl; [eauto |].
  intros H. destruct (IH H) as [j ->]. simpl. eauto.
Qed.

Lemma str_index_mem c l j : str_index c l = Some j -> str_mem c l = true.
Proof.
  revert j. induction l as [| x l IH]; simpl; [easy |]. intros j.
  destruct (String.eqb c x); simpl; [easy |].
  destruct (str_index c l); simpl; [eauto | easy].
Qed.

Lemma frame_column_index f c j :
  str_index c (columns f) = Some j ->
  frame_column f c = Ok (map (fun r => row_cell r j) (rows f)).
Proof. intros H. unfold frame_column. now rewrite H. Qed.

Section Select.
Context (env : Env).

(** What [select_ds_id] does on a table that has the two columns. *)
Lemma select_ds_id_run ds df f w :
  heap w !! df = Some f ->
  length (rows f) = length (index f) ->
  has_column "id" f -> has_column "title" f ->
  let n := length (matching_rows ds f) in
  let masked := frame_mask f (map (row_matches ds f) (rows f)) in
  let w2 := with_heap (heap w ++ [masked; selection ds f]) w in
  select_ds_id env ds df w =
    if Nat.eqb n 1 then
      (Ok (S (S (length (heap w)))),
       with_heap (heap w ++ [masked; selection ds f; selection ds f]) w)
    else if Nat.ltb 1 n then
      if builtin_display env then
        (Raise (Exn KeyError (msg_selection n)),
         with_log (w_log w ++ [Display (selection ds f)]) w2)
      else (Raise (Exn NameError "name 'display' is not defined"), w2)
    else (Raise (Exn KeyError (msg_selection n)), w2).
Proof.
  intros Hdf Hwf Hid Htitle n masked w2.
  destruct (str_mem_index _ _ Hid) as [i Hi].
  destruct (str_mem_index _ _ Htitle) as [t Ht].
  assert (Hmask :
    map (fun '(i0, t0) => cell_eq_str ds i0 || cell_eq_str ds t0)
      (combine (map (fun r => row_cell r i) (rows f))
               (map (fun r => row_cell r t) (rows f)))
    = map (row_matches ds f) (rows f)).
  { rewrite combine_map_map, map_map. apply map_ext. intros r.
    unfold row_matches. now rewrite Hi, Ht. }
  assert (Hrows : rows masked = matching_rows ds f).
  { unfold masked, frame_mask. simpl. apply mask_filter_map. }
  assert (Hlen : length (index masked) = n).
  { unfold n. rewrite <- Hrows. unfold masked, frame_mask. simpl.
    apply mask_filter_length. now symmetry. }
  assert (Hsel : frame_reset_index masked = selection ds f).
  { unfold frame_reset_index, selection. rewrite Hlen, Hrows. reflexivity. }
  unfold select_ds_id.
  rewrite (bind_deref _ _ _ _ Hdf).
  rewrite (bind_lift _ _ _ _ (frame_column_index _ _ _ Hi)).
  rewrite (bind_lift _ _ _ _ (frame_column_index _ _ _ Ht)).
  rewrite Hmask. fold masked.
  rewrite bind_alloc, (bind_deref _ _ _ _ (lookup_fresh_world _ _ _)).
  rewrite Hsel, bind_alloc, with_heap_twice, heap_with_heap.
  rewrite (bind_deref _ _ _ _ (lookup_fresh_world _ _ _)).
  assert (Hfl : frame_len (selection ds f) = n).
  { unfold frame_len, selection. simpl. now rewrite length_seq. }
  rewrite Hfl, <- app_assoc. simpl app.
  destruct (Nat.eqb n 1) eqn:E1.
  - unfold alloc. rewrite heap_with_heap, with_heap_twice, length_app.
    rewrite <- app_assoc. simpl. do 2 f_equal. lia.
  - destruct (Nat.ltb 1 n) eqn:E2.
    + unfold display. destruct (builtin_display env).
      * assert (Hl : heap (with_heap (heap w ++ [masked; selection ds f]) w)
                      !! length (heap w ++ [masked]) = Some (selection ds f)).
        { simpl. rewrite length_app. simpl.
          rewrite lookup_app_r by lia.
          replace (length (heap w) + 1 - length (heap w)) with 1 by lia.
          reflexivity. }
        rewrite (bind_ok _ _ _ tt (with_log (w_log w ++ [Display (selection ds f)]) w2)).
        -- reflexivity.
        -- rewrite (bind_deref _ _ _ _ Hl). reflexivity.
      * reflexivity.
    + reflexivity.
Qed.

End Select.

(** ** Column names and positions *)

Lemma str_mem_In c l : str_mem c l = true <-> In c l.
Proof.
  unfold str_mem. rewrite existsb_exists. split.
  - intros [x [Hx He]]. apply String.eqb_eq in He. now subst.
  - intros H. exists c. split; [easy | apply String.eqb_refl].
Qed.

Lemma str_index_lt c l j : str_index c l = Some j -> j < length l.
Proof.
  revert j. induction l as [| x l IH]; simpl; [easy |]. intros j.
  destruct (String.eqb c x).
  - intros [= <-]. lia.
  - destruct (str_index c l) as [k |]; simpl; [| easy].
    intros [= <-]. specialize (IH k eq_refl). lia.
Qed.

Lemma str_index_nth c l j : str_index c l = Some j -> nth j l EmptyString = c.
Proof.
  revert j. induction l as [| x l IH]; simpl; [easy |]. intros j.
  destruct (String.eqb c x) eqn:E.
  - intros [= <-]. apply String.eqb_eq in E. now subst.
  - destruct (str_index c l) as [k |]; simpl; [| easy].
    intros [= <-]. now apply IH.
Qed.

Lemma str_index_app_l c l l' j :
  str_index c l = Some j -> str_index c (l ++ l') = Some j.
Proof.
  revert j. induction l as [| x l IH]; simpl; [easy |]. intros j.
  destruct (String.eqb c x); [easy |].
  destruct (str_index c l) as [k |]; simpl; [| easy].
  intros [= <-]. now rewrite (IH k eq_refl).
Qed.

Lemma str_index_In c l : In c l -> exists j, str_index c l = Some j.
Proof. intros H. apply str_mem_index. now apply str_mem_In. Qed.

Lemma row_cell_app r pad j : j < length r -> row_cell (r ++ pad) j = row_cell r j.
Proof. intros H. unfold row_cell. now apply app_nth1. Qed.

Lemma row_cell_map {A} (g : A -> cell) (l : list A) (d : A) j :
  j < length l -> row_cell (map g l) j = g (nth j l d).
Proof.
  intros H. unfold row_cell.
  rewrite (nth_indep _ CNaN (g d)) by now rewrite length_map.
  apply map_nth.
Qed.

(** ** Tables built by [ds_info] *)

Lemma table_inv_empty : table_inv frame_empty.
Proof. split; [reflexivity | constructor]. Qed.

Lemma table_inv_len f : table_inv f -> length (rows f) = length (index f).
Proof. intros [H _]. rewrite H. now rewrite length_seq. Qed.

Lemma table_inv_append f d : table_inv f -> table_inv (frame_append f d).
Proof.
  intros [Hi Hr]. split; simpl.
  - rewrite length_app, length_map. simpl.
    replace (length (rows f) + 1) with (S (length (rows f))) by lia.
    reflexivity.
  - apply List.Forall_app. split.
    + apply List.Forall_map. eapply List.Forall_impl; [| exact Hr].
      intros r Hlen. simpl in *. rewrite !length_app, repeat_length. now rewrite Hlen.
    + constructor; [| constructor]. now rewrite length_map.
Qed.

Lemma rows_append f d : length (rows (frame_append f d)) = S (length (rows f)).
Proof. simpl. rewrite length_app, length_map. simpl. lia. Qed.

Lemma dict_get_keys {V} k (d : dict V) v :
  dict_get k d = Some v -> In k (dict_keys d).
Proof.
  induction d as [| [k' v'] d IH]; simpl; [easy |].
  destruct (String.eqb k k') eqn:E.
  - intros _. left. apply String.eqb_eq in E. now subst.
  - intros H. right. now apply IH.
Qed.

(** The column ["path"] after one more sidecar file. *)
Lemma path_column_append f d p done :
  table_inv f ->
  length (rows f) = length done ->
  (done <> [] -> frame_column f "path" = Ok (map CPath done)) ->
  dict_get "path" d = Some (CPath p) ->
  frame_column (frame_append f d) "path" = Ok (map CPath (done ++ [p])).
Proof.
  intros [Hi Hr] Hlen Hcol Hd.
  set (new_cols := List.filter (fun k => negb (str_mem k (columns f))) (dict_keys d)).
  assert (Hin : In "path"%string (columns f ++ new_cols)).
  { apply in_app_iff. destruct (str_mem "path" (columns f)) eqn:E.
    - left. now apply str_mem_In.
    - right. apply filter_In. split; [| now rewrite E].
      eapply dict_get_keys, Hd. }
  destruct (str_index_In _ _ Hin) as [j Hj].
  unfold frame_column, frame_append. cbn [columns rows]. fold new_cols.
  set (cols := columns f ++ new_cols) in *. rewrite Hj. f_equal.
  rewrite (map_app _ _ [_]), map_map, (map_app CPath). cbn [map]. f_equal.
  - destruct done as [| q done].
    + destruct (rows f); [reflexivity | discriminate].
    + specialize (Hcol ltac:(easy)). unfold frame_column in Hcol.
      destruct (str_index "path" (columns f)) as [j0 |] eqn:Hj0; [| easy].
      injection Hcol as Hcol. change (CPath q :: map CPath done) with (map CPath (q :: done)) in Hcol. rewrite <- Hcol.
      unfold cols in Hj.
      rewrite (str_index_app_l _ _ new_cols _ Hj0) in Hj. injection Hj as <-.
      apply map_ext_in. intros r Hrin. apply row_cell_app.
      rewrite List.Forall_forall in Hr. rewrite (Hr r Hrin).
      now apply str_index_lt in Hj0.
  - f_equal. rewrite (row_cell_map _ _ EmptyString) by now apply str_index_lt in Hj.
    rewrite (str_index_nth _ _ _ Hj). now rewrite Hd.
Qed.

(** ** [df[names]] *)

Lemma positions_spec cols names js :
  positions cols names = Ok js ->
  length js = length names
  /\ forall c k, str_index c names = Some k ->
       exists j, str_index c cols = Some j /\ nth k js 0 = j.
Proof.
  revert js. induction names as [| x names IH]; simpl; intros js.
  - intros [= <-]. split; [easy |]. intros c k H. discriminate.
  - destruct (str_index x cols) as [j |] eqn:Hx; [| easy].
    destruct (positions cols names) as [js' |]; [| easy].
    intros [= <-]. destruct (IH js' eq_refl) as [Hl Hk]. split; [simpl; lia |].
    intros c k. destruct (String.eqb c x) eqn:E.
    + intros [= <-]. apply String.eqb_eq in E. subst. eauto.
    + destruct (str_index c names) as [k' |] eqn:Hc; simpl; [| easy].
      intros [= <-]. destruct (Hk c k' Hc) as [j' [? ?]]. eauto.
Qed.

Lemma frame_getitem_spec f names f' :
  frame_getitem f names = Ok f' ->
  columns f' = names /\ index f' = index f
  /\ length (rows f') = length (rows f)
  /\ Forall (fun r => length r = length names) (rows f')
  /\ forall c, In c names -> frame_column f' c = frame_column f c.
Proof.
  unfold frame_getitem.
  destruct (positions (columns f) names) as [js |] eqn:Hp; [| easy].
  intros [= <-]. simpl. destruct (positions_spec _ _ _ Hp) as [Hl Hk].
  splits; try reflexivity.
  - now rewrite length_map.
  - apply List.Forall_map. apply List.Forall_forall. intros r _. simpl.
    now rewrite length_map.
  - intros c Hc. destruct (str_index_In _ _ Hc) as [k Hck].
    destruct (Hk c k Hck) as [j [Hj Hnth]].
    unfold frame_column. simpl. rewrite Hck, Hj. f_equal.
    rewrite map_map. apply map_ext. intros r.
    rewrite (row_cell_map _ _ 0) by (rewrite Hl; now apply str_index_lt in Hck).
    now rewrite Hnth.
Qed.

(** ** The new column order *)

Lemma list_remove_perm name l l' :
  list_remove name l = Ok l' -> Permutation l (name :: l').
Proof.
  revert l'. induction l as [| x l IH]; simpl; intros l'; [easy |].
  destruct (String.eqb x name) eqn:E.
  - intros [= <-]. apply String.eqb_eq in E. now subst.
  - destruct (list_remove name l) as [r |]; [| easy].
    intros [= <-]. rewrite (IH r eq_refl). apply perm_swap.
Qed.

Lemma list_remove_In name l :
  In name l -> exists l', list_remove name l = Ok l'.
Proof.
  induction l as [| x l IH]; simpl; [easy |].
  destruct (String.eqb x name) eqn:E; [eauto |].
  intros [-> | H].
  - now rewrite String.eqb_refl in E.
  - destruct (IH H) as [l' ->]. eauto.
Qed.

Lemma list_remove_absent name l e :
  list_remove name l = Raise e ->
  ~ In name l /\ e = Exn ValueError "list.remove(x): x not in list".
Proof.
  induction l as [| x l IH]; simpl.
  - intros [= <-]. easy.
  - destruct (String.eqb x name) eqn:E; [easy |].
    destruct (list_remove name l) as [r |]; [easy |].
    intros [= <-]. destruct (IH eq_refl) as [Hn He]. split; [| easy].
    intros [-> | H]; [| easy]. now rewrite String.eqb_refl in E.
Qed.

Lemma list_remove_filter name l l' :
  List.NoDup l -> list_remove name l = Ok l' ->
  l' = List.filter (fun c => negb (String.eqb c name)) l.
Proof.
  revert l'. induction l as [| x l IH]; simpl; intros l' Hnd; [easy |].
  apply NoDup_cons_iff in Hnd. destruct Hnd as [Hx Hnd].
  destruct (String.eqb x name) eqn:E; simpl.
  - intros [= <-]. apply String.eqb_eq in E. subst.
    symmetry. apply forallb_filter_id. apply forallb_forall.
    intros c Hc. destruct (String.eqb c name) eqn:E'; [| easy].
    apply String.eqb_eq in E'. now subst.
  - destruct (list_remove name l) as [r |]; [| easy].
    intros [= <-]. now rewrite (IH r Hnd eq_refl).
Qed.

Lemma remove_each_perm names l l' :
  remove_each names l = Ok l' -> Permutation l (names ++ l').
Proof.
  revert l l'. induction names as [| n names IH]; simpl; intros l l'.
  - now intros [= <-].
  - destruct (list_remove n l) as [l1 |] eqn:E; [| easy].
    intros H. rewrite (list_remove_perm _ _ _ E). constructor. now apply IH.
Qed.

Lemma remove_each_filter names l l' :
  List.NoDup l -> remove_each names l = Ok l' ->
  l' = List.filter (fun c => negb (str_mem c names)) l.
Proof.
  revert l l'. induction names as [| n names IH]; simpl; intros l l' Hnd.
  - intros [= <-]. symmetry. apply forallb_filter_id. now apply forallb_forall.
  - destruct (list_remove n l) as [l1 |] eqn:E; [| easy].
    intros H. pose proof (list_remove_filter _ _ _ Hnd E) as ->.
    rewrite (IH _ l' (List.NoDup_filter _ Hnd) H).
    clear. induction l as [| x l IHl]; simpl; [easy |].
    destruct (String.eqb x n) eqn:E; simpl; [easy |].
    destruct (str_mem x names); simpl; now rewrite IHl.
Qed.

Lemma remove_each_all names l :
  List.NoDup names -> (forall n, In n names -> In n l) ->
  exists l', remove_each names l = Ok l'.
Proof.
  revert l. induction names as [| n names IH]; simpl; intros l Hnd H; [eauto |].
  apply NoDup_cons_iff in Hnd. destruct Hnd as [Hn Hnd].
  destruct (list_remove_In n l) as [l1 E]; [auto |]. rewrite E.
  apply IH; [easy |]. intros m Hm.
  pose proof (list_remove_perm _ _ _ E) as P.
  assert (Hin : In m (n :: l1)) by (eapply Permutation_in; [exact P | auto]).
  destruct Hin as [-> | ?]; easy.
Qed.

Lemma remove_each_raise names l e :
  remove_each names l = Raise e -> e = Exn ValueError "list.remove(x): x not in list".
Proof.
  revert l. induction names as [| n names IH]; simpl; intros l; [easy |].
  destruct (list_remove n l) as [l1 |] eqn:E.
  - apply IH.
  - intros [= <-]. now apply list_remove_absent in E.
Qed.

(** When the column sort goes through, every priority column was there, and
    the new order is the priority list followed by what is left. *)
Lemma sort_colnames_ok col_names sorted' :
  sort_colnames col_names = Ok sorted' ->
  exists rest, remove_each sort_order col_names = Ok rest
    /\ sorted' = sort_order ++ rest
    /\ Permutation col_names sorted'.
Proof.
  unfold sort_colnames.
  destruct (remove_each sort_order col_names) as [rest |] eqn:E; [| easy].
  intros H. apply Ok_inj in H. subst sorted'.
  exists rest. pose proof (remove_each_perm _ _ _ E) as P.
  assert (Hf : List.filter (fun name => str_mem name col_names) sort_order = sort_order).
  { apply forallb_filter_id. apply forallb_forall. intros c Hc. apply str_mem_In.
    eapply Permutation_in; [symmetry; exact P |]. apply in_app_iff. now left. }
  rewrite Hf. easy.
Qed.

(** ** The order of paths *)

Lemma string_compare_eq x y : String.compare x y = Eq <-> x = y.
Proof. apply String_as_OT.cmp_eq. Qed.

Lemma string_compare_antisym x y :
  String.compare y x = CompOpp (String.compare x y).
Proof. apply String_as_OT.cmp_antisym. Qed.

Lemma string_compare_trans x y z c :
  String.compare x y = c -> String.compare y z = c -> String.compare x z = c.
Proof.
  destruct c; intros H1 H2.
  - apply string_compare_eq in H1, H2. subst. now apply string_compare_eq.
  - apply String_as_OT.cmp_lt in H1, H2. apply String_as_OT.cmp_lt.
    eapply String_as_OT.lt_trans; eassumption.
  - rewrite string_compare_antisym in H1, H2.
    rewrite string_compare_antisym.
    assert (L1 : String.compare y x = Lt) by (destruct (String.compare y x); easy).
    assert (L2 : String.compare z y = Lt) by (destruct (String.compare z y); easy).
    apply String_as_OT.cmp_lt in L1, L2.
    assert (L : String.compare z x = Lt).
    { apply String_as_OT.cmp_lt. eapply String_as_OT.lt_trans; eassumption. }
    now rewrite L.
Qed.

Lemma path_compare_list p q : path_compare p q = list_compare String.compare p q.
Proof.
  revert q. induction p as [| a p IH]; intros [| b q]; simpl; try reflexivity.
Qed.

Lemma path_compare_antisym p q : path_compare q p = CompOpp (path_compare p q).
Proof.
  rewrite !path_compare_list. apply list_compare_antisym.
  - apply string_compare_eq.
  - intros x y. apply string_compare_antisym.
Qed.

Lemma path_compare_trans p q r c :
  path_compare p q = c -> path_compare q r = c -> path_compare p r = c.
Proof.
  rewrite !path_compare_list. apply list_compare_trans.
  - apply string_compare_eq.
  - intros x y z c'. apply string_compare_trans.
  - intros x y. apply string_compare_antisym.
Qed.

Lemma path_compare_eq p q : path_compare p q = Eq <-> p = q.
Proof. rewrite path_compare_list. apply list_compare_refl, string_compare_eq. Qed.

Lemma path_le_trans p q r : path_le p q -> path_le q r -> path_le p r.
Proof.
  unfold path_le. intros H1 H2.
  destruct (path_compare p q) eqn:E1; [| | easy].
  - apply path_compare_eq in E1. now subst.
  - destruct (path_compare q r) eqn:E2; [| | easy].
    + apply path_compare_eq in E2. subst. now rewrite E1.
    + now rewrite (path_compare_trans _ _ _ _ E1 E2).
Qed.

Lemma path_ltb_le p q : path_ltb p q = true -> path_le p q.
Proof. unfold path_ltb, path_le. now destruct (path_compare p q). Qed.

Lemma path_ltb_false_le p q : path_ltb p q = false -> path_le q p.
Proof.
  unfold path_ltb, path_le. rewrite (path_compare_antisym p q).
  now destruct (path_compare p q).
Qed.

(** ** [sorted] *)

Lemma sorted_insert_perm x l : Permutation (sorted_insert x l) (x :: l).
Proof.
  induction l as [| y l IH]; simpl; [easy |].
  destruct (path_ltb y x); [| easy].
  rewrite IH. apply perm_swap.
Qed.

Lemma sorted_perm l : Permutation (sorted l) l.
Proof.
  induction l as [| x l IH]; simpl; [easy |].
  rewrite sorted_insert_perm. now constructor.
Qed.

Lemma sorted_insert_sorted x l :
  StronglySorted path_le l -> StronglySorted path_le (sorted_insert x l).
Proof.
  induction l as [| y l IH]; simpl; intros H.
  - repeat constructor.
  - apply StronglySorted_inv in H. destruct H as [Hl Hy].
    destruct (path_ltb y x) eqn:E.
    + constructor; [now apply IH |].
      apply List.Forall_forall. intros z Hz.
      apply (Permutation_in _ (sorted_insert_perm x l)) in Hz.
      destruct Hz as [<- | Hz]; [now apply path_ltb_le |].
      rewrite List.Forall_forall in Hy. now apply Hy.
    + apply path_ltb_false_le in E. constructor; [now constructor |].
      constructor; [easy |].
      eapply List.Forall_impl; [| exact Hy].
      intros z Hz. eapply path_le_trans; eassumption.
Qed.

Lemma sorted_sorted l : StronglySorted path_le (sorted l).
Proof.
  induction l as [| x l IH]; simpl; [constructor |].
  now apply sorted_insert_sorted.
Qed.

Lemma filter_sorted (keep : Path -> bool) l :
  StronglySorted path_le l -> StronglySorted path_le (List.filter keep l).
Proof.
  induction l as [| x l IH]; simpl; intros H; [constructor |].
  apply StronglySorted_inv in H. destruct H as [Hl Hx].
  destruct (keep x); [| now apply IH].
  constructor; [now apply IH |].
  apply List.Forall_forall. intros z Hz. apply filter_In in Hz.
  rewrite List.Forall_forall in Hx. now apply Hx.
Qed.

Lemma filter_perm {A} (keep : A -> bool) l l' :
  Permutation l l' -> Permutation (List.filter keep l) (List.filter keep l').
Proof.
  induction 1; simpl.
  - constructor.
  - destruct (keep x); [now constructor | easy].
  - destruct (keep x), (keep y); try easy. apply perm_swap.
  - etransitivity; eassumption.
Qed.

(** ** The scanner *)

Section Scanner.
Context (env : Env).

Lemma get_ds_paths_missing data_dir w :
  path_exists env data_dir = false ->
  get_ds_paths env data_dir w =
    (Ok [],
     with_log (w_log w ++ [LogWarning "There are no datasets attached to this analysis."]) w).
Proof. intros H. unfold get_ds_paths. rewrite H. reflexivity. Qed.

Lemma get_ds_paths_listing data_dir names w :
  path_exists env data_dir = true ->
  path_iterdir env data_dir = Ok names ->
  get_ds_paths env data_dir w =
    match List.filter
            (fun subdir =>
               path_is_dir env subdir && re_match_dataset (path_name subdir))
            (sorted (map (path_child data_dir) names)) with
    | [] => (Raise (Exn AssertionError "There is no data available in this analysis."), w)
    | paths => (Ok paths, w)
    end.
Proof.
  intros H1 H2. unfold get_ds_paths. rewrite H1. simpl.
  rewrite (bind_lift _ _ _ _ H2).
  now destruct (List.filter _ _).
Qed.

(** The scan never touches the heap, and what it returns is sorted. *)
Lemma get_ds_paths_ok data_dir w paths w' :
  get_ds_paths env data_dir w = (Ok paths, w') ->
  heap w' = heap w /\ StronglySorted path_le paths.
Proof.
  unfold get_ds_paths. destruct (path_exists env data_dir); simpl.
  - destruct (path_iterdir env data_dir) as [names | e] eqn:E.
    + rewrite (bind_lift _ _ _ _ eq_refl).
      destruct (List.filter _ _) as [| p ps] eqn:F; [easy |].
      intros H. inversion H. subst. split; [easy |].
      rewrite <- F. apply filter_sorted, sorted_sorted.
    + intros H. discriminate.
  - intros H. inversion H. subst. split; [easy | constructor].
Qed.

End Scanner.

(** ** Dictionaries *)

Lemma dict_get_set_eq {V} k (v : V) d : dict_get k (dict_set k v d) = Some v.
Proof.
  induction d as [| [k' v'] d IH]; simpl.
  - now rewrite String.eqb_refl.
  - destruct (String.eqb k k') eqn:E; simpl.
    + now rewrite String.eqb_refl.
    + now rewrite E.
Qed.

Lemma dict_get_set_ne {V} k k' (v : V) d :
  k <> k' -> dict_get k (dict_set k' v d) = dict_get k d.
Proof.
  intros Hne. apply String.eqb_neq in Hne.
  induction d as [| [k0 v0] d IH]; simpl.
  - now rewrite Hne.
  - destruct (String.eqb k' k0) eqn:E; simpl.
    + apply String.eqb_eq in E. subst. now rewrite Hne.
    + destruct (String.eqb k k0); [easy | apply IH].
Qed.

Lemma dict_get_pop_ne {V} k k' (d : dict V) :
  k <> k' -> dict_get k (dict_pop k' d) = dict_get k d.
Proof.
  intros Hne. apply String.eqb_neq in Hne.
  induction d as [| [k0 v0] d IH]; simpl; [easy |].
  destruct (String.eqb k' k0) eqn:E; simpl.
  - apply String.eqb_eq in E. subst. now rewrite Hne.
  - destruct (String.eqb k k0); [easy | apply IH].
Qed.

(** In [{**d1, **d2}] an entry of [d2] wins, and the entries of [d1] that
    [d2] does not name stay. *)
Lemma dict_merge_get {V} k (d1 d2 : dict V) :
  dict_get k (dict_merge d1 d2) =
    match dict_get k (rev d2) with
    | Some v => Some v
    | None => dict_get k d1
    end.
Proof.
  unfold dict_merge. revert d1. induction d2 as [| [k2 v2] d2 IH]; intros d1.
  - reflexivity.
  - simpl fold_left. rewrite IH. simpl rev.
    assert (Happ : forall (a b : dict V),
      dict_get k (a ++ b) = match dict_get k a with
                            | Some v => Some v
                            | None => dict_get k b
                            end).
    { intros a b. induction a as [| [ka va] a IHa]; simpl; [easy |].
      now destruct (String.eqb k ka). }
    rewrite Happ. destruct (dict_get k (rev d2)); [easy |].
    simpl. destruct (String.eqb k k2) eqn:E.
    + apply String.eqb_eq in E. subst. apply dict_get_set_eq.
    + apply String.eqb_neq in E. now apply dict_get_set_ne.
Qed.

(** ** The aggregator *)

Section Aggregator.
Context (env : Env).

Lemma read_info_path p d :
  read_info env p = Ok d -> dict_get "path" d = Some (CPath p).
Proof.
  unfold read_info.
  destruct (json_load env _) as [[] | e]; try discriminate.
  intros H. apply Ok_inj in H. subst d.
  rewrite dict_get_pop_ne by discriminate. apply dict_get_set_eq.
Qed.

Lemma ds_info_append_run r p w :
  ds_info_append env r p w =
    match read_info env p with
    | Raise e => (Raise e, w)
    | Ok d =>
        match heap w !! r with
        | Some f =>
            (Ok (length (heap w)), with_heap (heap w ++ [frame_append f d]) w)
        | None => (Raise (Exn ReferenceError "dangling reference"), w)
        end
    end.
Proof.
  unfold ds_info_append, bind, lift, deref, alloc.
  destruct (read_info env p); [| reflexivity].
  now destruct (heap w !! r).
Qed.

(** The loop of [ds_info] adds one row per path, in order, and keeps the
    log and the older frames. *)
Lemma for_each_append paths : forall r w r' w' f done,
  heap w !! r = Some f ->
  table_inv f ->
  length (rows f) = length done ->
  (done <> [] -> frame_column f "path" = Ok (map CPath done)) ->
  for_each paths (ds_info_append env) r w = (Ok r', w') ->
  exists f',
    heap w' !! r' = Some f' /\ table_inv f'
    /\ length (rows f') = length (done ++ paths)
    /\ (done ++ paths <> [] ->
        frame_column f' "path" = Ok (map CPath (done ++ paths)))
    /\ (exists t, heap w' = heap w ++ t)
    /\ w_log w' = w_log w.
Proof.
  induction paths as [| p paths IH]; intros r w r' w' f done Hr Hinv Hlen Hcol.
  - simpl. intros H. inversion H. subst. exists f. rewrite app_nil_r.
    splits; try easy. exists []. now rewrite app_nil_r.
  - simpl. unfold bind at 1. rewrite ds_info_append_run.
    destruct (read_info env p) as [d | e] eqn:Hd; [| easy].
    rewrite Hr. intros H.
    destruct (IH (length (heap w)) (with_heap (heap w ++ [frame_append f d]) w)
                r' w' (frame_append f d) (done ++ [p])
                (lookup_fresh_world _ _ _) (table_inv_append _ _ Hinv))
      as [f' (H1 & H2 & H3 & H4 & [t H5] & H6)].
    + rewrite rows_append, length_app. simpl. lia.
    + intros _. eapply path_column_append; eauto using read_info_path.
    + exact H.
    + exists f'. rewrite <- app_assoc in H3, H4. simpl in H3, H4.
      splits; try easy.
      exists (frame_append f d :: t). rewrite H5. simpl.
      now rewrite <- app_assoc.
Qed.

(** What a table that [ds_info_table] returns looks like. *)
Lemma ds_info_table_ok data_dir w r w' :
  ds_info_table env data_dir w = (Ok r, w') ->
  exists paths w1 f,
    get_ds_paths env data_dir w = (Ok paths, w1)
    /\ heap w' !! r = Some f
    /\ table_inv f
    /\ (exists rest, columns f = sort_order ++ rest)
    /\ length (rows f) = length paths
    /\ frame_column f "path" = Ok (map CPath paths)
    /\ w_log w' = w_log w1
    /\ (exists t, heap w' = heap w ++ t).
Proof.
  unfold ds_info_table. intros H.
  apply bind_ok_inv in H. destruct H as (paths & w1 & Hp & H).
  rewrite bind_alloc in H.
  apply bind_ok_inv in H. destruct H as (r1 & w2 & Hloop & H).
  destruct (get_ds_paths_ok _ _ _ _ _ Hp) as [Hheap _].
  destruct (for_each_append paths _ _ _ _ frame_empty [] (lookup_fresh_world _ _ _)
              table_inv_empty eq_refl ltac:(easy) Hloop)
    as [f1 (Hf1 & Hinv1 & Hlen1 & Hcol1 & [t Ht] & Hlog)].
  rewrite (bind_deref _ _ _ _ Hf1) in H.
  apply bind_ok_inv in H. destruct H as (names & w3 & Hs & H).
  unfold lift in Hs.
  destruct (sort_colnames (columns f1)) as [names' |] eqn:Hsort; [| easy].
  inversion Hs. subst names' w3. clear Hs.
  apply bind_ok_inv in H. destruct H as (f2 & w4 & Hg & H).
  unfold lift in Hg.
  destruct (frame_getitem f1 names) as [f2' |] eqn:Hget; [| easy].
  inversion Hg. subst f2' w4. clear Hg.
  unfold alloc in H. inversion H. subst r w'. clear H.
  destruct (sort_colnames_ok _ _ Hsort) as (rest & _ & Hnames & _).
  destruct (frame_getitem_spec _ _ _ Hget) as (Hc & Hi & Hl & Hall & Hcols).
  simpl in Hlen1.
  assert (Hne : paths <> []).
  { intros ->. simpl in Hloop. inversion Hloop. subst r1 w2.
    rewrite lookup_fresh_world in Hf1. inversion Hf1. subst f1.
    discriminate Hsort. }
  exists paths, w1, f2. splits.
  - easy.
  - apply lookup_fresh_world.
  - split; [| now rewrite Hc].
    rewrite Hi. destruct Hinv1 as [-> _]. now rewrite Hl.
  - exists rest. now rewrite Hc.
  - now rewrite Hl.
  - rewrite Hcols.
    + now apply Hcol1.
    + rewrite Hnames. apply in_app_iff. left. unfold sort_order. simpl. tauto.
  - simpl. now rewrite Hlog.
  - exists (frame_empty :: t ++ [f2]). simpl. rewrite Ht. simpl.
    rewrite Hheap, <- !app_assoc. reflexivity.
Qed.

Lemma ds_info_unfold ds pretty output data_dir w :
  ds_info env ds pretty output data_dir w =
    bind (ds_info_table env data_dir) (ds_info_output env ds pretty output)
      (if negb pretty && negb output
       then with_log (w_log w ++ [LogWarning warning_nothing]) w
       else w).
Proof. unfold ds_info. now destruct (negb pretty && negb output). Qed.

(** [ds_info(data_dir=..., pretty=False)] is the table. *)
Lemma ds_info_plain data_dir w :
  ds_info env None false true data_dir w =
    match ds_info_table env data_dir w with
    | (Ok r, w') => (Ok (Some r), w')
    | (Raise e, w') => (Raise e, w')
    end.
Proof.
  rewrite ds_info_unfold. simpl. unfold bind.
  now destruct (ds_info_table env data_dir w) as [[r | e] w'].
Qed.

End Aggregator.

(** ** Relations between the world before and after a call *)

(** A relation that holds across every step that only appends to the log or
    replaces the heap holds across every call of the module. *)
Section Preserved.

Context (R : World -> World -> Prop).
Context (R_refl : forall w, R w w).
Context (R_trans : forall w1 w2 w3, R w1 w2 -> R w2 w3 -> R w1 w3).
Context (R_log : forall w l, R w (with_log (w_log w ++ l) w)).
Context (R_heap : forall w h, R w (with_heap h w)).

Lemma preserved_ret {A} (a : A) : preserved R (ret a).
Proof. intros w. apply R_refl. Qed.

Lemma preserved_raise {A} e : preserved R (@raise A e).
Proof. intros w. apply R_refl. Qed.

Lemma preserved_lift {A} (r : Res A) : preserved R (lift r).
Proof. intros w. apply R_refl. Qed.

Lemma preserved_gets {A} (proj : World -> A) : preserved R (gets proj).
Proof. intros w. apply R_refl. Qed.

Lemma preserved_emit e : preserved R (emit e).
Proof. intros w. apply R_log. Qed.

Lemma preserved_alloc f : preserved R (alloc f).
Proof. intros w. apply R_heap. Qed.

Lemma preserved_store r f : preserved R (store r f).
Proof. intros w. apply R_heap. Qed.

Lemma preserved_deref r : preserved R (deref r).
Proof. intros w. unfold deref. destruct (heap w !! r); apply R_refl. Qed.

Lemma preserved_bind {A B} (m : M A) (k : A -> M B) :
  preserved R m -> (forall a, preserved R (k a)) -> preserved R (bind m k).
Proof.
  intros Hm Hk w. unfold bind. specialize (Hm w).
  destruct (m w) as [[a | e] w1]; simpl in *; [| easy].
  eapply R_trans; [exact Hm | apply Hk].
Qed.

Lemma preserved_for_each {A B} (l : list A) (body : B -> A -> M B) acc :
  (forall b a, preserved R (body b a)) -> preserved R (for_each l body acc).
Proof.
  intros Hb. revert acc. induction l as [| x l IH]; intros acc; simpl.
  - apply preserved_ret.
  - apply preserved_bind; auto.
Qed.

Create HintDb preserved.
#[local] Hint Resolve preserved_ret preserved_raise preserved_lift
  preserved_gets preserved_emit preserved_alloc preserved_store
  preserved_deref preserved_bind preserved_for_each : preserved.
#[local] Hint Extern 2 (preserved _ (if ?b then _ else _)) =>
  destruct b : preserved.
#[local] Hint Extern 2 (preserved _ (match ?x with _ => _ end)) =>
  destruct x : preserved.

Context (env : Env).

Lemma preserved_get_ds_paths data_dir : preserved R (get_ds_paths env data_dir).
Proof. unfold get_ds_paths. auto 20 with preserved. Qed.

Lemma preserved_display df : preserved R (display env df).
Proof. unfold display. auto 20 with preserved. Qed.

Lemma preserved_select_ds_id ds df : preserved R (select_ds_id env ds df).
Proof.
  pose proof preserved_display. unfold select_ds_id. auto 30 with preserved.
Qed.

Lemma preserved_ds_info_append r p : preserved R (ds_info_append env r p).
Proof. unfold ds_info_append. auto 20 with preserved. Qed.

Lemma preserved_ds_info_table data_dir : preserved R (ds_info_table env data_dir).
Proof.
  pose proof preserved_get_ds_paths. pose proof preserved_ds_info_append.
  unfold ds_info_table. auto 30 with preserved.
Qed.

Lemma preserved_disp_pretty_df df t i h :
  preserved R (disp_pretty_df env df t i h).
Proof. unfold disp_pretty_df. auto 20 with preserved. Qed.

Lemma preserved_ds_info_output ds pretty output df :
  preserved R (ds_info_output env ds pretty output df).
Proof.
  pose proof preserved_select_ds_id. pose proof preserved_disp_pretty_df.
  unfold ds_info_output. auto 40 with preserved.
Qed.

Lemma preserved_ds_info ds pretty output data_dir :
  preserved R (ds_info env ds pretty output data_dir).
Proof.
  pose proof preserved_ds_info_table. pose proof preserved_ds_info_output.
  unfold ds_info. auto 20 with preserved.
Qed.

Lemma preserved_load_data_select ds data_dir :
  preserved R (load_data_select env ds data_dir).
Proof.
  pose proof preserved_ds_info. pose proof preserved_select_ds_id.
  unfold load_data_select. auto 20 with preserved.
Qed.

Lemma preserved_raise_format_error {A V} title format (readers : dict V) :
  preserved R (@raise_format_error env A V title format readers).
Proof. unfold raise_format_error. auto 20 with preserved. Qed.

Lemma preserved_load_data_dispatch readers df :
  preserved R (load_data_dispatch env readers df).
Proof.
  pose proof (@preserved_raise_format_error AnnData reader).
  unfold load_data_dispatch. auto 40 with preserved.
Qed.

Lemma preserved_load_data ds data_dir extra :
  preserved R (load_data env ds data_dir extra).
Proof.
  pose proof preserved_load_data_select. pose proof preserved_load_data_dispatch.
  unfold load_data. auto 20 with preserved.
Qed.

Lemma preserved_read_dataset dataset extra :
  preserved R (read_dataset env dataset extra).
Proof.
  pose proof (@preserved_raise_format_error AnnData reader_old).
  unfold read_dataset. auto 40 with preserved.
Qed.

End Preserved.

Lemma load_data_same_globals env ds data_dir extra w :
  same_globals w (snd (load_data env ds data_dir extra w)).
Proof.
  apply (preserved_load_data same_globals); unfold same_globals; try easy.
  intros w1 w2 w3 H1 H2. intuition congruence.
Qed.

Lemma read_dataset_same_globals env dataset extra w :
  same_globals w (snd (read_dataset env dataset extra w)).
Proof.
  apply (preserved_read_dataset same_globals); unfold same_globals; try easy.
  intros w1 w2 w3 H1 H2. intuition congruence.
Qed.

Lemma ds_info_same_globals env ds pretty output data_dir w :
  same_globals w (snd (ds_info env ds pretty output data_dir w)).
Proof.
  apply (preserved_ds_info same_globals); unfold same_globals; try easy.
  intros w1 w2 w3 H1 H2. intuition congruence.
Qed.

Lemma log_extends_refl w : log_extends w w.
Proof. exists []. now rewrite app_nil_r. Qed.

Lemma log_extends_trans w1 w2 w3 :
  log_extends w1 w2 -> log_extends w2 w3 -> log_extends w1 w3.
Proof.
  intros [l1 H1] [l2 H2]. exists (l1 ++ l2). now rewrite H2, H1, app_assoc.
Qed.

Lemma ds_info_table_log_extends env data_dir w :
  log_extends w (snd (ds_info_table env data_dir w)).
Proof.
  apply (preserved_ds_info_table log_extends).
  - apply log_extends_refl.
  - apply log_extends_trans.
  - intros w0 l. now exists l.
  - intros w0 h. exists []. simpl. now rewrite app_nil_r.
Qed.

Lemma ds_info_output_log_extends env ds pretty output df w :
  log_extends w (snd (ds_info_output env ds pretty output df w)).
Proof.
  apply (preserved_ds_info_output log_extends).
  - apply log_extends_refl.
  - apply log_extends_trans.
  - intros w0 l. now exists l.
  - intros w0 h. exists []. simpl. now rewrite app_nil_r.
Qed.

(** ** The loader *)

Section Loader.
Context (env : Env).

Lemma has_priority_column f rest c :
  columns f = sort_order ++ rest -> In c sort_order -> has_column c f.
Proof.
  intros Hc Hin. unfold has_column. rewrite Hc. apply str_mem_In.
  apply in_app_iff. now left.
Qed.

(** The frame [load_data] goes on with has one row, under label 0, and all
    priority columns. *)
Lemma load_data_select_ok ds data_dir w r w1 :
  load_data_select env ds data_dir w = (Ok r, w1) ->
  exists f row rest,
    heap w1 !! r = Some f
    /\ index f = [0] /\ rows f = [row]
    /\ columns f = sort_order ++ rest.
Proof.
  unfold load_data_select. destruct (truthy ds) as [s |]; intros H.
  - apply bind_ok_inv in H. destruct H as (o & w0 & Hinfo & H).
    rewrite ds_info_plain in Hinfo.
    destruct (ds_info_table env data_dir w) as [[r0 | e] w0'] eqn:Ht; [| easy].
    inversion Hinfo. subst o w0'. clear Hinfo.
    destruct (ds_info_table_ok _ _ _ _ _ Ht)
      as (paths & w' & f0 & _ & Hf0 & Hinv & [rest Hc] & _).
    rewrite (select_ds_id_run env s r0 f0 w0 Hf0 (table_inv_len _ Hinv)) in H.
    + cbv zeta in H.
      destruct (Nat.eqb (length (matching_rows s f0)) 1) eqn:E.
      * apply Nat.eqb_eq in E. inversion H. subst r w1. clear H.
        destruct (matching_rows s f0) as [| row [| ? ?]] eqn:Hm; try discriminate.
        exists (selection s f0), row, rest. splits.
        -- simpl. rewrite lookup_app_r by lia.
           replace (S (S (length (heap w0))) - length (heap w0)) with 2 by lia.
           reflexivity.
        -- unfold selection. now rewrite Hm.
        -- unfold selection. now rewrite Hm.
        -- exact Hc.
      * destruct (Nat.ltb 1 _); [destruct (builtin_display env) |]; discriminate.
    + eapply has_priority_column; [exact Hc | simpl; tauto].
    + eapply has_priority_column; [exact Hc | simpl; tauto].
  - apply bind_ok_inv in H. destruct H as (o & w0 & Hinfo & H).
    rewrite ds_info_plain in Hinfo.
    destruct (ds_info_table env data_dir w) as [[r0 | e] w0'] eqn:Ht; [| easy].
    inversion Hinfo. subst o w0'. clear Hinfo.
    destruct (ds_info_table_ok _ _ _ _ _ Ht)
      as (paths & w' & f0 & _ & Hf0 & Hinv & [rest Hc] & _).
    rewrite (bind_deref _ _ _ _ Hf0) in H.
    destruct (Nat.eqb (frame_len f0) 1) eqn:E; [| discriminate].
    apply Nat.eqb_eq in E. inversion H. subst r w1. clear H.
    pose proof (table_inv_len _ Hinv) as Hlen. unfold frame_len in E.
    destruct Hinv as [Hi _]. rewrite Hlen, E in Hi.
    destruct (rows f0) as [| row [| ? ?]] eqn:Hr;
      rewrite E in Hlen; try discriminate.
    exists f0, row, rest. easy.
Qed.

Lemma load_data_unfold ds data_dir extra w :
  load_data env ds data_dir extra w =
    match load_data_select env ds data_dir w with
    | (Ok r, w1) => load_data_dispatch env (effective_readers extra w) r w1
    | (Raise e, w1) => (Raise e, w1)
    end.
Proof. reflexivity. Qed.

(** The five reads of [load_data] on such a frame. *)
Lemma frame_loc_priority f row rest c :
  index f = [0] -> rows f = [row] -> columns f = sort_order ++ rest ->
  In c sort_order -> exists v, frame_loc f 0 c = Ok v.
Proof.
  intros Hi Hr Hc Hin. unfold frame_loc. rewrite Hi. simpl.
  destruct (str_index_In c (columns f)) as [j ->]; [| eauto].
  rewrite Hc. apply in_app_iff. now left.
Qed.

Lemma keys_of_numbered {V} (g : nat -> V) cols s :
  dict_keys (map (fun '(j, c) => (c, g j)) (combine (seq s (length cols)) cols))
  = cols.
Proof.
  unfold dict_keys. revert s. induction cols as [| c cols IH]; intros s; simpl.
  - reflexivity.
  - now rewrite IH.
Qed.

Lemma frame_loc_dict_0 f row :
  index f = [0] -> rows f = [row] ->
  exists metadata, frame_loc_dict f 0 = Ok metadata
    /\ dict_keys metadata = columns f.
Proof.
  intros Hi Hr. unfold frame_loc_dict. rewrite Hi. simpl. eexists. split; [easy |].
  apply keys_of_numbered.
Qed.

(** The branch of [load_data] for a format that has a reader. *)
Lemma load_data_dispatch_found readers r w f title ds_id format path file read :
  heap w !! r = Some f ->
  frame_loc f 0 "title" = Ok title ->
  frame_loc f 0 "id" = Ok ds_id ->
  frame_loc f 0 "format" = Ok format ->
  frame_loc f 0 "path" = Ok path ->
  frame_loc f 0 "file" = Ok file ->
  lookup_format format readers = Ok (Some read) ->
  load_data_dispatch env readers r w =
    let w1 := with_log (w_log w ++ [LogInfo (msg_loading env title format path)]) w in
    match payload_path path file with
    | Raise e => (Raise e, w1)
    | Ok payload =>
        match read payload with
        | Raise e => (Raise e, w1)
        | Ok body =>
            match frame_loc_dict f 0 with
            | Raise e => (Raise e, w1)
            | Ok metadata =>
                match dict_key ds_id with
                | Raise e => (Raise e, w1)
                | Ok key =>
                    let adata :=
                      set_obs "fg_id" ds_id
                        (set_uns "ds_metadata" (UnsMetadata [(key, metadata)]) body) in
                    (Ok adata,
                     with_log
                       (w_log w1
                        ++ [LogInfo (msg_loaded env title (n_obs adata) (n_vars adata))])
                       w1)
                end
            end
        end
    end.
Proof.
  intros Hf Ht Hi Hfm Hp Hfi Hl. unfold load_data_dispatch.
  rewrite (bind_deref _ _ _ _ Hf).
  rewrite (bind_lift _ _ _ _ Ht), (bind_lift _ _ _ _ Hi), (bind_lift _ _ _ _ Hfm).
  rewrite (bind_lift _ _ _ _ Hp), (bind_lift _ _ _ _ Hfi), (bind_lift _ _ _ _ Hl).
  rewrite bind_emit. cbv zeta.
  destruct (payload_path path file) as [payload | e]; [| reflexivity].
  rewrite (bind_lift _ _ _ _ eq_refl).
  destruct (read payload) as [body | e]; [| reflexivity].
  rewrite (bind_lift _ _ _ _ eq_refl).
  rewrite (bind_deref _ f) by exact Hf.
  destruct (frame_loc_dict f 0) as [metadata | e]; [| reflexivity].
  rewrite (bind_lift _ _ _ _ eq_refl).
  destruct (dict_key ds_id) as [key | e]; [| reflexivity].
  rewrite (bind_lift _ _ _ _ eq_refl).
  reflexivity.
Qed.

(** The branch of [load_data] for a format that has none. *)
Lemma load_data_dispatch_not_found readers r w f title ds_id format path file :
  heap w !! r = Some f ->
  frame_loc f 0 "title" = Ok title ->
  frame_loc f 0 "id" = Ok ds_id ->
  frame_loc f 0 "format" = Ok format ->
  frame_loc f 0 "path" = Ok path ->
  frame_loc f 0 "file" = Ok file ->
  lookup_format format readers = Ok None ->
  load_data_dispatch env readers r w =
    raise_format_error env title format readers w.
Proof.
  intros Hf Ht Hi Hfm Hp Hfi Hl. unfold load_data_dispatch.
  rewrite (bind_deref _ _ _ _ Hf).
  rewrite (bind_lift _ _ _ _ Ht), (bind_lift _ _ _ _ Hi), (bind_lift _ _ _ _ Hfm).
  rewrite (bind_lift _ _ _ _ Hp), (bind_lift _ _ _ _ Hfi), (bind_lift _ _ _ _ Hl).
  reflexivity.
Qed.

End Loader.

Lemma str_app_assoc a b c : (a +:+ b) +:+ c = a +:+ b +:+ c.
Proof.
  induction a as [| x a IH]; [reflexivity |].
  exact (f_equal (String x) IH).
Qed.

Lemma str_infix_intro pre needle post : str_infix needle (pre +:+ needle +:+ post).
Proof. now exists pre, post. Qed.

Lemma lookup_format_str {V} fmt (readers : dict V) :
  lookup_format (CStr fmt) readers = Ok (dict_get fmt readers).
Proof. reflexivity. Qed.

(** C1 (amended): for a dataset record that [load_data] resolved and whose
    format is a string that is no key of the effective registry,
    [load_data] raises [NotImplementedError] when the format is ["Other"],
    [ValueError] when it is ["Not set"], and otherwise [KeyError] with a
    message that includes the list of the registered format labels. *)
Theorem load_data_format_errors env ds data_dir extra w r w1 f title fmt :
  load_data_select env ds data_dir w = (Ok r, w1) ->
  heap w1 !! r = Some f ->
  frame_loc f 0 "title" = Ok title ->
  frame_loc f 0 "format" = Ok (CStr fmt) ->
  dict_get fmt (effective_readers extra w) = None ->
  let result := fst (load_data env ds data_dir extra w) in
  let keys := dict_keys (effective_readers extra w) in
  (fmt = "Other"%string ->
   result = Raise (Exn NotImplementedError (msg_other env title (CStr fmt))))
  /\ (fmt = "Not set"%string ->
      result = Raise (Exn ValueError (msg_not_set env title)))
  /\ (fmt <> "Other"%string -> fmt <> "Not set"%string ->
      result = Raise (Exn KeyError (msg_unknown env (CStr fmt) keys))
      /\ str_infix (py_repr_keys env keys) (msg_unknown env (CStr fmt) keys)).
Proof.
  intros Hsel Hf Ht Hfmt Hget result keys.
  destruct (load_data_select_ok _ _ _ _ _ _ Hsel) as (f' & row & rest & Hf' & Hi & Hr & Hc).
  rewrite Hf in Hf'. injection Hf' as <-.
  destruct (frame_loc_priority f row rest "id" Hi Hr Hc) as [ds_id Hid]; [simpl; tauto |].
  destruct (frame_loc_priority f row rest "path" Hi Hr Hc) as [path Hpath]; [simpl; tauto |].
  destruct (frame_loc_priority f row rest "file" Hi Hr Hc) as [file Hfile]; [simpl; tauto |].
  assert (Hl : lookup_format (CStr fmt) (effective_readers extra w) = Ok None)
    by (rewrite lookup_format_str; now rewrite Hget).
  assert (Hrun : result = fst (raise_format_error env title (CStr fmt) (effective_readers extra w) w1)).
  { unfold result. rewrite load_data_unfold, Hsel.
    now rewrite (load_data_dispatch_not_found env _ r w1 f title ds_id (CStr fmt)
                   path file Hf Ht Hid Hfmt Hpath Hfile Hl). }
  rewrite Hrun. unfold raise_format_error, CStr, cell_eq_str. splits.
  - intros ->. reflexivity.
  - intros ->. reflexivity.
  - intros H1 H2. apply String.eqb_neq in H1, H2. rewrite H1, H2. split; [reflexivity |].
    unfold msg_unknown.
    match goal with
    | |- str_infix ?n (?a +:+ ?b +:+ ?c +:+ ?n +:+ ?rest) =>
        replace (a +:+ b +:+ c +:+ n +:+ rest) with ((a +:+ b +:+ c) +:+ n +:+ rest)
    end.
    + apply str_infix_intro.
    + now rewrite !str_app_assoc.
Qed.

(** C1 (amended), on a record whose format [BadFormat] no reader is
    registered for. *)
Lemma load_data_format_errors_witness :
  let env := example_env odd_formats false in
  let keys := dict_keys (default_readers example_readers) in
  fst (load_data env (Some "Strange") DATA_DIR None example_world)
  = Raise (Exn KeyError (msg_unknown env (CStr "BadFormat") keys))
  /\ str_infix (py_repr_keys env keys) (msg_unknown env (CStr "BadFormat") keys).
Proof.
  edestruct (load_data_format_errors (example_env odd_formats false)
               (Some "Strange") DATA_DIR None example_world)
    as (_ & _ & H).
  - vm_compute. reflexivity.
  - vm_compute. reflexivity.
  - vm_compute. reflexivity.
  - vm_compute. reflexivity.
  - vm_compute. reflexivity.
  - apply H; discriminate.
Defined.

(** C1, as stated, fails: with a caller's reader under the key ["Other"],
    [load_data] on a record whose format is ["Other"] returns that reader's
    body and raises nothing. *)
Lemma load_data_other_counterexample :
  exists r w1 f adata w2,
    load_data_select (example_env odd_formats false) (Some "o1") DATA_DIR
      example_world = (Ok r, w1)
    /\ heap w1 !! r = Some f
    /\ frame_loc f 0 "format" = Ok (CStr "Other")
    /\ load_data (example_env odd_formats false) (Some "o1") DATA_DIR
         (Some [("Other"%string, custom_reader)]) example_world = (Ok adata, w2)
    /\ n_obs adata = 9.
Proof.
  do 5 eexists. splits; vm_compute; reflexivity.
Qed.

Lemma dict_key_hashable c : hashable c = true -> dict_key c = Ok c.
Proof. now destruct c as [[] | |]. Qed.

(** What [load_data] returns once the record is resolved and its format has
    a reader: the reader's failure, or the reader's body enriched. *)
Lemma load_data_found env ds data_dir extra w r w1 f ds_id fmt dir file metadata read :
  load_data_select env ds data_dir w = (Ok r, w1) ->
  heap w1 !! r = Some f ->
  frame_loc f 0 "id" = Ok ds_id ->
  hashable ds_id = true ->
  frame_loc f 0 "format" = Ok (CStr fmt) ->
  frame_loc f 0 "path" = Ok (CPath dir) ->
  frame_loc f 0 "file" = Ok (CStr file) ->
  frame_loc_dict f 0 = Ok metadata ->
  dict_get fmt (effective_readers extra w) = Some read ->
  fst (load_data env ds data_dir extra w) =
    match read (joinpath dir (parse_path file)) with
    | Raise e => Raise e
    | Ok body => Ok (enrich ds_id metadata body)
    end.
Proof.
  intros Hsel Hf Hid Hhash Hfmt Hpath Hfile Hmeta Hget.
  destruct (load_data_select_ok _ _ _ _ _ _ Hsel) as (f' & row & rest & Hf' & Hi & Hr & Hc).
  rewrite Hf in Hf'. injection Hf' as <-.
  destruct (frame_loc_priority f row rest "title" Hi Hr Hc) as [title Ht]; [simpl; tauto |].
  assert (Hl : lookup_format (CStr fmt) (effective_readers extra w) = Ok (Some read))
    by (rewrite lookup_format_str; now rewrite Hget).
  rewrite load_data_unfold, Hsel.
  rewrite (load_data_dispatch_found env _ r w1 f title ds_id (CStr fmt)
             (CPath dir) (CStr file) read Hf Ht Hid Hfmt Hpath Hfile Hl).
  cbv zeta. unfold payload_path, as_path, CStr.
  destruct (read (joinpath dir (parse_path file))) as [body | e]; [| reflexivity].
  rewrite Hmeta, (dict_key_hashable _ Hhash). reflexivity.
Qed.

(** C2: for a dataset record that [load_data] resolved and whose format is a
    key of the effective registry, [load_data] calls the reader under that
    key on the record's path joined with the record's file: a failure of the
    reader is the failure of [load_data], and a body it returns comes back
    with the full record of the dataset under its ID in the global
    annotations and with a per-row column ["fg_id"] that has one entry per
    row of the body, each the dataset ID. *)
Theorem load_data_invokes_reader env ds data_dir extra w r w1 f ds_id fmt dir file metadata read :
  load_data_select env ds data_dir w = (Ok r, w1) ->
  heap w1 !! r = Some f ->
  frame_loc f 0 "id" = Ok ds_id ->
  hashable ds_id = true ->
  frame_loc f 0 "format" = Ok (CStr fmt) ->
  frame_loc f 0 "path" = Ok (CPath dir) ->
  frame_loc f 0 "file" = Ok (CStr file) ->
  frame_loc_dict f 0 = Ok metadata ->
  dict_get fmt (effective_readers extra w) = Some read ->
  let result := fst (load_data env ds data_dir extra w) in
  let payload := joinpath dir (parse_path file) in
  dict_keys metadata = columns f
  /\ (forall e, read payload = Raise e -> result = Raise e)
  /\ (forall body, read payload = Ok body ->
      exists adata fg_id,
        result = Ok adata
        /\ n_obs adata = n_obs body /\ n_vars adata = n_vars body
        /\ dict_get "ds_metadata" (uns adata) = Some (UnsMetadata [(ds_id, metadata)])
        /\ dict_get "fg_id" (obs adata) = Some fg_id
        /\ length fg_id = n_obs adata
        /\ Forall (eq ds_id) fg_id).
Proof.
  intros Hsel Hf Hid Hhash Hfmt Hpath Hfile Hmeta Hget result payload.
  pose proof (load_data_found _ _ _ _ _ _ _ _ _ _ _ _ _ _
                Hsel Hf Hid Hhash Hfmt Hpath Hfile Hmeta Hget) as Hrun.
  fold result payload in Hrun. splits.
  - destruct (load_data_select_ok _ _ _ _ _ _ Hsel) as (f' & row & rest & Hf' & Hi & Hr & Hc).
    rewrite Hf in Hf'. injection Hf' as <-.
    destruct (frame_loc_dict_0 f row Hi Hr) as (m & Hm & Hk). congruence.
  - intros e He. now rewrite Hrun, He.
  - intros body Hb. rewrite Hb in Hrun.
    exists (enrich ds_id metadata body), (repeat ds_id (n_obs body)).
    unfold enrich, set_obs, set_uns. cbn [uns obs n_obs n_vars].
    splits; try easy.
    + apply dict_get_set_eq.
    + apply dict_get_set_eq.
    + apply repeat_length.
    + apply List.Forall_forall. intros x Hx. now apply repeat_spec in Hx.
Qed.

(** C2, on the second of two datasets, selected by its title. *)
Lemma load_data_invokes_reader_witness :
  exists adata fg_id,
    fst (load_data (example_env two_datasets false) (Some "Second") DATA_DIR None
           example_world) = Ok adata
    /\ n_obs adata = 1 /\ n_vars adata = 1
    /\ (exists metadata,
          dict_get "ds_metadata" (uns adata) = Some (UnsMetadata [(CStr "b2", metadata)])
          /\ dict_get "license" metadata = Some (CStr "MIT"))
    /\ dict_get "fg_id" (obs adata) = Some fg_id
    /\ length fg_id = n_obs adata
    /\ Forall (eq (CStr "b2")) fg_id.
Proof.
  edestruct (load_data_invokes_reader (example_env two_datasets false)
               (Some "Second") DATA_DIR None example_world)
    as (_ & _ & H).
  - vm_compute. reflexivity.
  - vm_compute. reflexivity.
  - vm_compute. reflexivity.
  - reflexivity.
  - vm_compute. reflexivity.
  - vm_compute. reflexivity.
  - vm_compute. reflexivity.
  - vm_compute. reflexivity.
  - vm_compute. reflexivity.
  - destruct (H (example_body 1 1) eq_refl)
      as (adata & fg_id & H1 & H2 & H3 & H4 & H5 & H6 & H7).
    exists adata, fg_id.
    refine (conj H1 (conj _ (conj _ (conj _ (conj H5 (conj H6 H7)))))).
    + rewrite H2. reflexivity.
    + rewrite H3. reflexivity.
    + eexists. split; [exact H4 | reflexivity].
Defined.

Lemma dict_get_app {V} k (a b : dict V) :
  dict_get k (a ++ b) = match dict_get k a with
                        | Some v => Some v
                        | None => dict_get k b
                        end.
Proof.
  induction a as [| [ka va] a IH]; simpl; [easy |].
  now destruct (String.eqb k ka).
Qed.

Lemma dict_get_not_key {V} k (d : dict V) :
  ~ In k (dict_keys d) -> dict_get k d = None.
Proof.
  intros H. destruct (dict_get k d) eqn:E; [| easy].
  now apply dict_get_keys in E.
Qed.

Lemma dict_get_rev {V} k (d : dict V) :
  List.NoDup (dict_keys d) -> dict_get k (rev d) = dict_get k d.
Proof.
  induction d as [| [k' v'] d IH]; intros Hnd; [easy |].
  simpl in Hnd. apply List.NoDup_cons_iff in Hnd. destruct Hnd as [Hk Hnd].
  simpl rev. rewrite dict_get_app, (IH Hnd). simpl.
  destruct (String.eqb k k') eqn:E.
  - apply String.eqb_eq in E. subst. now rewrite (dict_get_not_key _ _ Hk).
  - now destruct (dict_get k d).
Qed.

(** In the registry of a call the caller's entry wins. *)
Lemma dict_merge_override {V} k (d1 d2 : dict V) v :
  List.NoDup (dict_keys d2) -> dict_get k d2 = Some v ->
  dict_get k (dict_merge d1 d2) = Some v.
Proof. intros Hnd H. now rewrite dict_merge_get, (dict_get_rev _ _ Hnd), H. Qed.

(** C7: when a call of [load_data] passes a reader under a key, also the key
    of a default reader, that reader is the one registered for the call and
    the one the call runs on a record of that format; the call leaves both
    default registries and the shared default arguments as they were, so a
    later call without [additional_readers] dispatches with the registry of
    the world before the first call, which is [DEFAULT_READERS] itself as
    long as the shared default argument is the empty dict it is after the
    import. *)
Theorem load_data_override_per_call env ds data_dir extra w k read :
  List.NoDup (dict_keys extra) ->
  dict_get k extra = Some read ->
  let w' := snd (load_data env ds data_dir (Some extra) w) in
  dict_get k (effective_readers (Some extra) w) = Some read
  /\ (forall r w1 f ds_id dir file metadata,
        load_data_select env ds data_dir w = (Ok r, w1) ->
        heap w1 !! r = Some f ->
        frame_loc f 0 "id" = Ok ds_id ->
        hashable ds_id = true ->
        frame_loc f 0 "format" = Ok (CStr k) ->
        frame_loc f 0 "path" = Ok (CPath dir) ->
        frame_loc f 0 "file" = Ok (CStr file) ->
        frame_loc_dict f 0 = Ok metadata ->
        fst (load_data env ds data_dir (Some extra) w) =
          match read (joinpath dir (parse_path file)) with
          | Raise e => Raise e
          | Ok body => Ok (enrich ds_id metadata body)
          end)
  /\ same_globals w w'
  /\ (forall ds2 data_dir2,
        load_data env ds2 data_dir2 None w' =
          match load_data_select env ds2 data_dir2 w' with
          | (Ok r, w1) => load_data_dispatch env (effective_readers None w) r w1
          | (Raise e, w1) => (Raise e, w1)
          end)
  /\ (load_data_defaults w = [] -> effective_readers None w = DEFAULT_READERS w).
Proof.
  intros Hnd Hk w'.
  assert (Hreg : dict_get k (effective_readers (Some extra) w) = Some read)
    by now apply dict_merge_override.
  pose proof (load_data_same_globals env ds data_dir (Some extra) w) as Hg.
  fold w' in Hg. splits.
  - exact Hreg.
  - intros r w1 f ds_id dir file metadata Hsel Hf Hid Hh Hfmt Hp Hfile Hm.
    eapply load_data_found; eassumption.
  - exact Hg.
  - intros ds2 data_dir2. rewrite load_data_unfold.
    destruct Hg as (H1 & _ & H3 & _).
    unfold effective_readers. now rewrite H1, H3.
  - intros H. unfold effective_readers. now rewrite H.
Qed.

(** C7, with a caller's reader for [Loom], and a second call without it. *)
Lemma load_data_override_per_call_witness :
  let env := example_env two_datasets false in
  let first :=
    load_data env (Some "Second") DATA_DIR (Some [("Loom"%string, custom_reader)])
      example_world in
  (exists adata, fst first = Ok adata /\ n_obs adata = 9)
  /\ DEFAULT_READERS (snd first) = default_readers example_readers
  /\ (exists adata,
        fst (load_data env (Some "Second") DATA_DIR None (snd first)) = Ok adata
        /\ n_obs adata = 1).
Proof.
  intros env first.
  destruct (load_data_override_per_call env (Some "Second") DATA_DIR
              [("Loom"%string, custom_reader)] example_world "Loom" custom_reader)
    as (_ & Hrun & Hsame & Hlater & _).
  - repeat constructor. simpl. tauto.
  - reflexivity.
  - splits.
    + eexists. split.
      * eapply Hrun; vm_compute; reflexivity.
      * reflexivity.
    + destruct Hsame as [H _]. exact H.
    + eexists. split.
      * unfold first. rewrite Hlater. vm_compute. reflexivity.
      * reflexivity.
Defined.

(** ** Substrings *)

Lemma prefix_app a b : String.prefix a (a +:+ b) = true.
Proof.
  induction a as [| x a IH]; [now destruct b |].
  change (String x a +:+ b) with (String x (a +:+ b)). simpl.
  now destruct (ascii_dec x x).
Qed.

Lemma str_contains_eq needle hay :
  str_contains needle hay =
    String.prefix needle hay
    || match hay with
       | EmptyString => false
       | String _ rest => str_contains needle rest
       end.
Proof. now destruct hay. Qed.

Lemma str_contains_complete needle hay :
  str_infix needle hay -> str_contains needle hay = true.
Proof.
  intros (pre & post & ->). induction pre as [| x pre IH].
  - change (EmptyString +:+ needle +:+ post) with (needle +:+ post).
    now rewrite str_contains_eq, prefix_app.
  - change (String x pre +:+ needle +:+ post)
      with (String x (pre +:+ needle +:+ post)).
    rewrite str_contains_eq, IH. apply orb_true_r.
Qed.

Section Selector.
Context (env : Env).

(** C3 (amended): on a table that has the columns [id] and [title], an
    identifier that matches no row makes [select_ds_id] raise [KeyError]
    with the message that reports 0 matches, and nothing is displayed; an
    identifier that matches two or more rows, in a session where [display]
    is bound, makes it display the matching rows and raise [KeyError] with
    the message that reports their number. The message never names the
    identifier. *)
Theorem select_ds_id_errors ds df f w :
  heap w !! df = Some f ->
  length (rows f) = length (index f) ->
  has_column "id" f -> has_column "title" f ->
  let n := length (matching_rows ds f) in
  let result := select_ds_id env ds df w in
  (n = 0 ->
   fst result = Raise (Exn KeyError (msg_selection 0))
   /\ w_log (snd result) = w_log w)
  /\ (2 <= n -> builtin_display env = true ->
      fst result = Raise (Exn KeyError (msg_selection n))
      /\ str_infix (str_of_nat n) (msg_selection n)
      /\ w_log (snd result) = w_log w ++ [Display (selection ds f)]).
Proof.
  intros Hdf Hwf Hid Htitle n result. unfold result.
  rewrite (select_ds_id_run env ds df f w Hdf Hwf Hid Htitle). fold n. split.
  - intros ->. simpl. easy.
  - intros Hn Hd.
    assert (E1 : Nat.eqb n 1 = false) by (apply Nat.eqb_neq; lia).
    assert (E2 : Nat.ltb 1 n = true) by (apply Nat.ltb_lt; lia).
    rewrite E1, E2, Hd. simpl. splits; try easy.
    apply (str_infix_intro "Your selection matches ").
Qed.

Lemma select_ds_id_ok_columns ds df f w r w' :
  heap w !! df = Some f ->
  select_ds_id env ds df w = (Ok r, w') ->
  has_column "id" f /\ has_column "title" f.
Proof.
  intros Hdf. unfold select_ds_id. rewrite (bind_deref _ _ _ _ Hdf).
  unfold frame_column.
  destruct (str_index "id" (columns f)) as [i |] eqn:Hi; [| easy].
  rewrite (bind_lift _ _ _ _ eq_refl).
  destruct (str_index "title" (columns f)) as [t |] eqn:Ht; [| easy].
  intros _. split; eapply str_index_mem; eassumption.
Qed.

(** What [select_ds_id] returns when exactly one row matches. *)
Lemma select_ds_id_single ds df f w row :
  heap w !! df = Some f ->
  length (rows f) = length (index f) ->
  has_column "id" f -> has_column "title" f ->
  matching_rows ds f = [row] ->
  let single := {| columns := columns f; index := [0]; rows := [row] |} in
  let masked := frame_mask f (map (row_matches ds f) (rows f)) in
  select_ds_id env ds df w =
    (Ok (S (S (length (heap w)))),
     with_heap (heap w ++ [masked; single; single]) w).
Proof.
  intros Hdf Hwf Hid Htitle Hm single masked.
  rewrite (select_ds_id_run env ds df f w Hdf Hwf Hid Htitle).
  unfold selection. rewrite Hm. reflexivity.
Qed.

Lemma frame_loc_single cols row c :
  frame_loc {| columns := cols; index := [0]; rows := [row] |} 0 c =
    match str_index c cols with
    | Some j => Ok (row_cell row j)
    | None => Raise (Exn KeyError c)
    end.
Proof. reflexivity. Qed.

(** C8: for a dataset of a table whose id matches only its row and whose
    title matches only its row, [select_ds_id] with the id and with the
    title return the same one-row frame, and that frame is a new object: no
    reference of the world before the call stands for it, every older
    object (the table too) is as it was, and an update through the returned
    reference leaves the table unchanged. *)
Theorem select_ds_id_same_row_copy df f w row a t :
  heap w !! df = Some f ->
  length (rows f) = length (index f) ->
  has_column "id" f -> has_column "title" f ->
  frame_cell f row "id" = CStr a ->
  frame_cell f row "title" = CStr t ->
  matching_rows a f = [row] ->
  matching_rows t f = [row] ->
  let by_id := select_ds_id env a df w in
  let by_title := select_ds_id env t df w in
  let single := {| columns := columns f; index := [0]; rows := [row] |} in
  exists r,
    fst by_id = Ok r /\ fst by_title = Ok r
    /\ heap (snd by_id) !! r = Some single
    /\ heap (snd by_title) !! r = Some single
    /\ heap w !! r = None
    /\ r <> df
    /\ (forall r0 f0, heap w !! r0 = Some f0 -> heap (snd by_id) !! r0 = Some f0)
    /\ (forall g, heap (snd (store r g (snd by_id))) !! df = Some f).
Proof.
  intros Hdf Hwf Hid Htitle _ _ Ha Ht by_id by_title single.
  unfold by_id, by_title.
  rewrite (select_ds_id_single a df f w row Hdf Hwf Hid Htitle Ha).
  rewrite (select_ds_id_single t df f w row Hdf Hwf Hid Htitle Ht).
  pose proof (lookup_lt_Some _ _ _ Hdf) as Hlt.
  exists (S (S (length (heap w)))). cbn [fst snd heap with_heap]. splits.
  - reflexivity.
  - reflexivity.
  - rewrite lookup_app_r by lia.
    replace (S (S (length (heap w))) - length (heap w)) with 2 by lia. reflexivity.
  - rewrite lookup_app_r by lia.
    replace (S (S (length (heap w))) - length (heap w)) with 2 by lia. reflexivity.
  - apply lookup_ge_None. lia.
  - lia.
  - intros r0 f0 H0. now apply lookup_old.
  - intros g. unfold store. cbn [snd heap with_heap].
    rewrite list_lookup_insert_ne by lia. now apply lookup_old.
Qed.

(** C9: when [select_ds_id] succeeds, exactly one row of the table matches
    and the returned frame holds that row under index label 0, whatever
    label the row had in the table; so each read [single_df.loc[0, c]],
    for [title], [id], [format], [path] and [file] as for any other column
    of the table, gives the value of that row, and [single_df.loc[0]] is
    the whole row. [load_data] relies on this: called with the identifier
    it goes on with the returned frame, and what it does next is fixed by
    the five values it reads there under label 0, the title and the format
    in its error, and the title, the format, the path, the file and the id
    in the records it logs, the payload it has read and the body it
    returns; on a frame without a label 0 its first read raises
    [KeyError]. *)
Theorem select_ds_id_row_at_label_0 ds df f w r w' :
  heap w !! df = Some f ->
  length (rows f) = length (index f) ->
  select_ds_id env ds df w = (Ok r, w') ->
  exists row g,
    matching_rows ds f = [row]
    /\ heap w' !! r = Some g
    /\ index g = [0] /\ rows g = [row] /\ columns g = columns f
    /\ (forall c, has_column c f -> frame_loc g 0 c = Ok (frame_cell f row c))
    /\ (exists metadata,
          frame_loc_dict g 0 = Ok metadata /\ dict_keys metadata = columns f)
    /\ (forall ds0 data_dir extra w0,
          truthy ds0 = Some ds ->
          ds_info env None false true data_dir w0 = (Ok (Some df), w) ->
          load_data env ds0 data_dir extra w0
          = load_data_dispatch env (effective_readers extra w0) r w')
    /\ (forall readers,
          has_column "format" f -> has_column "path" f -> has_column "file" f ->
          let title := frame_cell f row "title" in
          let ds_id := frame_cell f row "id" in
          let format := frame_cell f row "format" in
          let path := frame_cell f row "path" in
          let file := frame_cell f row "file" in
          (lookup_format format readers = Ok None ->
           load_data_dispatch env readers r w'
           = raise_format_error env title format readers w')
          /\ (forall read payload body metadata,
                lookup_format format readers = Ok (Some read) ->
                payload_path path file = Ok payload ->
                read payload = Ok body ->
                hashable ds_id = true ->
                frame_loc_dict g 0 = Ok metadata ->
                load_data_dispatch env readers r w'
                = (Ok (enrich ds_id metadata body),
                   with_log
                     (w_log w'
                      ++ [LogInfo (msg_loading env title format path);
                          LogInfo
                            (msg_loaded env title (n_obs body) (n_vars body))])
                     w')))
    /\ (forall readers r0 g0,
          heap w' !! r0 = Some g0 ->
          nat_index 0 (index g0) = None ->
          load_data_dispatch env readers r0 w'
          = (Raise (Exn KeyError (str_of_nat 0)), w')).
Proof.
  intros Hdf Hwf Hsel. pose proof Hsel as Hsel0.
  destruct (select_ds_id_ok_columns _ _ _ _ _ _ Hdf Hsel) as [Hid Htitle].
  rewrite (select_ds_id_run env ds df f w Hdf Hwf Hid Htitle) in Hsel.
  cbv zeta in Hsel.
  destruct (Nat.eqb (length (matching_rows ds f)) 1) eqn:E;
    [| destruct (Nat.ltb 1 _); [destruct (builtin_display env) |]; discriminate].
  apply Nat.eqb_eq in E.
  destruct (matching_rows ds f) as [| row [| ? ?]] eqn:Hm; try discriminate.
  injection Hsel as Hr Hw. subst r w'.
  set (w' := with_heap _ w) in *. set (r := S (S (length (heap w)))) in *.
  set (g := {| columns := columns f; index := [0]; rows := [row] |}).
  assert (Hg : heap w' !! r = Some g).
  { unfold r, w'. cbn [heap with_heap]. rewrite lookup_app_r by lia.
    replace (S (S (length (heap w))) - length (heap w)) with 2 by lia.
    unfold selection. rewrite Hm. reflexivity. }
  assert (Hloc : forall c, has_column c f ->
                           frame_loc g 0 c = Ok (frame_cell f row c)).
  { intros c Hc. unfold g. rewrite frame_loc_single. unfold frame_cell.
    destruct (str_mem_index _ _ Hc) as [j ->]. reflexivity. }
  exists row, g.
  split; [reflexivity |]. split; [exact Hg |].
  split; [reflexivity |]. split; [reflexivity |]. split; [reflexivity |].
  split; [exact Hloc |].
  split; [apply (frame_loc_dict_0 g row); reflexivity |].
  split; [| split].
  - intros ds0 data_dir extra w0 Ht Hinfo.
    rewrite load_data_unfold. unfold load_data_select. rewrite Ht.
    rewrite (bind_ok _ _ _ _ _ Hinfo). now rewrite Hsel0.
  - intros readers Hformat Hpath Hfile. cbv zeta. split.
    + intros Hl.
      apply (load_data_dispatch_not_found env readers r w' g _
               (frame_cell f row "id") _ (frame_cell f row "path")
               (frame_cell f row "file")); auto.
    + intros read payload body metadata Hl Hp Hread Hhash Hmeta.
      rewrite (load_data_dispatch_found env readers r w' g _ _ _ _ _ read Hg
                 (Hloc _ Htitle) (Hloc _ Hid) (Hloc _ Hformat) (Hloc _ Hpath)
                 (Hloc _ Hfile) Hl).
      cbv zeta. rewrite Hp, Hread, Hmeta, (dict_key_hashable _ Hhash).
      unfold enrich. cbn [set_obs set_uns n_obs n_vars w_log with_log].
      now rewrite <- app_assoc.
  - intros readers r0 g0 H0 Hn. unfold load_data_dispatch.
    rewrite (bind_deref _ _ _ _ H0). unfold frame_loc. rewrite Hn. reflexivity.
Qed.

(** Why the label matters: on a frame that has no index label 0, which is
    what the mask alone leaves when the matching row is not the first one,
    [load_data_dispatch] raises [KeyError] at its first read. *)
Lemma load_data_dispatch_needs_label_0 readers r g w :
  heap w !! r = Some g ->
  nat_index 0 (index g) = None ->
  load_data_dispatch env readers r w = (Raise (Exn KeyError (str_of_nat 0)), w).
Proof.
  intros Hg H0. unfold load_data_dispatch.
  rewrite (bind_deref _ _ _ _ Hg). unfold frame_loc. rewrite H0. reflexivity.
Qed.

End Selector.

Section Output.
Context (env : Env).

Lemma ds_info_output_none ds pretty df w o w' :
  ds_info_output env ds pretty false df w = (Ok o, w') -> o = None.
Proof.
  unfold ds_info_output. destruct (truthy ds) as [s |]; intros H.
  - apply bind_ok_inv in H. destruct H as (u & w1 & _ & H).
    unfold ret in H. now inversion H.
  - apply bind_ok_inv in H. destruct H as (u & w1 & _ & H).
    unfold ret in H. now inversion H.
Qed.

(** With [pretty] and [output] both false [ds_info] warns, builds the table
    and returns [None]. *)
Lemma ds_info_silent ds data_dir w :
  ds_info env ds false false data_dir w =
    match ds_info_table env data_dir
            (with_log (w_log w ++ [LogWarning warning_nothing]) w) with
    | (Ok _, w') => (Ok None, w')
    | (Raise e, w') => (Raise e, w')
    end.
Proof.
  rewrite ds_info_unfold. simpl. unfold bind.
  destruct (ds_info_table env data_dir _) as [[r | e] w']; [| reflexivity].
  unfold ds_info_output. now destruct (truthy ds).
Qed.

(** C10: with [output] false [ds_info] never returns a table, whatever
    [pretty] is: what a call returns is [None]. When [pretty] is false as
    well, the first thing the call logs is the warning that it will do and
    return nothing, and it returns [None] exactly when the table of the
    datasets can be built (an error of the scan, of a sidecar file or of the
    column sort is raised instead). *)
Theorem ds_info_no_output ds pretty data_dir w :
  (forall r, fst (ds_info env ds pretty false data_dir w) <> Ok (Some r))
  /\ (forall o, fst (ds_info env ds pretty false data_dir w) = Ok o -> o = None)
  /\ (exists later,
        w_log (snd (ds_info env ds false false data_dir w))
        = w_log w ++ LogWarning warning_nothing :: later)
  /\ fst (ds_info env ds false false data_dir w) =
       match fst (ds_info_table env data_dir
                    (with_log (w_log w ++ [LogWarning warning_nothing]) w)) with
       | Ok _ => Ok None
       | Raise e => Raise e
       end.
Proof.
  assert (Hnone : forall o,
            fst (ds_info env ds pretty false data_dir w) = Ok o -> o = None).
  { intros o H.
    destruct (ds_info env ds pretty false data_dir w) as [res w'] eqn:E.
    simpl in H. subst res. rewrite ds_info_unfold in E.
    apply bind_ok_inv in E. destruct E as (df & w1 & _ & E).
    now apply ds_info_output_none in E. }
  splits.
  - intros r H. apply Hnone in H. discriminate.
  - exact Hnone.
  - rewrite ds_info_silent.
    pose proof (ds_info_table_log_extends env data_dir
                  (with_log (w_log w ++ [LogWarning warning_nothing]) w)) as [l Hl].
    destruct (ds_info_table env data_dir _) as [[r | e] w']; simpl in *;
      exists l; now rewrite Hl, <- app_assoc.
  - rewrite ds_info_silent.
    now destruct (ds_info_table env data_dir _) as [[r | e] w'].
Qed.

(** On a root that does not exist [ds_info] logs the scanner's warning and
    then fails in the column sort, whatever its other arguments. *)
Lemma ds_info_missing_root ds pretty output data_dir w :
  path_exists env data_dir = false ->
  exists w',
    ds_info env ds pretty output data_dir w
    = (Raise (Exn ValueError "list.remove(x): x not in list"), w')
    /\ In (LogWarning "There are no datasets attached to this analysis.") (w_log w').
Proof.
  intros H. rewrite ds_info_unfold. unfold ds_info_table.
  set (w0 := if negb pretty && negb output then _ else w).
  unfold bind at 1. unfold bind at 1.
  rewrite (get_ds_paths_missing env data_dir w0 H).
  rewrite bind_alloc. simpl for_each.
  unfold ret at 1. unfold bind at 1.
  rewrite (bind_deref _ frame_empty) by apply lookup_fresh_world.
  eexists. split; [reflexivity |].
  simpl. apply in_app_iff. right. now left.
Qed.

End Output.

(** ** The column order, when every priority column is there *)

Lemma sort_order_nodup : List.NoDup sort_order.
Proof.
  unfold sort_order.
  repeat (apply List.NoDup_cons; [simpl; intuition discriminate |]).
  apply List.NoDup_nil.
Qed.

(** The priority columns come first, in the order of the list, then the
    other columns in the order they had; no column is lost or repeated. *)
Lemma sort_colnames_priority_first col_names :
  List.NoDup col_names ->
  (forall c, In c sort_order -> In c col_names) ->
  sort_colnames col_names
  = Ok (sort_order
        ++ List.filter (fun c => negb (str_mem c sort_order)) col_names)
  /\ Permutation col_names
       (sort_order
        ++ List.filter (fun c => negb (str_mem c sort_order)) col_names).
Proof.
  intros Hnd Hall.
  destruct (remove_each_all sort_order col_names sort_order_nodup Hall) as [rest Hrest].
  pose proof (remove_each_filter _ _ _ Hnd Hrest) as Hf.
  assert (Hs : sort_colnames col_names = Ok (sort_order ++ rest)).
  { unfold sort_colnames. rewrite Hrest. f_equal. f_equal.
    apply forallb_filter_id. apply forallb_forall. intros c Hc.
    apply str_mem_In. now apply Hall. }
  rewrite <- Hf. split; [exact Hs |].
  now destruct (sort_colnames_ok _ _ Hs) as (rest' & _ & _ & P).
Qed.

(** A priority column that is missing makes the column sort raise. *)
Lemma sort_colnames_raises col_names c :
  In c sort_order -> ~ In c col_names ->
  sort_colnames col_names = Raise (Exn ValueError "list.remove(x): x not in list").
Proof.
  intros Hc Hn. destruct (sort_colnames col_names) as [names | e] eqn:E.
  - destruct (sort_colnames_ok _ _ E) as (rest & _ & -> & P).
    exfalso. apply Hn. eapply Permutation_in; [symmetry; exact P |].
    apply in_app_iff. now left.
  - unfold sort_colnames in E.
    destruct (remove_each sort_order col_names) as [rest |] eqn:R; [easy |].
    apply remove_each_raise in R. congruence.
Qed.

Section Listing.
Context (env : Env).

(** The scan of a root that exists and can be listed: it fails when no
    entry is a directory with a dataset name, and otherwise returns those
    directories sorted, each once. *)
Lemma get_ds_paths_scan data_dir names w :
  path_exists env data_dir = true ->
  path_iterdir env data_dir = Ok names ->
  (dataset_dirs env data_dir names = [] ->
   get_ds_paths env data_dir w
   = (Raise (Exn AssertionError "There is no data available in this analysis."), w))
  /\ (dataset_dirs env data_dir names <> [] ->
      exists paths,
        get_ds_paths env data_dir w = (Ok paths, w)
        /\ Permutation paths (dataset_dirs env data_dir names)
        /\ StronglySorted path_le paths).
Proof.
  intros He Hl. rewrite (get_ds_paths_listing env data_dir names w He Hl).
  set (keep := fun subdir : Path =>
                 path_is_dir env subdir && re_match_dataset (path_name subdir)).
  assert (P : Permutation (List.filter keep (sorted (map (path_child data_dir) names)))
                (dataset_dirs env data_dir names))
    by apply filter_perm, sorted_perm.
  assert (S : StronglySorted path_le
                (List.filter keep (sorted (map (path_child data_dir) names))))
    by apply filter_sorted, sorted_sorted.
  destruct (List.filter keep (sorted (map (path_child data_dir) names)))
    as [| p ps] eqn:F.
  - split; [easy |]. intros Hne. apply Permutation_nil in P. congruence.
  - split.
    + intros Hd. rewrite Hd in P. symmetry in P. now apply Permutation_nil in P.
    + intros _. exists (p :: ps). easy.
Qed.

(** Without an identifier and with [output] true, [ds_info] returns the
    table itself, which displaying did not change. *)
Lemma ds_info_output_table pretty df f w o w' :
  heap w !! df = Some f ->
  ds_info_output env None pretty true df w = (Ok o, w') ->
  o = Some df /\ heap w' !! df = Some f.
Proof.
  intros Hdf. unfold ds_info_output. simpl truthy. cbv iota.
  destruct pretty.
  - pose proof (lookup_lt_Some _ _ _ Hdf) as Hlt.
    intros H. apply bind_ok_inv in H. destruct H as (u & w1 & Hp & H).
    unfold ret in H. inversion H. subst o w'. clear H. split; [reflexivity |].
    rewrite (bind_deref _ _ _ _ Hdf), bind_alloc in Hp.
    rewrite (bind_deref _ _ _ _ (lookup_fresh_world _ _ _)) in Hp.
    apply bind_ok_inv in Hp. destruct Hp as (urls & w2 & Hu & Hp).
    unfold lift in Hu. inversion Hu. subst w2. clear Hu.
    apply bind_ok_inv in Hp. destruct Hp as (f1 & w2 & Hu & Hp).
    unfold lift in Hu. inversion Hu. subst w2. clear Hu.
    unfold store at 1 in Hp. unfold bind at 1 in Hp.
    apply bind_ok_inv in Hp. destruct Hp as (f2 & w2 & Hu & Hp).
    unfold lift in Hu. inversion Hu. subst w2. clear Hu.
    rewrite bind_alloc in Hp.
    unfold disp_pretty_df in Hp.
    destruct (ipython env).
    + apply bind_ok_inv in Hp. destruct Hp as (f3 & w3 & Hd & Hp).
      apply deref_ok_inv in Hd. destruct Hd as [_ ->].
      unfold emit in Hp. inversion Hp. subst w1. cbn [heap with_heap with_log].
      apply lookup_old. rewrite list_lookup_insert_ne by lia. now apply lookup_old.
    + unfold emit in Hp. inversion Hp. subst w1. cbn [heap with_heap with_log].
      apply lookup_old. rewrite list_lookup_insert_ne by lia. now apply lookup_old.
  - intros H. unfold bind, ret in H. inversion H. now subst.
Qed.

(** When [ds_info], called without an identifier, returns a table, the
    table has one row per directory of the scan, in the order of the scan,
    and the row's [path] is that directory. *)
Lemma ds_info_rows pretty data_dir w o w' :
  ds_info env None pretty true data_dir w = (Ok o, w') ->
  exists r f paths w1,
    o = Some r
    /\ get_ds_paths env data_dir w = (Ok paths, w1)
    /\ heap w' !! r = Some f
    /\ frame_len f = length paths
    /\ length (rows f) = length paths
    /\ frame_column f "path" = Ok (map CPath paths).
Proof.
  rewrite ds_info_unfold.
  replace (negb pretty && negb true) with false by now destruct pretty.
  intros H. apply bind_ok_inv in H. destruct H as (r & w0 & Ht & H).
  destruct (ds_info_table_ok env _ _ _ _ Ht)
    as (paths & w1 & f & Hp & Hf & Hinv & _ & Hlen & Hcol & _).
  destruct (ds_info_output_table _ _ _ _ _ _ Hf H) as [-> Hkeep].
  exists r, f, paths, w1. splits; try easy.
  unfold frame_len. now rewrite <- (table_inv_len _ Hinv).
Qed.

(** The scan and the rows together: for a root that exists and can be
    listed, the scan raises [AssertionError] when no entry is a directory
    whose name matches the pattern; otherwise it returns exactly those
    directories, sorted by path, and whenever [ds_info], called without an
    identifier, then returns a table, the table has one row per returned
    directory, in that order, each with [path] set to its directory. *)
Theorem get_ds_paths_and_rows data_dir names w :
  path_exists env data_dir = true ->
  path_iterdir env data_dir = Ok names ->
  (dataset_dirs env data_dir names = [] ->
   get_ds_paths env data_dir w
   = (Raise (Exn AssertionError "There is no data available in this analysis."), w))
  /\ (dataset_dirs env data_dir names <> [] ->
      exists paths,
        get_ds_paths env data_dir w = (Ok paths, w)
        /\ Permutation paths (dataset_dirs env data_dir names)
        /\ StronglySorted path_le paths
        /\ forall pretty o w',
             ds_info env None pretty true data_dir w = (Ok o, w') ->
             exists r f,
               o = Some r /\ heap w' !! r = Some f
               /\ frame_len f = length paths
               /\ length (rows f) = length paths
               /\ frame_column f "path" = Ok (map CPath paths)).
Proof.
  intros He Hl. destruct (get_ds_paths_scan data_dir names w He Hl) as [H0 H1].
  split; [exact H0 |]. intros Hne.
  destruct (H1 Hne) as (paths & Hp & Hperm & Hs).
  exists paths. splits; try easy.
  intros pretty o w' H.
  destruct (ds_info_rows _ _ _ _ _ H) as (r & f & paths' & w1 & Ho & Hp' & Hf & Hn & Hlen & Hcol).
  rewrite Hp in Hp'. injection Hp' as <- <-.
  exists r, f. easy.
Qed.

End Listing.

(** C3 (amended), on a table in which two rows have the title [Demo]. *)
Lemma select_ds_id_errors_witness :
  let env := example_env no_datasets true in
  fst (select_ds_id env "Demo" 0 table_world)
  = Raise (Exn KeyError
             "Your selection matches 2 datasets. Please make sure to select exactly one.")
  /\ w_log (snd (select_ds_id env "Demo" 0 table_world))
     = [Display {| columns := ["id"; "title"];
                   index := [0; 1];
                   rows := [ [CStr "a1"; CStr "Demo"]; [CStr "b2"; CStr "Demo"] ] |}].
Proof.
  destruct (select_ds_id_errors (example_env no_datasets true) "Demo" 0
              small_table table_world)
    as (_ & H); try reflexivity.
  destruct H as (H1 & _ & H2).
  - vm_compute. lia.
  - reflexivity.
  - split; [exact H1 | exact H2].
Defined.

(** C3, as stated, fails: the error for an identifier that matches no row
    does not name the identifier. *)
Lemma select_ds_id_not_found_counterexample :
  matching_rows "zzz" small_table = []
  /\ exists msg,
       fst (select_ds_id (example_env no_datasets true) "zzz" 0 table_world)
       = Raise (Exn KeyError msg)
       /\ ~ str_infix "zzz" msg.
Proof.
  split; [reflexivity |]. eexists. split; [vm_compute; reflexivity |].
  intros H. apply str_contains_complete in H. vm_compute in H. discriminate.
Qed.

(** C8, on the third row of a table, selected by its id [c3] and by its
    title [Third]. *)
Lemma select_ds_id_same_row_copy_witness :
  let env := example_env no_datasets false in
  exists r,
    fst (select_ds_id env "c3" 0 table_world) = Ok r
    /\ fst (select_ds_id env "Third" 0 table_world) = Ok r
    /\ heap (snd (select_ds_id env "c3" 0 table_world)) !! r
       = Some {| columns := ["id"; "title"]; index := [0];
                 rows := [[CStr "c3"; CStr "Third"]] |}
    /\ r <> 0
    /\ heap (snd (store r frame_empty (snd (select_ds_id env "c3" 0 table_world))))
         !! 0 = Some small_table.
Proof.
  destruct (select_ds_id_same_row_copy (example_env no_datasets false) 0
              small_table table_world [CStr "c3"; CStr "Third"] "c3" "Third")
    as (r & H1 & H2 & H3 & _ & _ & H6 & _ & H8); try reflexivity.
  exists r. exact (conj H1 (conj H2 (conj H3 (conj H6 (H8 frame_empty))))).
Defined.

(** C9, on the second of two datasets: [load_data] with the id [b2] goes
    on with the frame that [select_ds_id] returns, reads the row of that
    dataset there under label 0 and returns the body with that id; the
    mask alone leaves the row under label 1, and on that frame the reads of
    [load_data] raise [KeyError]. *)
Lemma select_ds_id_row_at_label_0_witness :
  let env := example_env two_datasets false in
  let readers := effective_readers None example_world in
  exists df w r w' masked adata,
    ds_info env None false true DATA_DIR example_world = (Ok (Some df), w)
    /\ select_ds_id env "b2" df w = (Ok r, w')
    /\ load_data env (Some "b2") DATA_DIR None example_world
       = load_data_dispatch env readers r w'
    /\ fst (load_data env (Some "b2") DATA_DIR None example_world) = Ok adata
    /\ dict_get "fg_id" (obs adata) = Some [CStr "b2"]
    /\ heap w' !! (r - 2) = Some masked
    /\ index masked = [1]
    /\ fst (load_data_dispatch env readers (r - 2) w')
       = Raise (Exn KeyError "0").
Proof.
  cbv zeta.
  destruct (ds_info (example_env two_datasets false) None false true DATA_DIR
              example_world) as [[[df |] | e] w] eqn:Ei;
    try (vm_compute in Ei; discriminate).
  pose proof Ei as Ei'. vm_compute in Ei'. injection Ei' as Hdf Hw. subst df w.
  match type of Ei with
  | _ = (Ok (Some ?df), ?w) =>
      destruct (select_ds_id (example_env two_datasets false) "b2" df w)
        as [[r | e] w'] eqn:Es; [| vm_compute in Es; discriminate]
  end.
  pose proof Es as Es'. vm_compute in Es'. injection Es' as Hr Hw'. subst r w'.
  edestruct (select_ds_id_row_at_label_0 (example_env two_datasets false) "b2")
    as (row & g & Hm & Hg & _ & _ & _ & _ & _ & Hload & Hdisp & Hno);
    [| | exact Es |]; [reflexivity | reflexivity |].
  vm_compute in Hm. injection Hm as <-.
  vm_compute in Hg. injection Hg as <-.
  specialize (Hload (Some "b2"%string) DATA_DIR None example_world eq_refl Ei).
  destruct (Hdisp (effective_readers None example_world) eq_refl eq_refl eq_refl)
    as [_ Hfound].
  specialize (Hfound (read_loom_to_anndata example_readers) _ (example_body 1 1) _
                eq_refl eq_refl eq_refl eq_refl eq_refl).
  do 4 eexists. eexists. eexists.
  split; [exact Ei |]. split; [exact Es |]. split; [exact Hload |].
  split; [rewrite Hload, Hfound; reflexivity |].
  split; [reflexivity |].
  split; [reflexivity |]. split; [reflexivity |].
  exact (f_equal fst (Hno (effective_readers None example_world) 4 _ eq_refl eq_refl)).
Defined.

(** C10, with two datasets attached, for one dataset and for the table. *)
Lemma ds_info_no_output_witness :
  let env := example_env two_datasets true in
  fst (ds_info env (Some "a1") true false DATA_DIR example_world) = Ok None
  /\ fst (ds_info env None false false DATA_DIR example_world) = Ok None
  /\ exists later,
       w_log (snd (ds_info env None false false DATA_DIR example_world))
       = LogWarning warning_nothing :: later.
Proof.
  cbv zeta. splits.
  - destruct (fst (ds_info (example_env two_datasets true) (Some "a1") true false
                     DATA_DIR example_world)) as [o | e] eqn:E.
    + now rewrite (proj1 (proj2 (ds_info_no_output (example_env two_datasets true)
                                   (Some "a1") true DATA_DIR example_world)) o E).
    + vm_compute in E. discriminate.
  - rewrite (proj2 (proj2 (proj2 (ds_info_no_output (example_env two_datasets true)
                                    None false DATA_DIR example_world)))).
    vm_compute. reflexivity.
  - exact (proj1 (proj2 (proj2 (ds_info_no_output (example_env two_datasets true)
                                  None false DATA_DIR example_world)))).
Defined.

(** C4, the failing input: the data directory does not exist; [ds_info]
    logs the warning and then raises [ValueError]. *)
Lemma ds_info_missing_root_example :
  let env := example_env (Dir []) false in
  path_exists env DATA_DIR = false
  /\ ds_info env None true true DATA_DIR example_world
     = (Raise (Exn ValueError "list.remove(x): x not in list"),
        with_heap [frame_empty]
          (with_log [LogWarning "There are no datasets attached to this analysis."]
             example_world)).
Proof. split; reflexivity. Qed.

(** The scan and the rows on a data directory with two dataset directories
    whose sidecar files have every priority field, a directory of another
    name and a name with too few digits. *)
Lemma get_ds_paths_and_rows_witness :
  let env := example_env two_datasets false in
  let d1 := ["/"; "fastgenomics"; "data"; "dataset_0001"]%string in
  let d2 := ["/"; "fastgenomics"; "data"; "dataset_0002"]%string in
  fst (get_ds_paths env DATA_DIR example_world) = Ok [d1; d2]
  /\ exists r f,
       fst (ds_info env None false true DATA_DIR example_world) = Ok (Some r)
       /\ heap (snd (ds_info env None false true DATA_DIR example_world)) !! r
          = Some f
       /\ length (rows f) = 2
       /\ frame_column f "path" = Ok [CPath d1; CPath d2].
Proof.
  cbv zeta.
  destruct (get_ds_paths_and_rows (example_env two_datasets false) DATA_DIR
              ["dataset_0002"; "notes"; "dataset_0001"; "dataset_12"]%string
              example_world eq_refl eq_refl) as [_ H].
  destruct H as (paths & Hp & _ & _ & Hrows); [vm_compute; discriminate |].
  vm_compute in Hp. injection Hp as <-.
  split; [vm_compute; reflexivity |].
  edestruct (Hrows false) as (r & f & Ho & Hf & _ & Hl & Hc);
    [vm_compute; reflexivity |].
  injection Ho as <-.
  eexists. exists f. splits.
  - vm_compute. reflexivity.
  - exact Hf.
  - exact Hl.
  - exact Hc.
Defined.

(** A directory with a dataset name and no sidecar file makes [ds_info]
    raise what [open] raises. *)
Lemma ds_info_no_sidecar_example :
  let env := example_env (data_tree [("dataset_0001"%string, Dir [])]) false in
  path_exists env DATA_DIR = true
  /\ dataset_dirs env DATA_DIR ["dataset_0001"%string]
     = [["/"; "fastgenomics"; "data"; "dataset_0001"]%string]
  /\ fst (ds_info env None false true DATA_DIR example_world)
     = Raise (Exn OSError "No such file or directory").
Proof. cbv zeta. splits; vm_compute; reflexivity. Qed.

(** C6, the failing inputs: the columns of a table without records, and the
    columns of a table whose records have no [organism]. *)
Lemma sort_colnames_missing_example :
  sort_colnames [] = Raise (Exn ValueError "list.remove(x): x not in list")
  /\ sort_colnames ["id"; "title"; "format"; "file"; "path"]
     = Raise (Exn ValueError "list.remove(x): x not in list").
Proof. split; reflexivity. Qed.

(** * Further properties *)

(** ** The scanner, in full *)

Section ScannerEffects.
Context (env : Env).

(** X2: [get_ds_paths] changes nothing but the log, and the log only by
    the one warning for a root that does not exist, for which it returns
    the empty list; an error of listing the root is raised as it is; the
    empty list is returned for no root that exists; and every path
    returned is a child of the root, a directory, with a dataset name. *)
Theorem get_ds_paths_effects data_dir w :
  let result := get_ds_paths env data_dir w in
  heap (snd result) = heap w
  /\ same_globals w (snd result)
  /\ (path_exists env data_dir = true -> snd result = w)
  /\ (path_exists env data_dir = false ->
      result
      = (Ok [],
         with_log
           (w_log w ++ [LogWarning "There are no datasets attached to this analysis."])
           w))
  /\ (forall e,
        path_exists env data_dir = true ->
        path_iterdir env data_dir = Raise e -> fst result = Raise e)
  /\ (forall paths,
        fst result = Ok paths ->
        (paths = [] <-> path_exists env data_dir = false)
        /\ Forall (fun p =>
                     (exists name, p = path_child data_dir name)
                     /\ path_is_dir env p = true
                     /\ re_match_dataset (path_name p) = true) paths).
Proof.
  cbv zeta. unfold get_ds_paths.
  destruct (path_exists env data_dir) eqn:Hex; cbn [negb].
  - destruct (path_iterdir env data_dir) as [names | e0] eqn:Hit.
    + rewrite (bind_lift _ _ _ _ eq_refl).
      remember (List.filter _ _) as paths eqn:Hpaths.
      assert (Hall : Forall (fun p =>
                (exists name, p = path_child data_dir name)
                /\ path_is_dir env p = true
                /\ re_match_dataset (path_name p) = true) paths).
      { rewrite Hpaths. apply List.Forall_forall. intros p Hp. apply filter_In in Hp.
        destruct Hp as [Hp Hk]. apply andb_true_iff in Hk.
        split; [| exact Hk].
        apply (Permutation_in _ (sorted_perm _)) in Hp.
        apply in_map_iff in Hp. destruct Hp as (name & <- & _). eauto. }
      clear Hpaths. destruct paths as [| p ps]; cbn [raise ret fst snd].
      * splits; try easy.
      * splits; try easy. intros paths' [= <-]. split; [| exact Hall].
        split; discriminate.
    + cbn [bind lift fst snd]. splits; try easy.
      intros e _ [= <-]. reflexivity.
  - rewrite bind_emit. cbn [ret fst snd heap with_log]. splits; try easy.
    intros paths [= <-]. split; [easy | constructor].
Qed.

End ScannerEffects.

(** ** The column sort, in full *)

(** X3: the column sort of [ds_info] goes through exactly when each of the
    nine priority names is a column, and raises [ValueError] otherwise; when
    it goes through no column is lost or added, the nine priority names come
    first in their fixed order, and the other columns, when no name is there
    twice, follow in the order they had. *)
Theorem sort_colnames_iff col_names :
  ((exists sorted', sort_colnames col_names = Ok sorted')
   <-> (forall c, In c sort_order -> In c col_names))
  /\ (forall e, sort_colnames col_names = Raise e ->
        e = Exn ValueError "list.remove(x): x not in list")
  /\ (forall sorted',
        sort_colnames col_names = Ok sorted' ->
        Permutation col_names sorted'
        /\ exists rest,
             sorted' = sort_order ++ rest
             /\ (List.NoDup col_names ->
                 rest = List.filter (fun c => negb (str_mem c sort_order)) col_names)).
Proof.
  splits.
  - split.
    + intros [s Hs] c Hc.
      destruct (sort_colnames_ok _ _ Hs) as (rest & _ & -> & P).
      apply (Permutation_in _ (Permutation_sym P)). apply in_app_iff. now left.
    + intros Hall. unfold sort_colnames.
      destruct (remove_each_all sort_order col_names sort_order_nodup Hall)
        as [l' ->].
      eauto.
  - unfold sort_colnames. intros e.
    destruct (remove_each sort_order col_names) as [l' |] eqn:E; [easy |].
    intros [= <-]. now apply remove_each_raise in E.
  - intros s Hs. destruct (sort_colnames_ok _ _ Hs) as (rest & Hr & -> & P).
    split; [exact P |]. exists rest. split; [reflexivity |].
    intros Hnd. now apply remove_each_filter.
Qed.

(** ** Sidecar files *)

Lemma dict_set_keys {V} k (v : V) d k' :
  In k' (dict_keys (dict_set k v d)) <-> k' = k \/ In k' (dict_keys d).
Proof.
  induction d as [| [k0 v0] d IH]; simpl.
  - intuition.
  - destruct (String.eqb k k0) eqn:E; simpl.
    + apply String.eqb_eq in E. subst. intuition.
    + rewrite IH. intuition.
Qed.

Lemma dict_set_nodup {V} k (v : V) d :
  List.NoDup (dict_keys d) -> List.NoDup (dict_keys (dict_set k v d)).
Proof.
  induction d as [| [k0 v0] d IH]; simpl; intros H.
  - repeat constructor. easy.
  - apply NoDup_cons_iff in H. destruct H as [Hn H].
    destruct (String.eqb k k0) eqn:E; simpl.
    + apply String.eqb_eq in E. subst. now constructor.
    + apply String.eqb_neq in E. constructor; [| now apply IH].
      change (~ In k0 (dict_keys (dict_set k v d))). rewrite dict_set_keys.
      intros [-> | ?]; easy.
Qed.

Lemma dict_merge_nodup {V} (d1 d2 : dict V) :
  List.NoDup (dict_keys d1) -> List.NoDup (dict_keys (dict_merge d1 d2)).
Proof.
  unfold dict_merge. revert d1. induction d2 as [| [k v] d2 IH]; intros d1 H.
  - exact H.
  - simpl. apply IH. now apply dict_set_nodup.
Qed.

Lemma dict_pop_keys {V} k (d : dict V) k' :
  In k' (dict_keys (dict_pop k d)) -> In k' (dict_keys d).
Proof.
  induction d as [| [k0 v0] d IH]; simpl; [easy |].
  destruct (String.eqb k k0); simpl; intuition.
Qed.

Lemma dict_pop_nodup {V} k (d : dict V) :
  List.NoDup (dict_keys d) -> List.NoDup (dict_keys (dict_pop k d)).
Proof.
  induction d as [| [k0 v0] d IH]; simpl; intros H; [constructor |].
  apply NoDup_cons_iff in H. destruct H as [Hn H].
  destruct (String.eqb k k0); simpl; [easy |].
  constructor; [| now apply IH].
  intros Hin. apply Hn. eapply dict_pop_keys, Hin.
Qed.

Lemma dict_get_pop_eq {V} k (d : dict V) :
  List.NoDup (dict_keys d) -> dict_get k (dict_pop k d) = None.
Proof.
  induction d as [| [k0 v0] d IH]; simpl; intros H; [easy |].
  apply NoDup_cons_iff in H. destruct H as [Hn H].
  destruct (String.eqb k k0) eqn:E; simpl.
  - apply String.eqb_eq in E. subst. now apply dict_get_not_key.
  - rewrite E. now apply IH.
Qed.

Lemma dict_keys_map {V W} (g : V -> W) (d : dict V) :
  dict_keys (map (fun '(k, v) => (k, g v)) d) = dict_keys d.
Proof.
  unfold dict_keys. rewrite map_map. apply map_ext. now intros [k v].
Qed.

Lemma dict_get_map {V W} (g : V -> W) k (d : dict V) :
  dict_get k (map (fun '(k, v) => (k, g v)) d) = option_map g (dict_get k d).
Proof.
  induction d as [| [k0 v0] d IH]; simpl; [easy |].
  now destruct (String.eqb k k0).
Qed.

Lemma dict_get_none_keys {V} k (d : dict V) :
  dict_get k d = None -> ~ In k (dict_keys d).
Proof.
  induction d as [| [k0 v0] d IH]; simpl; [easy |].
  destruct (String.eqb k k0) eqn:E; [easy |].
  apply String.eqb_neq in E. intros H [-> | Hin]; [easy | now apply IH].
Qed.

Section Sidecar.
Context (env : Env).

(** X4: what [ds_info] makes of one sidecar file. An error of opening or
    decoding it is raised as it is, and a document that is no object raises
    [TypeError]. An object becomes a record with one entry per member name,
    the last member of a name giving the value, except that ["path"] is the
    dataset directory, whatever the file says, and that there is no
    ["schemaVersion"]. *)
Theorem read_info_fields ds_path :
  let sidecar := json_load env (ds_path ++ ["dataset_info.json"%string]) in
  (forall e, sidecar = Raise e -> read_info env ds_path = Raise e)
  /\ (forall j,
        sidecar = Ok j -> (forall members, j <> JObj members) ->
        exists msg, read_info env ds_path = Raise (Exn TypeError msg))
  /\ (forall members,
        sidecar = Ok (JObj members) ->
        exists d,
          read_info env ds_path = Ok d
          /\ List.NoDup (dict_keys d)
          /\ dict_get "path" d = Some (CPath ds_path)
          /\ dict_get "schemaVersion" d = None
          /\ forall k,
               k <> "path"%string -> k <> "schemaVersion"%string ->
               dict_get k d = option_map CJson (dict_get k (rev members))).
Proof.
  cbv zeta. unfold read_info.
  change (joinpath ds_path (parse_path "dataset_info.json"))
    with (ds_path ++ ["dataset_info.json"%string]).
  destruct (json_load env _) as [j | e]; splits; try easy.
  - intros j' [= <-] Hno. destruct j; eauto. now destruct (Hno members).
  - intros members [= ->]. eexists. split; [reflexivity |].
    set (d0 := map _ (dict_of_pairs members)).
    assert (Hnd : List.NoDup (dict_keys (dict_set "path" (CPath ds_path) d0))).
    { apply dict_set_nodup. unfold d0. rewrite dict_keys_map.
      apply dict_merge_nodup. constructor. }
    splits.
    + now apply dict_pop_nodup.
    + rewrite dict_get_pop_ne by discriminate. apply dict_get_set_eq.
    + now apply dict_get_pop_eq.
    + intros k H1 H2. rewrite dict_get_pop_ne by congruence.
      rewrite dict_get_set_ne by congruence. unfold d0.
      rewrite dict_get_map. f_equal. unfold dict_of_pairs.
      rewrite dict_merge_get. now destruct (dict_get k (rev members)).
  - intros e0 [= <-]. reflexivity.
Qed.

Lemma read_info_nodup p d : read_info env p = Ok d -> List.NoDup (dict_keys d).
Proof.
  unfold read_info.
  destruct (json_load env _) as [[] | e]; try discriminate.
  intros H. apply Ok_inj in H. subst d.
  apply dict_pop_nodup, dict_set_nodup. rewrite dict_keys_map.
  apply dict_merge_nodup. constructor.
Qed.

Lemma read_info_no_schema p d :
  read_info env p = Ok d -> ~ In "schemaVersion"%string (dict_keys d).
Proof.
  unfold read_info.
  destruct (json_load env _) as [[] | e]; try discriminate.
  intros H. apply Ok_inj in H. subst d.
  apply dict_get_none_keys, dict_get_pop_eq, dict_set_nodup.
  rewrite dict_keys_map. apply dict_merge_nodup. constructor.
Qed.

End Sidecar.

(** ** The table and the sidecar files *)

Lemma str_index_none c l : str_index c l = None <-> ~ In c l.
Proof.
  split.
  - intros H Hin. destruct (str_index_In _ _ Hin) as [j Hj]. congruence.
  - intros H. destruct (str_index c l) as [j |] eqn:E; [| easy].
    destruct H. apply str_mem_In. eapply str_index_mem, E.
Qed.

Lemma str_index_app_r c l l' :
  str_index c l = None ->
  str_index c (l ++ l') = option_map (Nat.add (length l)) (str_index c l').
Proof.
  induction l as [| x l IH]; simpl.
  - intros _. now destruct (str_index c l').
  - destruct (String.eqb c x); [easy |].
    destruct (str_index c l); [easy |]. intros _. rewrite IH by easy.
    now destruct (str_index c l').
Qed.

Lemma row_cell_pad r n j :
  length r <= j -> row_cell (r ++ repeat CNaN n) j = CNaN.
Proof.
  intros H. unfold row_cell. rewrite app_nth2 by lia. apply nth_repeat.
Qed.

Lemma map_same {A B C} (x : C) (g : A -> C) (h : B -> C) (l : list A) (k : list B) :
  length l = length k ->
  (forall a, In a l -> g a = x) -> (forall b, In b k -> h b = x) ->
  map g l = map h k.
Proof.
  revert k. induction l as [| a l IH]; intros [| b k]; simpl; try easy.
  intros [= Hlen] Hg Hh. rewrite (Hg a), (Hh b) by auto. f_equal. auto.
Qed.

Lemma holds_records_empty : holds_records frame_empty [].
Proof.
  unfold holds_records.
  split; [apply table_inv_empty |]. split; [reflexivity |].
  split; [constructor |]. split; [| easy].
  intros c. simpl. split; [easy |]. now intros (d & [] & _).
Qed.

(** One more record: the table after [append]. *)
Lemma holds_records_append f infos d :
  holds_records f infos -> List.NoDup (dict_keys d) ->
  holds_records (frame_append f d) (infos ++ [d]).
Proof.
  intros (Hinv & Hlen & Hnd & Hcols & Hvals) Hd.
  set (new_cols := List.filter (fun k => negb (str_mem k (columns f))) (dict_keys d)).
  assert (Hnew : forall c, In c new_cols <-> In c (dict_keys d) /\ ~ In c (columns f)).
  { intros c. unfold new_cols. rewrite filter_In.
    split; intros [H1 H2]; (split; [exact H1 |]).
    - intros Hin. apply str_mem_In in Hin. now rewrite Hin in H2.
    - destruct (str_mem c (columns f)) eqn:E; [| reflexivity].
      now apply str_mem_In in E. }
  unfold holds_records. splits.
  - now apply table_inv_append.
  - rewrite rows_append, length_app. simpl. lia.
  - cbn [frame_append columns]. fold new_cols. apply List.NoDup_app.
    + exact Hnd.
    + now apply List.NoDup_filter.
    + intros c Hc Hc'. now apply Hnew in Hc'.
  - intros c. cbn [frame_append columns]. fold new_cols.
    rewrite in_app_iff, Hnew. split.
    + intros [Hin | [Hk _]].
      * apply Hcols in Hin. destruct Hin as (d' & Hd' & Hk).
        exists d'. split; [apply in_app_iff; now left | easy].
      * exists d. split; [apply in_app_iff; right; now left | easy].
    + intros (d' & Hd' & Hk). apply in_app_iff in Hd'.
      destruct Hd' as [Hd' | [<- | []]]; [left; apply Hcols; eauto |].
      destruct (in_dec string_dec c (columns f)) as [Hin | Hout].
      * now left.
      * right. split; assumption.
  - intros c Hc. cbn [frame_append columns] in Hc. fold new_cols in Hc.
    destruct (str_index_In _ _ Hc) as [j Hj].
    destruct Hinv as [_ Hr]. rewrite List.Forall_forall in Hr.
    unfold frame_column. cbn [frame_append columns rows]. fold new_cols.
    set (cols := columns f ++ new_cols) in *. rewrite Hj. f_equal.
    rewrite (map_app _ _ [_]), map_map, (map_app (cell_of c)). cbn [map]. f_equal.
    + destruct (str_index c (columns f)) as [j0 |] eqn:Hj0.
      * assert (Hin : In c (columns f))
          by (apply str_mem_In; eapply str_index_mem, Hj0).
        specialize (Hvals c Hin). unfold frame_column in Hvals.
        rewrite Hj0 in Hvals. apply Ok_inj in Hvals. rewrite <- Hvals.
        unfold cols in Hj.
        rewrite (str_index_app_l _ _ new_cols _ Hj0) in Hj. injection Hj as <-.
        apply map_ext_in. intros r Hrin. apply row_cell_app.
        rewrite (Hr r Hrin). now apply str_index_lt in Hj0.
      * unfold cols in Hj. rewrite (str_index_app_r _ _ _ Hj0) in Hj.
        destruct (str_index c new_cols) as [k |]; [| easy].
        injection Hj as <-. apply (map_same CNaN); [exact Hlen | |].
        -- intros r Hrin. apply row_cell_pad. rewrite (Hr r Hrin). lia.
        -- intros d' Hd'. unfold cell_of. rewrite dict_get_not_key; [easy |].
           intros Hk. apply str_index_none in Hj0. apply Hj0, Hcols. eauto.
    + f_equal. rewrite (row_cell_map _ _ EmptyString) by now apply str_index_lt in Hj.
      now rewrite (str_index_nth _ _ _ Hj).
Qed.

(** The columns in another order: the table after [df[names]]. *)
Lemma holds_records_getitem f infos names f' :
  holds_records f infos -> Permutation (columns f) names ->
  frame_getitem f names = Ok f' ->
  holds_records f' infos.
Proof.
  intros (Hinv & Hlen & Hnd & Hcols & Hvals) P Hget.
  destruct (frame_getitem_spec _ _ _ Hget) as (Hc & Hi & Hl & Hall & Hsame).
  unfold holds_records. rewrite Hc. splits.
  - split; [| now rewrite Hc].
    rewrite Hi, Hl. now destruct Hinv.
  - now rewrite Hl.
  - eapply Permutation_NoDup; eassumption.
  - intros c. rewrite <- Hcols. split; apply Permutation_in; [now symmetry | easy].
  - intros c Hin. rewrite (Hsame c Hin). apply Hvals.
    eapply Permutation_in; [symmetry; exact P | exact Hin].
Qed.

Section Records.
Context (env : Env).

(** The loop of [ds_info] reads every sidecar file, in order, and the
    table holds what it read. *)
Lemma for_each_holds paths : forall r w r' w' f infos,
  heap w !! r = Some f ->
  holds_records f infos ->
  for_each paths (ds_info_append env) r w = (Ok r', w') ->
  exists f' more,
    map_res (read_info env) paths = Ok more
    /\ heap w' !! r' = Some f'
    /\ holds_records f' (infos ++ more).
Proof.
  induction paths as [| p paths IH]; intros r w r' w' f infos Hr Hinv.
  - simpl. intros H. inversion H. subst. exists f, []. rewrite app_nil_r. easy.
  - simpl. unfold bind at 1. rewrite ds_info_append_run.
    destruct (read_info env p) as [d | e] eqn:Hd; [| easy].
    rewrite Hr. intros H.
    destruct (IH (length (heap w)) (with_heap (heap w ++ [frame_append f d]) w)
                r' w' (frame_append f d) (infos ++ [d])
                (lookup_fresh_world _ _ _)
                (holds_records_append _ _ _ Hinv (read_info_nodup env _ _ Hd)) H)
      as (f' & more & Hm & Hf' & Hh).
    exists f', (d :: more). rewrite Hm. rewrite <- app_assoc in Hh. easy.
Qed.

Lemma map_res_length {A B} (g : A -> Res B) l l' :
  map_res g l = Ok l' -> length l' = length l.
Proof.
  revert l'. induction l as [| x l IH]; simpl; intros l'.
  - now intros [= <-].
  - destruct (g x); [| easy]. destruct (map_res g l) as [ys |]; [| easy].
    intros [= <-]. simpl. f_equal. now apply IH.
Qed.

Lemma map_res_In {A B} (g : A -> Res B) l l' y :
  map_res g l = Ok l' -> In y l' -> exists x, In x l /\ g x = Ok y.
Proof.
  revert l'. induction l as [| x l IH]; simpl; intros l'.
  - now intros [= <-].
  - destruct (g x) as [y0 |] eqn:E; [| easy].
    destruct (map_res g l) as [ys |]; [| easy].
    intros [= <-] [<- | Hin]; [eauto |].
    destruct (IH ys eq_refl Hin) as (x' & ? & ?). eauto.
Qed.

(** The table that [ds_info_table] returns, and the sidecar files. *)
Lemma ds_info_table_records data_dir w r w' :
  ds_info_table env data_dir w = (Ok r, w') ->
  exists paths w1 infos f rest,
    get_ds_paths env data_dir w = (Ok paths, w1)
    /\ map_res (read_info env) paths = Ok infos
    /\ heap w' !! r = Some f
    /\ holds_records f infos
    /\ index f = seq 0 (length paths)
    /\ columns f = sort_order ++ rest
    /\ ~ In "schemaVersion"%string (columns f).
Proof.
  unfold ds_info_table. intros H.
  apply bind_ok_inv in H. destruct H as (paths & w1 & Hp & H).
  rewrite bind_alloc in H.
  apply bind_ok_inv in H. destruct H as (r1 & w2 & Hloop & H).
  destruct (for_each_holds paths _ _ _ _ frame_empty [] (lookup_fresh_world _ _ _)
              holds_records_empty Hloop) as (f1 & infos & Hm & Hf1 & Hh1).
  simpl in Hh1.
  rewrite (bind_deref _ _ _ _ Hf1) in H.
  apply bind_ok_inv in H. destruct H as (names & w3 & Hs & H).
  unfold lift in Hs.
  destruct (sort_colnames (columns f1)) as [names' |] eqn:Hsort; [| easy].
  inversion Hs. subst names' w3. clear Hs.
  apply bind_ok_inv in H. destruct H as (f2 & w4 & Hg & H).
  unfold lift in Hg.
  destruct (frame_getitem f1 names) as [f2' |] eqn:Hget; [| easy].
  inversion Hg. subst f2' w4. clear Hg.
  unfold alloc in H. inversion H. subst r w'. clear H.
  destruct (sort_colnames_ok _ _ Hsort) as (rest & _ & Hnames & P).
  pose proof (holds_records_getitem _ _ _ _ Hh1 P Hget) as Hh2.
  destruct (frame_getitem_spec _ _ _ Hget) as (Hc & _).
  exists paths, w1, infos, f2, rest. splits; try easy.
  - apply lookup_fresh_world.
  - destruct Hh2 as ([-> _] & -> & _). now rewrite (map_res_length _ _ _ Hm).
  - now rewrite Hc.
  - destruct Hh2 as (_ & _ & _ & Hcols & _). rewrite Hcols.
    intros (d & Hd & Hk).
    destruct (map_res_In _ _ _ _ Hm Hd) as (p & _ & Hp').
    now apply (read_info_no_schema env p d).
Qed.

(** X5: the table that [ds_info] builds holds what the sidecar files say.
    When the table comes back, every sidecar file of the scanned directories
    was read, in the order of the scan; the table has one row per file,
    numbered from 0, and one value per column in every row; its columns are
    the field names of the files, each once, the nine priority names first
    and never ["schemaVersion"]; and a column holds, row by row, the value
    the file of that row gives the field, NaN where it gives none. A number
    stands for its value, whatever the dtype pandas keeps the column in. *)
Theorem ds_info_table_cells data_dir w r w' :
  ds_info_table env data_dir w = (Ok r, w') ->
  exists paths w1 infos f rest,
    get_ds_paths env data_dir w = (Ok paths, w1)
    /\ map_res (read_info env) paths = Ok infos
    /\ heap w' !! r = Some f
    /\ index f = seq 0 (length paths)
    /\ length (rows f) = length paths
    /\ Forall (fun row => length row = length (columns f)) (rows f)
    /\ columns f = sort_order ++ rest
    /\ List.NoDup (columns f)
    /\ ~ In "schemaVersion"%string (columns f)
    /\ (forall c, In c (columns f) <-> exists d, In d infos /\ In c (dict_keys d))
    /\ (forall c, In c (columns f) ->
          frame_column f c = Ok (map (cell_of c) infos)).
Proof.
  intros H.
  destruct (ds_info_table_records _ _ _ _ H)
    as (paths & w1 & infos & f & rest & Hp & Hm & Hf & Hh & Hi & Hc & Hs).
  destruct Hh as ([_ Hrows] & Hlen & Hnd & Hcols & Hvals).
  exists paths, w1, infos, f, rest. splits; try easy.
  now rewrite Hlen, (map_res_length _ _ _ Hm).
Qed.

(** The loop of [ds_info] goes through when every sidecar file can be
    read. *)
Lemma for_each_runs paths : forall r w f infos more,
  heap w !! r = Some f ->
  holds_records f infos ->
  map_res (read_info env) paths = Ok more ->
  exists r' w' f',
    for_each paths (ds_info_append env) r w = (Ok r', w')
    /\ heap w' !! r' = Some f'
    /\ holds_records f' (infos ++ more).
Proof.
  induction paths as [| p paths IH]; intros r w f infos more Hr Hinv; simpl.
  - intros [= <-]. exists r, w, f. rewrite app_nil_r. easy.
  - destruct (read_info env p) as [d |] eqn:Hd; [| easy].
    destruct (map_res (read_info env) paths) as [ys |] eqn:Hm; [| easy].
    intros [= <-]. unfold bind at 1. rewrite ds_info_append_run, Hd, Hr.
    destruct (IH (length (heap w)) (with_heap (heap w ++ [frame_append f d]) w)
                (frame_append f d) (infos ++ [d]) ys
                (lookup_fresh_world _ _ _)
                (holds_records_append _ _ _ Hinv (read_info_nodup env _ _ Hd))
                eq_refl)
      as (r' & w' & f' & Hrun & Hf' & Hh).
    exists r', w', f'. rewrite <- app_assoc in Hh. easy.
Qed.

(** The slip of line 93, in general: when the sidecar files of the scanned
    directories can all be read and a priority field is in none of them,
    which is so for every root that does not exist, the table is not
    built: the column sort raises [ValueError]. *)
Lemma ds_info_table_without_priority_field data_dir w paths w1 infos c :
  get_ds_paths env data_dir w = (Ok paths, w1) ->
  map_res (read_info env) paths = Ok infos ->
  In c sort_order ->
  (forall d, In d infos -> ~ In c (dict_keys d)) ->
  fst (ds_info_table env data_dir w)
  = Raise (Exn ValueError "list.remove(x): x not in list").
Proof.
  intros Hp Hm Hc Hno. unfold ds_info_table.
  rewrite (bind_ok _ _ _ _ _ Hp), bind_alloc.
  destruct (for_each_runs paths (length (heap w1))
              (with_heap (heap w1 ++ [frame_empty]) w1) frame_empty [] infos
              (lookup_fresh_world _ _ _) holds_records_empty Hm)
    as (r' & w' & f' & Hrun & Hf' & Hh).
  rewrite (bind_ok _ _ _ _ _ Hrun), (bind_deref _ _ _ _ Hf').
  rewrite (sort_colnames_raises (columns f') c Hc); [reflexivity |].
  destruct Hh as (_ & _ & _ & Hcols & _). intros Hin.
  apply Hcols in Hin. destruct Hin as (d & Hd & Hk). exact (Hno d Hd Hk).
Qed.

Lemma get_ds_paths_fst data_dir w w0 :
  fst (get_ds_paths env data_dir w) = fst (get_ds_paths env data_dir w0).
Proof.
  unfold get_ds_paths. destruct (path_exists env data_dir); cbn [negb].
  - unfold bind, lift. destruct (path_iterdir env data_dir); [| reflexivity].
    now destruct (List.filter _ _).
  - reflexivity.
Qed.

Lemma ds_info_without_priority_field ds pretty output data_dir w paths infos c :
  fst (get_ds_paths env data_dir w) = Ok paths ->
  map_res (read_info env) paths = Ok infos ->
  In c sort_order ->
  (forall d, In d infos -> ~ In c (dict_keys d)) ->
  fst (ds_info env ds pretty output data_dir w)
  = Raise (Exn ValueError "list.remove(x): x not in list").
Proof.
  intros Hp Hm Hc Hno. rewrite ds_info_unfold.
  set (w0 := if negb pretty && negb output then _ else w).
  rewrite (get_ds_paths_fst data_dir w w0) in Hp.
  destruct (get_ds_paths env data_dir w0) as [res w1] eqn:E.
  cbn [fst] in Hp. subst res.
  pose proof (ds_info_table_without_priority_field _ _ _ _ _ _ E Hm Hc Hno) as Ht.
  unfold bind. destruct (ds_info_table env data_dir w0) as [[r | e] w2];
    [discriminate |].
  cbn [fst] in *. injection Ht as ->. reflexivity.
Qed.

Lemma load_data_without_priority_field ds data_dir extra w paths infos c :
  fst (get_ds_paths env data_dir w) = Ok paths ->
  map_res (read_info env) paths = Ok infos ->
  In c sort_order ->
  (forall d, In d infos -> ~ In c (dict_keys d)) ->
  fst (load_data env ds data_dir extra w)
  = Raise (Exn ValueError "list.remove(x): x not in list").
Proof.
  intros Hp Hm Hc Hno. rewrite load_data_unfold. unfold load_data_select.
  pose proof (ds_info_without_priority_field None false true _ _ _ _ _
                Hp Hm Hc Hno) as Hinfo.
  destruct (truthy ds); unfold bind;
    destruct (ds_info env None false true data_dir w) as [[o | e] w1];
    try discriminate; cbn [fst] in *; injection Hinfo as ->; reflexivity.
Qed.

End Records.

(** ** Pretty printing and the value returned *)

Section Pretty.
Context (env : Env).

(** The display of one dataset works on a copy: the table is as it was. *)
Lemma ds_info_output_single s ds df f w o w' :
  truthy ds = Some s ->
  heap w !! df = Some f ->
  length (rows f) = length (index f) ->
  ds_info_output env ds true true df w = (Ok o, w') ->
  exists r r0 w0,
    o = Some r
    /\ heap w' !! r = Some (selection s f)
    /\ select_ds_id env s df w = (Ok r0, w0)
    /\ heap w0 !! r0 = Some (selection s f).
Proof.
  intros Ht Hdf Hwf. unfold ds_info_output. rewrite Ht.
  pose proof (lookup_lt_Some _ _ _ Hdf) as Hlt.
  intros H. apply bind_ok_inv in H. destruct H as (u & wa & Hp & H).
  apply bind_ok_inv in Hp. destruct Hp as (p & wb & Hsel & Hp).
  destruct (select_ds_id_ok_columns env _ _ _ _ _ _ Hdf Hsel) as [Hid Htitle].
  pose proof Hsel as Hrun.
  rewrite (select_ds_id_run env s df f w Hdf Hwf Hid Htitle) in Hrun.
  cbv zeta in Hrun.
  destruct (Nat.eqb (length (matching_rows s f)) 1) eqn:E;
    [| destruct (Nat.ltb 1 _); [destruct (builtin_display env) |]; discriminate].
  inversion Hrun. subst p wb. clear Hrun.
  set (masked := frame_mask f (map (row_matches s f) (rows f))) in *.
  set (sel := selection s f) in *.
  assert (Hp0 : heap (with_heap (heap w ++ [masked; sel; sel]) w)
                  !! S (S (length (heap w))) = Some sel).
  { cbn [heap with_heap]. rewrite lookup_app_r by lia.
    replace (S (S (length (heap w))) - length (heap w)) with 2 by lia.
    reflexivity. }
  assert (Hwa : heap wa !! df = Some f).
  { rewrite (bind_deref _ _ _ _ Hp0) in Hp.
    apply bind_ok_inv in Hp. destruct Hp as (urls & w2 & Hu & Hp).
    unfold lift in Hu. inversion Hu. subst w2. clear Hu.
    apply bind_ok_inv in Hp. destruct Hp as (url & w2 & Hu & Hp).
    assert (w2 = with_heap (heap w ++ [masked; sel; sel]) w) as ->.
    { destruct urls as [| ? [| ? ?]]; inversion Hu; reflexivity. }
    clear Hu.
    apply bind_ok_inv in Hp. destruct Hp as (f1 & w2 & Hu & Hp).
    unfold lift in Hu. inversion Hu. subst w2. clear Hu.
    unfold store at 1 in Hp. unfold bind at 1 in Hp.
    unfold disp_pretty_df in Hp.
    destruct (ipython env).
    - apply bind_ok_inv in Hp. destruct Hp as (f3 & w3 & Hd & Hp).
      apply deref_ok_inv in Hd. destruct Hd as [_ ->].
      unfold emit in Hp. inversion Hp. subst wa. cbn [heap with_heap with_log].
      rewrite list_lookup_insert_ne by lia. now apply lookup_old.
    - unfold emit in Hp. inversion Hp. subst wa. cbn [heap with_heap with_log].
      rewrite list_lookup_insert_ne by lia. now apply lookup_old. }
  apply bind_ok_inv in H. destruct H as (r & wc & Hsel2 & H).
  unfold ret in H. inversion H. subst o w'. clear H.
  rewrite (select_ds_id_run env s df f wa Hwa Hwf Hid Htitle) in Hsel2.
  cbv zeta in Hsel2. rewrite E in Hsel2. inversion Hsel2. subst r wc.
  exists (S (S (length (heap wa)))), (S (S (length (heap w)))),
    (with_heap (heap w ++ [masked; sel; sel]) w).
  splits; try easy.
  cbn [heap with_heap]. rewrite lookup_app_r by lia.
  replace (S (S (length (heap wa))) - length (heap wa)) with 2 by lia.
  reflexivity.
Qed.

(** X6: pretty printing does not change what [ds_info] returns. When a
    call with [pretty] and [output] returns, the call without [pretty] on
    the same world returns as well, and the frames the two calls return
    hold the same columns, labels and values; so the links that the display
    puts into the titles are not in the frame that comes back. *)
Theorem ds_info_pretty_same_result ds data_dir w o w1 :
  ds_info env ds true true data_dir w = (Ok o, w1) ->
  exists r r' w2 f,
    o = Some r
    /\ ds_info env ds false true data_dir w = (Ok (Some r'), w2)
    /\ heap w1 !! r = Some f
    /\ heap w2 !! r' = Some f.
Proof.
  rewrite !ds_info_unfold. cbn [negb andb].
  intros H. apply bind_ok_inv in H. destruct H as (df & w0 & Ht & H).
  rewrite (bind_ok _ _ _ _ _ Ht).
  destruct (ds_info_table_ok env _ _ _ _ Ht)
    as (paths & wp & f & _ & Hf & Hinv & _).
  destruct (truthy ds) as [s |] eqn:Hs.
  - destruct (ds_info_output_single s ds df f w0 o w1 Hs Hf (table_inv_len _ Hinv) H)
      as (r & r0 & w2 & -> & Hr & Hsel & Hr0).
    exists r, r0, w2, (selection s f). splits; try easy.
    unfold ds_info_output. rewrite Hs. cbn [bind ret].
    rewrite (bind_ok _ _ _ _ _ Hsel). reflexivity.
  - assert (Hnone : ds_info_output env ds true true df w0
                    = ds_info_output env None true true df w0).
    { unfold ds_info_output. now rewrite Hs. }
    rewrite Hnone in H.
    destruct (ds_info_output_table env _ _ _ _ _ _ Hf H) as [-> Hkeep].
    exists df, df, w0, f. splits; try easy.
    unfold ds_info_output. rewrite Hs. reflexivity.
Qed.

End Pretty.

(** ** Objects that a call leaves alone *)

Lemma keeps_weaken n {A} (P Q : A -> Prop) (m : M A) :
  keeps n P m -> (forall a, P a -> Q a) -> keeps n Q m.
Proof.
  intros H HPQ w Hn. destruct (H w Hn) as (H1 & H2 & H3). splits; auto.
Qed.

Lemma keeps_ret n {A} (P : A -> Prop) a : P a -> keeps n P (ret a).
Proof. intros H w Hn. simpl. splits; try easy. now intros a' [= <-]. Qed.

Lemma keeps_raise n {A} (P : A -> Prop) e : keeps n P (raise e).
Proof. intros w Hn. simpl. splits; easy. Qed.

Lemma keeps_lift n {A} (r : Res A) : keeps n any (lift r).
Proof. intros w Hn. simpl. splits; easy. Qed.

Lemma keeps_gets n {A} (proj : World -> A) : keeps n any (gets proj).
Proof. intros w Hn. simpl. splits; easy. Qed.

Lemma keeps_emit n e : keeps n any (emit e).
Proof. intros w Hn. simpl. splits; easy. Qed.

Lemma keeps_deref n r : keeps n any (deref r).
Proof. intros w Hn. unfold deref. destruct (heap w !! r); simpl; splits; easy. Qed.

Lemma keeps_alloc n f : keeps n (fresh n) (alloc f).
Proof.
  intros w Hn. unfold alloc, fresh. cbn [fst snd heap with_heap]. splits.
  - rewrite length_app. lia.
  - intros r Hr. apply lookup_app_l. lia.
  - now intros a [= <-].
Qed.

Lemma keeps_store n r f : fresh n r -> keeps n any (store r f).
Proof.
  unfold fresh. intros Hr w Hn. unfold store. cbn [fst snd heap with_heap]. splits.
  - now rewrite length_insert.
  - intros r0 Hr0. apply list_lookup_insert_ne. lia.
  - easy.
Qed.

Lemma keeps_bind n {A B} (P : A -> Prop) (Q : B -> Prop) (m : M A) (k : A -> M B) :
  keeps n P m -> (forall a, P a -> keeps n Q (k a)) -> keeps n Q (bind m k).
Proof.
  intros Hm Hk w Hn. destruct (Hm w Hn) as (H1 & H2 & H3). unfold bind.
  destruct (m w) as [[a | e] w1]; cbn [fst snd] in *.
  - destruct (Hk a (H3 a eq_refl) w1 H1) as (K1 & K2 & K3). splits; try easy.
    intros r Hr. now rewrite K2, H2.
  - splits; easy.
Qed.

Lemma keeps_for_each n {A B} (P : B -> Prop) (l : list A) (body : B -> A -> M B) :
  (forall b a, P b -> keeps n P (body b a)) ->
  forall acc, P acc -> keeps n P (for_each l body acc).
Proof.
  intros Hb. induction l as [| x l IH]; intros acc Hacc; simpl.
  - now apply keeps_ret.
  - eapply keeps_bind; [now apply Hb | exact IH].
Qed.

Lemma keeps_any n {A} (P : A -> Prop) (m : M A) : keeps n P m -> keeps n any m.
Proof. intros H. eapply keeps_weaken; [exact H | easy]. Qed.

Lemma keeps_alloc_any n f : keeps n any (alloc f).
Proof. eapply keeps_any, keeps_alloc. Qed.

(** One step of a call: the first computation of a [bind], a branch, or
    the last computation. *)
Ltac keeps_leaf :=
  first [ apply keeps_raise | apply keeps_alloc | apply keeps_alloc_any
        | apply keeps_lift | apply keeps_gets | apply keeps_emit
        | apply keeps_deref
        | apply keeps_store; assumption
        | apply keeps_ret; first [exact I | assumption | idtac] ].

Ltac keeps_step :=
  match goal with
  | |- keeps _ _ (bind (alloc _) _) =>
      eapply keeps_bind; [apply keeps_alloc | intros ? ?]
  | |- keeps _ _ (bind _ _) =>
      apply keeps_bind with (P := any); [ | intros ? _]
  | |- keeps _ _ (if ?b then _ else _) => destruct b
  | |- keeps _ _ (match ?x with _ => _ end) => destruct x
  | |- keeps _ _ _ => keeps_leaf
  end.

Section Keeps.
Context (env : Env) (n : nat).

Lemma keeps_get_ds_paths data_dir : keeps n any (get_ds_paths env data_dir).
Proof. unfold get_ds_paths. repeat keeps_step. Qed.

Lemma keeps_display df : keeps n any (display env df).
Proof. unfold display. repeat keeps_step. Qed.

Lemma keeps_select_ds_id ds df : keeps n (fresh n) (select_ds_id env ds df).
Proof.
  unfold select_ds_id. repeat keeps_step. apply keeps_display.
Qed.

Lemma keeps_ds_info_append r p :
  fresh n r -> keeps n (fresh n) (ds_info_append env r p).
Proof. intros Hr. unfold ds_info_append. repeat keeps_step. Qed.

Lemma keeps_ds_info_table data_dir :
  keeps n (fresh n) (ds_info_table env data_dir).
Proof.
  unfold ds_info_table.
  apply keeps_bind with (P := any); [apply keeps_get_ds_paths | intros paths _].
  keeps_step.
  eapply keeps_bind.
  { apply keeps_for_each; [| eassumption].
    intros b p Hb. now apply keeps_ds_info_append. }
  intros r Hr. repeat keeps_step.
Qed.

Lemma keeps_disp_pretty_df df t i h : keeps n any (disp_pretty_df env df t i h).
Proof. unfold disp_pretty_df. repeat keeps_step. Qed.

Lemma keeps_ds_info_output ds pretty output df :
  fresh n df -> keeps n (fresh_opt n) (ds_info_output env ds pretty output df).
Proof.
  intros Hdf. unfold ds_info_output. destruct (truthy ds) as [s |].
  - apply keeps_bind with (P := any).
    + destruct pretty; [| keeps_step].
      eapply keeps_bind; [apply keeps_select_ds_id | intros r Hr].
      repeat keeps_step. apply keeps_disp_pretty_df.
    + intros _ _. destruct output.
      * eapply keeps_bind; [apply keeps_select_ds_id | intros r Hr].
        apply keeps_ret. now intros r' [= <-].
      * apply keeps_ret. easy.
  - apply keeps_bind with (P := any).
    + destruct pretty; [| keeps_step].
      repeat keeps_step. apply keeps_disp_pretty_df.
    + intros _ _. destruct output; apply keeps_ret; [| easy].
      now intros r' [= <-].
Qed.

Lemma keeps_ds_info ds pretty output data_dir :
  keeps n (fresh_opt n) (ds_info env ds pretty output data_dir).
Proof.
  unfold ds_info.
  apply keeps_bind with (P := any);
    [destruct (negb pretty && negb output); keeps_step | intros _ _].
  eapply keeps_bind; [apply keeps_ds_info_table | intros r Hr].
  now apply keeps_ds_info_output.
Qed.

Lemma keeps_load_data_select ds data_dir :
  keeps n (fresh n) (load_data_select env ds data_dir).
Proof.
  unfold load_data_select. destruct (truthy ds) as [s |].
  - eapply keeps_bind; [apply keeps_ds_info | intros [r |] Hr].
    + apply keeps_select_ds_id.
    + keeps_step.
  - eapply keeps_bind; [apply keeps_ds_info | intros [r |] Hr].
    + repeat keeps_step. now apply Hr.
    + keeps_step.
Qed.

Lemma keeps_raise_format_error {A R} title format (readers : dict R) :
  keeps n any (@raise_format_error env A R title format readers).
Proof. unfold raise_format_error. repeat keeps_step. Qed.

Lemma keeps_load_data_dispatch readers r :
  keeps n any (load_data_dispatch env readers r).
Proof.
  unfold load_data_dispatch. repeat keeps_step.
  apply keeps_raise_format_error.
Qed.

Lemma keeps_load_data ds data_dir extra :
  keeps n any (load_data env ds data_dir extra).
Proof.
  unfold load_data.
  apply keeps_bind with (P := any); [apply keeps_gets | intros readers _].
  eapply keeps_bind; [apply keeps_load_data_select | intros r Hr].
  apply keeps_load_data_dispatch.
Qed.

End Keeps.

Lemma keeps_old {A} (m : M A) w r f :
  keeps (length (heap w)) any m ->
  heap w !! r = Some f -> heap (snd (m w)) !! r = Some f.
Proof.
  intros H Hr. destruct (H w (le_n _)) as (_ & H2 & _).
  rewrite H2; [exact Hr |]. eapply lookup_lt_Some, Hr.
Qed.

(** X7: [ds_info] never changes a [DataFrame] that was there before the
    call, whatever it displays and whether it returns or raises; it only
    adds to the log; and the frame it returns is a new object, not one
    of those that were there. *)
Theorem ds_info_keeps_frames env ds pretty output data_dir w :
  let result := ds_info env ds pretty output data_dir w in
  (forall r f, heap w !! r = Some f -> heap (snd result) !! r = Some f)
  /\ log_extends w (snd result)
  /\ (forall r, fst result = Ok (Some r) -> heap w !! r = None).
Proof.
  cbv zeta. splits.
  - intros r f. apply keeps_old. eapply keeps_any, keeps_ds_info.
  - apply (preserved_ds_info log_extends).
    + apply log_extends_refl.
    + apply log_extends_trans.
    + intros w0 l. now exists l.
    + intros w0 h. exists []. simpl. now rewrite app_nil_r.
  - intros r Hr.
    destruct (keeps_ds_info env (length (heap w)) ds pretty output data_dir w (le_n _))
      as (_ & _ & H3).
    apply lookup_ge_None. now apply (H3 _ Hr).
Qed.

(** X8: [load_data] never changes a [DataFrame] that was there before the
    call, and it only adds to the log, whether it returns a body or
    raises. *)
Theorem load_data_keeps_frames env ds data_dir extra w :
  let w' := snd (load_data env ds data_dir extra w) in
  (forall r f, heap w !! r = Some f -> heap w' !! r = Some f)
  /\ log_extends w w'.
Proof.
  cbv zeta. split.
  - intros r f. apply keeps_old. apply keeps_load_data.
  - apply (preserved_load_data log_extends).
    + apply log_extends_refl.
    + apply log_extends_trans.
    + intros w0 l. now exists l.
    + intros w0 h. exists []. simpl. now rewrite app_nil_r.
Qed.

(** ** Other failures of the selection *)

Section SelectorFailures.
Context (env : Env).

(** X9: in a session where the name [display] is not bound, which is every
    session outside IPython, an identifier that matches two or more rows
    makes [select_ds_id] raise [NameError], not the [KeyError] that reports
    the number of matches, and nothing is displayed or logged. *)
Theorem select_ds_id_without_display ds df f w :
  heap w !! df = Some f ->
  length (rows f) = length (index f) ->
  has_column "id" f -> has_column "title" f ->
  2 <= length (matching_rows ds f) ->
  builtin_display env = false ->
  fst (select_ds_id env ds df w)
  = Raise (Exn NameError "name 'display' is not defined")
  /\ w_log (snd (select_ds_id env ds df w)) = w_log w.
Proof.
  intros Hdf Hwf Hid Htitle Hn Hd.
  rewrite (select_ds_id_run env ds df f w Hdf Hwf Hid Htitle). cbv zeta.
  assert (E1 : Nat.eqb (length (matching_rows ds f)) 1 = false)
    by (apply Nat.eqb_neq; lia).
  assert (E2 : Nat.ltb 1 (length (matching_rows ds f)) = true)
    by (apply Nat.ltb_lt; lia).
  rewrite E1, E2, Hd. easy.
Qed.

(** X10: on a table that has no column [id], as the empty table, or that
    has [id] and no column [title], [select_ds_id] raises [KeyError] with
    the name of the missing column, whatever the identifier, and leaves the
    world as it was. *)
Theorem select_ds_id_missing_column ds df f w :
  heap w !! df = Some f ->
  (~ has_column "id" f ->
   select_ds_id env ds df w = (Raise (Exn KeyError "id"), w))
  /\ (has_column "id" f -> ~ has_column "title" f ->
      select_ds_id env ds df w = (Raise (Exn KeyError "title"), w)).
Proof.
  intros Hdf. unfold select_ds_id. rewrite (bind_deref _ _ _ _ Hdf).
  unfold frame_column, has_column. split.
  - intros Hno. destruct (str_index "id" (columns f)) as [i |] eqn:Hi; [| easy].
    destruct Hno. eapply str_index_mem, Hi.
  - intros Hid Hno. destruct (str_mem_index _ _ Hid) as [i ->].
    rewrite (bind_lift _ _ _ _ eq_refl).
    destruct (str_index "title" (columns f)) as [t |] eqn:Ht; [| easy].
    destruct Hno. eapply str_index_mem, Ht.
Qed.

End SelectorFailures.

Lemma select_ds_id_without_display_witness :
  fst (select_ds_id (example_env no_datasets false) "Demo" 0 table_world)
  = Raise (Exn NameError "name 'display' is not defined")
  /\ w_log (snd (select_ds_id (example_env no_datasets false) "Demo" 0 table_world))
     = [].
Proof.
  apply (select_ds_id_without_display (example_env no_datasets false) "Demo" 0
           small_table table_world); reflexivity.
Defined.

Lemma select_ds_id_missing_column_witness :
  select_ds_id (example_env no_datasets false) "a1" 0
    (with_heap [frame_empty] example_world)
  = (Raise (Exn KeyError "id"), with_heap [frame_empty] example_world).
Proof.
  apply (select_ds_id_missing_column (example_env no_datasets false) "a1" 0
           frame_empty (with_heap [frame_empty] example_world) eq_refl).
  discriminate.
Defined.

(** ** The record that [load_data] resolves *)

Section Resolved.
Context (env : Env).

(** The frame [load_data] goes on with holds one row of the table. *)
Lemma load_data_select_row ds data_dir w r w1 :
  load_data_select env ds data_dir w = (Ok r, w1) ->
  exists r0 w0 f0 row,
    ds_info_table env data_dir w = (Ok r0, w0)
    /\ heap w0 !! r0 = Some f0
    /\ In row (rows f0)
    /\ heap w1 !! r
       = Some {| columns := columns f0; index := [0]; rows := [row] |}
    /\ match truthy ds with
       | Some s => matching_rows s f0 = [row]
       | None => rows f0 = [row]
       end
    /\ w_log w1 = w_log w0.
Proof.
  unfold load_data_select. destruct (truthy ds) as [s |]; intros H.
  - apply bind_ok_inv in H. destruct H as (o & w0 & Hinfo & H).
    rewrite ds_info_plain in Hinfo.
    destruct (ds_info_table env data_dir w) as [[r0 | e] w0'] eqn:Ht; [| easy].
    inversion Hinfo. subst o w0'. clear Hinfo.
    destruct (ds_info_table_ok _ _ _ _ _ Ht)
      as (paths & w' & f0 & _ & Hf0 & Hinv & [rest Hc] & _).
    rewrite (select_ds_id_run env s r0 f0 w0 Hf0 (table_inv_len _ Hinv)) in H.
    + cbv zeta in H.
      destruct (Nat.eqb (length (matching_rows s f0)) 1) eqn:E.
      * apply Nat.eqb_eq in E. inversion H. subst r w1. clear H.
        destruct (matching_rows s f0) as [| row [| ? ?]] eqn:Hm; try discriminate.
        exists r0, w0, f0, row. splits; try easy.
        -- assert (Hin : In row (matching_rows s f0)) by (rewrite Hm; now left).
           unfold matching_rows in Hin. now apply filter_In in Hin.
        -- simpl. rewrite lookup_app_r by lia.
           replace (S (S (length (heap w0))) - length (heap w0)) with 2 by lia.
           unfold selection. now rewrite Hm.
      * destruct (Nat.ltb 1 _); [destruct (builtin_display env) |]; discriminate.
    + eapply has_priority_column; [exact Hc | simpl; tauto].
    + eapply has_priority_column; [exact Hc | simpl; tauto].
  - apply bind_ok_inv in H. destruct H as (o & w0 & Hinfo & H).
    rewrite ds_info_plain in Hinfo.
    destruct (ds_info_table env data_dir w) as [[r0 | e] w0'] eqn:Ht; [| easy].
    inversion Hinfo. subst o w0'. clear Hinfo.
    destruct (ds_info_table_ok _ _ _ _ _ Ht)
      as (paths & w' & f0 & _ & Hf0 & Hinv & [rest Hc] & _).
    rewrite (bind_deref _ _ _ _ Hf0) in H.
    destruct (Nat.eqb (frame_len f0) 1) eqn:E; [| discriminate].
    apply Nat.eqb_eq in E. inversion H. subst r w1. clear H.
    pose proof (table_inv_len _ Hinv) as Hlen. unfold frame_len in E.
    destruct Hinv as [Hi _]. rewrite Hlen, E in Hi.
    destruct f0 as [cols idx rws]. cbn [columns index rows] in *. subst idx.
    destruct rws as [| row [| ? ?]]; try discriminate.
    exists r0, w0, {| columns := cols; index := [0]; rows := [row] |}, row.
    splits; try easy. now left.
Qed.

Lemma dict_get_numbered {V} (g : nat -> V) c cols s :
  dict_get c (map (fun '(j, c) => (c, g j)) (combine (seq s (length cols)) cols))
  = option_map (fun j => g (s + j)) (str_index c cols).
Proof.
  revert s. induction cols as [| x cols IH]; intros s; simpl; [easy |].
  destruct (String.eqb c x).
  - simpl. now rewrite Nat.add_0_r.
  - rewrite IH. destruct (str_index c cols); simpl; [| easy].
    now rewrite Nat.add_succ_r.
Qed.

(** A row of a table that holds records is one of the records. *)
Lemma holds_records_row f infos row :
  holds_records f infos -> In row (rows f) ->
  exists info,
    In info infos
    /\ forall c j, str_index c (columns f) = Some j ->
         row_cell row j = cell_of c info.
Proof.
  intros (_ & Hlen & _ & _ & Hvals) Hin.
  apply In_nth_error in Hin. destruct Hin as [i Hi].
  assert (Hlt : i < length infos).
  { rewrite <- Hlen. apply nth_error_Some. now rewrite Hi. }
  destruct (nth_error infos i) as [info |] eqn:Hinfo;
    [| now apply nth_error_Some in Hlt].
  exists info. split; [eapply nth_error_In, Hinfo |].
  intros c j Hj.
  assert (Hc : In c (columns f)) by (apply str_mem_In; eapply str_index_mem, Hj).
  specialize (Hvals c Hc). unfold frame_column in Hvals. rewrite Hj in Hvals.
  apply Ok_inj in Hvals.
  apply (f_equal (fun l => nth_error l i)) in Hvals.
  rewrite !nth_error_map, Hi, Hinfo in Hvals. now injection Hvals.
Qed.

(** X12: the record that [load_data] resolves is the sidecar file of one
    scanned directory. Once the dataset is selected, the frame that
    [load_data] reads has every priority column, so that none of its five
    reads fails for a missing column; under label 0 it holds, column by
    column, the value that this one sidecar file gives the field, NaN where
    it gives none; its [path] is the directory of that file, whatever the
    file says; [single_df.loc[0].to_dict()] has these same values; and with
    an identifier, the id or the title of the file is that identifier. *)
Theorem load_data_record_from_sidecar ds data_dir w r w1 :
  load_data_select env ds data_dir w = (Ok r, w1) ->
  exists paths w0 dir info f metadata,
    get_ds_paths env data_dir w = (Ok paths, w0)
    /\ In dir paths
    /\ read_info env dir = Ok info
    /\ heap w1 !! r = Some f
    /\ (forall c, In c sort_order -> In c (columns f))
    /\ (forall c, In c (columns f) -> frame_loc f 0 c = Ok (cell_of c info))
    /\ frame_loc f 0 "path" = Ok (CPath dir)
    /\ frame_loc_dict f 0 = Ok metadata
    /\ (forall c, In c (columns f) -> dict_get c metadata = Some (cell_of c info))
    /\ (forall s,
          truthy ds = Some s ->
          cell_eq_str s (cell_of "id" info) || cell_eq_str s (cell_of "title" info)
          = true).
Proof.
  intros H.
  destruct (load_data_select_row _ _ _ _ _ H)
    as (r0 & w0 & f0 & row & Ht & Hf0 & Hrow & Hf & Hm & _).
  destruct (ds_info_table_records env _ _ _ _ Ht)
    as (paths & wp & infos & f0' & rest & Hp & Hinfos & Hf0' & Hh & _ & Hc & _).
  rewrite Hf0 in Hf0'. injection Hf0' as <-.
  destruct (holds_records_row _ _ _ Hh Hrow) as (info & Hinfo & Hcells).
  destruct (map_res_In _ _ _ _ Hinfos Hinfo) as (dir & Hdir & Hread).
  set (f := {| columns := columns f0; index := [0]; rows := [row] |}) in *.
  assert (Hloc : forall c, In c (columns f) ->
                           frame_loc f 0 c = Ok (cell_of c info)).
  { intros c Hin. destruct (str_index_In _ _ Hin) as [j Hj].
    unfold frame_loc. cbn [f index columns rows nat_index Nat.eqb frame_row nth].
    cbn [f columns] in Hj. rewrite Hj. f_equal. now apply Hcells. }
  assert (Hprio : forall c, In c sort_order -> In c (columns f)).
  { intros c Hin. cbn [f columns]. rewrite Hc. apply in_app_iff. now left. }
  exists paths, wp, dir, info, f,
    (map (fun '(j, c) => (c, row_cell row j))
       (combine (seq 0 (length (columns f0))) (columns f0))).
  split; [exact Hp |]. split; [exact Hdir |]. split; [exact Hread |].
  split; [exact Hf |]. split; [exact Hprio |]. split; [exact Hloc |].
  split; [| split; [reflexivity |]; split].
  - rewrite Hloc by (apply Hprio; simpl; tauto).
    unfold cell_of. now rewrite (read_info_path env _ _ Hread).
  - intros c Hin. destruct (str_index_In _ _ Hin) as [j Hj].
    cbn [f columns] in Hj.
    rewrite (dict_get_numbered (row_cell row)), Hj. cbn [option_map Nat.add].
    f_equal. now apply Hcells.
  - intros s Hs. rewrite Hs in Hm.
    assert (Hmatch : row_matches s f0 row = true).
    { assert (Hin : In row (matching_rows s f0)) by (rewrite Hm; now left).
      unfold matching_rows in Hin. now apply filter_In in Hin. }
    unfold row_matches in Hmatch.
    destruct (str_index "id" (columns f0)) as [i |] eqn:Hi; [| easy].
    destruct (str_index "title" (columns f0)) as [t |] eqn:Hti; [| easy].
    now rewrite <- (Hcells _ _ Hi), <- (Hcells _ _ Hti).
Qed.

(** X11: [load_data] without an identifier, or with the empty string,
    loads the only dataset there is, from the table itself; when the scan
    found two or more directories it raises [AssertionError] instead, and no
    reader is called. *)
Theorem load_data_without_identifier ds data_dir extra w paths w0 r w1 :
  truthy ds = None ->
  get_ds_paths env data_dir w = (Ok paths, w0) ->
  ds_info_table env data_dir w = (Ok r, w1) ->
  (length paths <> 1 ->
   load_data env ds data_dir extra w
   = (Raise (Exn AssertionError msg_more_than_one), w1))
  /\ (length paths = 1 ->
      load_data env ds data_dir extra w
      = load_data_dispatch env (effective_readers extra w) r w1).
Proof.
  intros Hds Hp Ht.
  destruct (ds_info_table_ok _ _ _ _ _ Ht)
    as (paths' & w0' & f & Hp' & Hf & Hinv & _ & Hlen & _).
  rewrite Hp in Hp'. injection Hp' as <- <-.
  assert (Hsel : load_data_select env ds data_dir w =
                 if Nat.eqb (length paths) 1 then (Ok r, w1)
                 else (Raise (Exn AssertionError msg_more_than_one), w1)).
  { unfold load_data_select. rewrite Hds.
    rewrite (bind_ok _ _ _ (Some r) w1) by (rewrite ds_info_plain; now rewrite Ht).
    rewrite (bind_deref _ _ _ _ Hf). unfold frame_len.
    rewrite <- (table_inv_len _ Hinv), Hlen.
    now destruct (Nat.eqb (length paths) 1). }
  rewrite load_data_unfold, Hsel. split; intros Hn.
  - apply Nat.eqb_neq in Hn. now rewrite Hn.
  - apply Nat.eqb_eq in Hn. now rewrite Hn.
Qed.

End Resolved.

(** ** What [load_data] logs, and its other failures *)

Section LoaderLog.
Context (env : Env).

(** X13: what [load_data] logs for a record whose format has a reader.
    Before it calls the reader it logs that it is loading the dataset, with
    the title, the format and the directory; when the reader fails nothing
    more is logged; when the reader returns, it logs that the dataset is
    loaded, with the numbers of rows and of columns of the body as the
    numbers of cells and of genes. *)
Theorem load_data_log ds data_dir extra w r w1 f title ds_id fmt dir file read :
  load_data_select env ds data_dir w = (Ok r, w1) ->
  heap w1 !! r = Some f ->
  frame_loc f 0 "title" = Ok title ->
  frame_loc f 0 "id" = Ok ds_id ->
  hashable ds_id = true ->
  frame_loc f 0 "format" = Ok (CStr fmt) ->
  frame_loc f 0 "path" = Ok (CPath dir) ->
  frame_loc f 0 "file" = Ok (CStr file) ->
  dict_get fmt (effective_readers extra w) = Some read ->
  let w' := snd (load_data env ds data_dir extra w) in
  let loading := LogInfo (msg_loading env title (CStr fmt) (CPath dir)) in
  w_log w' =
    w_log w1 ++
    match read (joinpath dir (parse_path file)) with
    | Raise _ => [loading]
    | Ok body =>
        [loading; LogInfo (msg_loaded env title (n_obs body) (n_vars body))]
    end.
Proof.
  intros Hsel Hf Htitle Hid Hhash Hfmt Hpath Hfile Hread. cbv zeta.
  rewrite load_data_unfold, Hsel.
  assert (Hl : lookup_format (CStr fmt) (effective_readers extra w) = Ok (Some read))
    by now rewrite lookup_format_str, Hread.
  rewrite (load_data_dispatch_found env _ r w1 f title ds_id (CStr fmt) (CPath dir)
             (CStr file) read Hf Htitle Hid Hfmt Hpath Hfile Hl).
  cbv zeta. cbn [payload_path as_path CStr].
  destruct (read (joinpath dir (parse_path file))) as [body | e];
    [| reflexivity].
  destruct (load_data_select_ok env _ _ _ _ _ Hsel) as (f' & row & rest & Hf' & Hi & Hr & _).
  rewrite Hf in Hf'. injection Hf' as <-.
  destruct (frame_loc_dict_0 f row Hi Hr) as (metadata & -> & _).
  rewrite (dict_key_hashable _ Hhash).
  cbn [snd w_log with_log set_obs set_uns n_obs n_vars].
  now rewrite <- app_assoc.
Qed.

(** The table of a root that does not exist: the column sort fails on it. *)
Lemma ds_info_table_missing_root data_dir w :
  path_exists env data_dir = false ->
  ds_info_table env data_dir w
  = (Raise (Exn ValueError "list.remove(x): x not in list"),
     with_heap (heap w ++ [frame_empty])
       (with_log
          (w_log w ++ [LogWarning "There are no datasets attached to this analysis."])
          w)).
Proof.
  intros H. unfold ds_info_table.
  unfold bind at 1. rewrite (get_ds_paths_missing env data_dir w H).
  rewrite bind_alloc. simpl for_each.
  unfold ret at 1. unfold bind at 1.
  rewrite (bind_deref _ frame_empty) by apply lookup_fresh_world.
  reflexivity.
Qed.

(** X14: on a root that does not exist [load_data] logs the warning of the
    scan and then raises the [ValueError] of the column sort, with or
    without an identifier; no reader is called and nothing else is
    logged. *)
Theorem load_data_missing_root ds data_dir extra w :
  path_exists env data_dir = false ->
  fst (load_data env ds data_dir extra w)
  = Raise (Exn ValueError "list.remove(x): x not in list")
  /\ w_log (snd (load_data env ds data_dir extra w))
     = w_log w ++ [LogWarning "There are no datasets attached to this analysis."].
Proof.
  intros H. rewrite load_data_unfold. unfold load_data_select.
  assert (Hinfo : ds_info env None false true data_dir w
                  = (Raise (Exn ValueError "list.remove(x): x not in list"),
                     with_heap (heap w ++ [frame_empty])
                       (with_log
                          (w_log w ++ [LogWarning "There are no datasets attached to this analysis."])
                          w))).
  { rewrite ds_info_plain. now rewrite (ds_info_table_missing_root _ _ H). }
  destruct (truthy ds); unfold bind; rewrite Hinfo; easy.
Qed.

(** X15: a format that is no string. A record whose format is a number,
    [null] or NaN, as when its sidecar file has no such field and another
    one has, is no key of the registry and is none of the two reserved
    names, so [load_data] raises the [KeyError] for an unsupported format;
    a format that is a list or an object cannot be looked up at all and
    raises [TypeError]. In both cases no reader is called and nothing is
    logged after the selection. *)
Theorem load_data_format_not_a_string ds data_dir extra w r w1 f title format :
  load_data_select env ds data_dir w = (Ok r, w1) ->
  heap w1 !! r = Some f ->
  frame_loc f 0 "title" = Ok title ->
  frame_loc f 0 "format" = Ok format ->
  (forall s, format <> CStr s) ->
  let result := load_data env ds data_dir extra w in
  let keys := dict_keys (effective_readers extra w) in
  snd result = w1
  /\ (hashable format = true ->
      fst result = Raise (Exn KeyError (msg_unknown env format keys)))
  /\ (hashable format = false ->
      exists msg, fst result = Raise (Exn TypeError msg)).
Proof.
  intros Hsel Hf Htitle Hformat Hno. cbv zeta.
  rewrite load_data_unfold, Hsel.
  destruct (load_data_select_ok env _ _ _ _ _ Hsel)
    as (f' & row & rest & Hf' & Hi & Hr & Hc).
  rewrite Hf in Hf'. injection Hf' as <-.
  destruct (frame_loc_priority f row rest "id" Hi Hr Hc) as [ds_id Hid];
    [simpl; tauto |].
  destruct (frame_loc_priority f row rest "path" Hi Hr Hc) as [path Hpath];
    [simpl; tauto |].
  destruct (frame_loc_priority f row rest "file" Hi Hr Hc) as [file Hfile];
    [simpl; tauto |].
  unfold load_data_dispatch.
  rewrite (bind_deref _ _ _ _ Hf).
  rewrite (bind_lift _ _ _ _ Htitle), (bind_lift _ _ _ _ Hid),
    (bind_lift _ _ _ _ Hformat), (bind_lift _ _ _ _ Hpath),
    (bind_lift _ _ _ _ Hfile).
  destruct format as [[| b | z | lit | s | items | members] | p |];
    try (now destruct (Hno s));
    cbn [lookup_format bind lift fst snd hashable raise_format_error cell_eq_str raise];
    splits; try easy; eauto.
Qed.

End LoaderLog.

(** ** What pretty printing leaves in the log *)

Section PrettyLog.
Context (env : Env).

Lemma disp_pretty_df_run df f t i h w :
  heap w !! df = Some f ->
  disp_pretty_df env df t i h w
  = (Ok tt, with_log (w_log w ++ [rendering env f t i h]) w).
Proof.
  intros Hdf. unfold disp_pretty_df, rendering. destruct (ipython env).
  - now rewrite (bind_deref _ _ _ _ Hdf).
  - reflexivity.
Qed.

Lemma bind_then {A B} (m : M unit) (k : M B) (z : A) w :
  bind m (fun _ => k) w =
    match bind m (fun _ => ret z) w with
    | (Ok _, wa) => k wa
    | (Raise e, wa) => (Raise e, wa)
    end.
Proof. unfold bind. now destruct (m w) as [[u | e] wa]. Qed.

(** With [output] true the display comes first and the value after. *)
Lemma ds_info_output_after_display ds df w :
  ds_info_output env ds true true df w =
    match ds_info_output env ds true false df w with
    | (Ok _, wa) => ds_info_output env ds false true df wa
    | (Raise e, wa) => (Raise e, wa)
    end.
Proof.
  unfold ds_info_output. destruct (truthy ds) as [s |];
    exact (bind_then _ _ (@None ref) w).
Qed.

(** The display alone: the table is as it was, and one thing is logged. *)
Lemma ds_info_output_display ds df f w o wa :
  heap w !! df = Some f ->
  length (rows f) = length (index f) ->
  ds_info_output env ds true false df w = (Ok o, wa) ->
  heap wa !! df = Some f
  /\ exists g,
       w_log wa
       = w_log w
         ++ [match truthy ds with
             | Some _ => rendering env g true true false
             | None => rendering env g false true true
             end].
Proof.
  intros Hdf Hwf. unfold ds_info_output.
  pose proof (lookup_lt_Some _ _ _ Hdf) as Hlt.
  destruct (truthy ds) as [s |].
  - intros H. apply bind_ok_inv in H. destruct H as (u & wa' & Hp & H).
    unfold ret in H. inversion H. subst o wa'. clear H.
    apply bind_ok_inv in Hp. destruct Hp as (p & wb & Hsel & Hp).
    destruct (select_ds_id_ok_columns env _ _ _ _ _ _ Hdf Hsel) as [Hid Htitle].
    rewrite (select_ds_id_run env s df f w Hdf Hwf Hid Htitle) in Hsel.
    cbv zeta in Hsel.
    destruct (Nat.eqb (length (matching_rows s f)) 1) eqn:E;
      [| destruct (Nat.ltb 1 _); [destruct (builtin_display env) |]; discriminate].
    inversion Hsel. subst p wb. clear Hsel.
    set (masked := frame_mask f (map (row_matches s f) (rows f))) in *.
    set (sel := selection s f) in *.
    assert (Hp0 : heap (with_heap (heap w ++ [masked; sel; sel]) w)
                    !! S (S (length (heap w))) = Some sel).
    { cbn [heap with_heap]. rewrite lookup_app_r by lia.
      replace (S (S (length (heap w))) - length (heap w)) with 2 by lia.
      reflexivity. }
    rewrite (bind_deref _ _ _ _ Hp0) in Hp.
    apply bind_ok_inv in Hp. destruct Hp as (urls & w2 & Hu & Hp).
    unfold lift in Hu. inversion Hu. subst w2. clear Hu.
    apply bind_ok_inv in Hp. destruct Hp as (url & w2 & Hu & Hp).
    assert (w2 = with_heap (heap w ++ [masked; sel; sel]) w) as ->.
    { destruct urls as [| ? [| ? ?]]; inversion Hu; reflexivity. }
    clear Hu.
    apply bind_ok_inv in Hp. destruct Hp as (f1 & w2 & Hu & Hp).
    unfold lift in Hu. inversion Hu. subst w2. clear Hu.
    unfold store at 1 in Hp. unfold bind at 1 in Hp.
    rewrite (disp_pretty_df_run _ f1) in Hp.
    + inversion Hp. subst wa. cbn [heap with_heap with_log w_log]. split.
      * rewrite list_lookup_insert_ne by lia. now apply lookup_old.
      * now exists f1.
    + cbn [heap with_heap]. apply list_lookup_insert_eq.
      rewrite length_app. simpl. lia.
  - intros H. apply bind_ok_inv in H. destruct H as (u & wa' & Hp & H).
    unfold ret in H. inversion H. subst o wa'. clear H.
    rewrite (bind_deref _ _ _ _ Hdf), bind_alloc in Hp.
    rewrite (bind_deref _ _ _ _ (lookup_fresh_world _ _ _)) in Hp.
    apply bind_ok_inv in Hp. destruct Hp as (urls & w2 & Hu & Hp).
    unfold lift in Hu. inversion Hu. subst w2. clear Hu.
    apply bind_ok_inv in Hp. destruct Hp as (f1 & w2 & Hu & Hp).
    unfold lift in Hu. inversion Hu. subst w2. clear Hu.
    unfold store at 1 in Hp. unfold bind at 1 in Hp.
    apply bind_ok_inv in Hp. destruct Hp as (f2 & w2 & Hu & Hp).
    unfold lift in Hu. inversion Hu. subst w2. clear Hu.
    rewrite bind_alloc in Hp.
    rewrite (disp_pretty_df_run _ f2) in Hp by apply lookup_fresh_world.
    inversion Hp. subst wa. cbn [heap with_heap with_log w_log]. split.
    + apply lookup_old. rewrite list_lookup_insert_ne by lia. now apply lookup_old.
    + now exists f2.
Qed.

(** X20: what a call of [ds_info] with [pretty] leaves in the log when it
    returns: one thing and no more. In IPython it is the rendered frame,
    transposed and without its header for one dataset, with index and
    header for the listing; elsewhere it is the warning that pretty
    printing needs a notebook, and the call returns all the same. *)
Theorem ds_info_pretty_log ds output data_dir w o w' :
  ds_info env ds true output data_dir w = (Ok o, w') ->
  exists g,
    w_log w'
    = w_log w
      ++ [match truthy ds with
          | Some _ => rendering env g true true false
          | None => rendering env g false true true
          end].
Proof.
  rewrite ds_info_unfold. cbn [negb andb].
  intros H. apply bind_ok_inv in H. destruct H as (df & w0 & Ht & H).
  destruct (ds_info_table_ok env _ _ _ _ Ht)
    as (paths & wp & f & Hp & Hf & Hinv & _ & _ & _ & Hlog & _).
  assert (Hw0 : w_log w0 = w_log w).
  { rewrite Hlog. destruct (path_exists env data_dir) eqn:Hex.
    - unfold get_ds_paths in Hp. rewrite Hex in Hp. cbn [negb] in Hp.
      apply bind_ok_inv in Hp. destruct Hp as (names & w1 & Hn & Hp).
      unfold lift in Hn. inversion Hn. subst w1.
      destruct (List.filter _ _); inversion Hp. reflexivity.
    - rewrite (ds_info_table_missing_root env _ _ Hex) in Ht. discriminate. }
  pose proof (table_inv_len _ Hinv) as Hwf.
  destruct output.
  - rewrite ds_info_output_after_display in H.
    destruct (ds_info_output env ds true false df w0) as [[u | e] wa] eqn:Hd;
      [| discriminate].
    destruct (ds_info_output_display _ _ _ _ _ _ Hf Hwf Hd) as (Hkeep & g & Hg).
    exists g. rewrite <- Hw0, <- Hg.
    unfold ds_info_output in H. destruct (truthy ds) as [s |].
    + cbn [bind ret] in H.
      apply bind_ok_inv in H. destruct H as (r & wc & Hsel & H).
      unfold ret in H. inversion H. subst o w'. clear H.
      destruct (select_ds_id_ok_columns env _ _ _ _ _ _ Hkeep Hsel) as [Hid Htitle].
      rewrite (select_ds_id_run env s df f wa Hkeep Hwf Hid Htitle) in Hsel.
      cbv zeta in Hsel.
      destruct (Nat.eqb (length (matching_rows s f)) 1);
        [| destruct (Nat.ltb 1 _); [destruct (builtin_display env) |]; discriminate].
      inversion Hsel. reflexivity.
    + cbn [bind ret] in H. inversion H. reflexivity.
  - destruct (ds_info_output_display _ _ _ _ _ _ Hf Hwf H) as (_ & g & Hg).
    exists g. now rewrite <- Hw0.
Qed.

End PrettyLog.

(** ** The loader of the legacy calling convention *)

(** The deprecation warning that the decorator of [read_dataset] issues
    through the module [warnings] is no logger record, and the log does not
    hold it. *)

Section Legacy.
Context (env : Env).

Lemma read_dataset_found dataset extra w fmt read :
  dataset_format dataset = CStr fmt ->
  dict_get fmt (effective_readers_old extra w) = Some read ->
  read_dataset env dataset extra w =
    let title := dataset_title dataset in
    let w1 :=
      with_log
        (w_log w
         ++ [LogInfo (msg_loading env title (CStr fmt) (dataset_path dataset))])
        w in
    match read dataset with
    | Raise e => (Raise e, w1)
    | Ok body =>
        (Ok (set_obs "fg_id" (dataset_id dataset)
               (set_obs "fg_title" title
                  (set_uns "metadata" (UnsJson (dataset_metadata dataset)) body))),
         with_log
           (w_log w1 ++ [LogInfo (msg_loaded env title (n_obs body) (n_vars body))])
           w1)
    end.
Proof.
  intros Hfmt Hread. unfold read_dataset. rewrite Hfmt.
  unfold gets at 1. unfold bind at 1.
  rewrite lookup_format_str, Hread. unfold lift at 1. unfold bind at 1.
  rewrite bind_emit. unfold lift at 1. unfold bind at 1. cbv zeta.
  now destruct (read dataset).
Qed.

(** X16: [read_dataset] on a handle whose format is a key of the registry
    of the call runs the reader under that key on the handle itself. A
    failure of the reader is the failure of the call, after the record that
    the dataset is being loaded. A body that the reader returns comes back
    with the shape it had, with the metadata of the handle under
    ["metadata"] in the global annotations, and with the per-row columns
    ["fg_title"] and ["fg_id"] that repeat the title and the id once per
    row; two records are logged, and no [DataFrame] is touched. *)
Theorem read_dataset_invokes_reader dataset extra w fmt read :
  dataset_format dataset = CStr fmt ->
  dict_get fmt (effective_readers_old extra w) = Some read ->
  hashable (dataset_title dataset) = true ->
  hashable (dataset_id dataset) = true ->
  let result := read_dataset env dataset extra w in
  let title := dataset_title dataset in
  let loading :=
    LogInfo (msg_loading env title (CStr fmt) (dataset_path dataset)) in
  heap (snd result) = heap w
  /\ (forall e,
        read dataset = Raise e ->
        fst result = Raise e /\ w_log (snd result) = w_log w ++ [loading])
  /\ (forall body,
        read dataset = Ok body ->
        exists adata,
          fst result = Ok adata
          /\ n_obs adata = n_obs body /\ n_vars adata = n_vars body
          /\ dict_get "metadata" (uns adata)
             = Some (UnsJson (dataset_metadata dataset))
          /\ dict_get "fg_title" (obs adata) = Some (repeat title (n_obs body))
          /\ dict_get "fg_id" (obs adata)
             = Some (repeat (dataset_id dataset) (n_obs body))
          /\ w_log (snd result)
             = w_log w
               ++ [loading;
                   LogInfo (msg_loaded env title (n_obs body) (n_vars body))]).
Proof.
  intros Hfmt Hread _ _. cbv zeta.
  rewrite (read_dataset_found dataset extra w fmt read Hfmt Hread). cbv zeta.
  destruct (read dataset) as [body | e]; cbn [fst snd]; splits; try easy.
  - intros body' [= <-]. eexists. split; [reflexivity |].
    cbn [set_obs set_uns n_obs n_vars obs uns]. splits; try reflexivity.
    + apply dict_get_set_eq.
    + rewrite dict_get_set_ne by discriminate. apply dict_get_set_eq.
    + apply dict_get_set_eq.
    + cbn [w_log with_log]. now rewrite <- app_assoc.
Qed.

(** X17: [read_dataset] on a handle whose format is a string that is no
    key of the registry of the call raises, before it logs anything:
    [NotImplementedError] for ["Other"], [ValueError] for ["Not set"], and
    for any other string [KeyError] with a message that includes the list
    of the format labels of the registry. *)
Theorem read_dataset_format_errors dataset extra w fmt :
  dataset_format dataset = CStr fmt ->
  dict_get fmt (effective_readers_old extra w) = None ->
  let result := read_dataset env dataset extra w in
  let title := dataset_title dataset in
  let keys := dict_keys (effective_readers_old extra w) in
  snd result = w
  /\ (fmt = "Other"%string ->
      fst result = Raise (Exn NotImplementedError (msg_other env title (CStr fmt))))
  /\ (fmt = "Not set"%string ->
      fst result = Raise (Exn ValueError (msg_not_set env title)))
  /\ (fmt <> "Other"%string -> fmt <> "Not set"%string ->
      fst result = Raise (Exn KeyError (msg_unknown env (CStr fmt) keys))
      /\ str_infix (py_repr_keys env keys) (msg_unknown env (CStr fmt) keys)).
Proof.
  intros Hfmt Hread. cbv zeta.
  assert (Hrun : read_dataset env dataset extra w
                 = raise_format_error env (dataset_title dataset) (CStr fmt)
                     (effective_readers_old extra w) w).
  { unfold read_dataset. rewrite Hfmt.
    unfold gets at 1. unfold bind at 1.
    rewrite lookup_format_str, Hread. reflexivity. }
  rewrite Hrun. unfold raise_format_error, cell_eq_str, CStr.
  destruct (String.eqb fmt "Other") eqn:E1;
    [| destruct (String.eqb fmt "Not set") eqn:E2].
  - apply String.eqb_eq in E1. subst fmt. splits; try easy.
  - apply String.eqb_eq in E2. subst fmt. splits; try easy.
  - apply String.eqb_neq in E1, E2. splits; try easy.
    intros _ _. split; [reflexivity |].
    unfold msg_unknown.
    exists ("Unsupported format " +:+ quoted (py_str env (CJson (JStr fmt)))
            +:+ ", use one of ").
    eexists. now rewrite !str_app_assoc.
Qed.

(** X18: the registry of a call of [read_dataset]. A reader that the
    caller passes under a key, also the key of a default reader, is the one
    the call runs for a handle of that format; the call leaves the two
    default registries and the shared default arguments as they were, so
    that a later call without [additional_readers] looks the format up in
    the registry of the world before; and what the call returns or raises
    is the same from every world, for the caller's reader is all it
    uses. *)
Theorem read_dataset_override_per_call dataset extra w k read :
  List.NoDup (dict_keys extra) ->
  dict_get k extra = Some read ->
  dataset_format dataset = CStr k ->
  let result := read_dataset env dataset (Some extra) w in
  (forall e, read dataset = Raise e -> fst result = Raise e)
  /\ (forall body,
        read dataset = Ok body ->
        exists adata,
          fst result = Ok adata
          /\ n_obs adata = n_obs body /\ n_vars adata = n_vars body)
  /\ same_globals w (snd result)
  /\ effective_readers_old None (snd result) = effective_readers_old None w
  /\ (forall w2, fst (read_dataset env dataset (Some extra) w2) = fst result).
Proof.
  intros Hnd Hk Hfmt. cbv zeta.
  assert (Hread : forall w0, dict_get k (effective_readers_old (Some extra) w0)
                             = Some read)
    by (intros w0; now apply dict_merge_override).
  pose proof (read_dataset_same_globals env dataset (Some extra) w) as Hsame.
  splits.
  - intros e He. rewrite (read_dataset_found dataset _ w k read Hfmt (Hread w)).
    cbv zeta. now rewrite He.
  - intros body Hb. rewrite (read_dataset_found dataset _ w k read Hfmt (Hread w)).
    cbv zeta. rewrite Hb. eexists. split; [reflexivity |]. split; reflexivity.
  - exact Hsame.
  - destruct Hsame as (_ & H2 & _ & H4). unfold effective_readers_old.
    now rewrite H2, H4.
  - intros w2.
    rewrite !(read_dataset_found dataset _ _ k read Hfmt (Hread _)).
    cbv zeta. now destruct (read dataset).
Qed.

End Legacy.

(** ** The registry of a call *)

Lemma dict_set_keys_old {V} k (v : V) d :
  In k (dict_keys d) -> dict_keys (dict_set k v d) = dict_keys d.
Proof.
  induction d as [| [k' v'] d IH]; simpl; [easy |].
  destruct (String.eqb k k') eqn:E; simpl.
  - intros _. apply String.eqb_eq in E. now subst.
  - apply String.eqb_neq in E. intros [-> | H]; [easy |]. now rewrite IH.
Qed.

Lemma dict_set_keys_new {V} k (v : V) d :
  ~ In k (dict_keys d) -> dict_keys (dict_set k v d) = dict_keys d ++ [k].
Proof.
  induction d as [| [k' v'] d IH]; simpl; [easy |].
  destruct (String.eqb k k') eqn:E; simpl.
  - apply String.eqb_eq in E. subst. intros H. destruct H. now left.
  - intros H. rewrite IH; [easy |]. intros Hin. apply H. now right.
Qed.

(** The keys of [{**d1, **d2}]: those of [d1] in their order, then the new
    ones of [d2] in theirs. *)
Lemma dict_merge_keys {V} (d1 d2 : dict V) :
  List.NoDup (dict_keys d2) ->
  dict_keys (dict_merge d1 d2)
  = dict_keys d1
    ++ List.filter (fun k => negb (str_mem k (dict_keys d1))) (dict_keys d2).
Proof.
  unfold dict_merge. revert d1.
  induction d2 as [| [k v] d2 IH]; intros d1 Hnd; simpl.
  - now rewrite app_nil_r.
  - apply NoDup_cons_iff in Hnd. destruct Hnd as [Hk Hnd].
    rewrite (IH _ Hnd). destruct (str_mem k (dict_keys d1)) eqn:E; simpl.
    + apply str_mem_In in E. now rewrite (dict_set_keys_old _ _ _ E).
    + assert (Hout : ~ In k (dict_keys d1)).
      { intros Hin. apply str_mem_In in Hin. congruence. }
      rewrite (dict_set_keys_new _ _ _ Hout), <- app_assoc. simpl. do 2 f_equal.
      apply filter_ext_in. intros x Hx. f_equal.
      unfold str_mem. rewrite existsb_app. simpl.
      destruct (String.eqb x k) eqn:Ex; [| now rewrite !orb_false_r].
      apply String.eqb_eq in Ex. now subst.
Qed.

(** X19: the registry of a call is [DEFAULT_READERS] with the caller's
    readers on top, for [load_data], and [DEFAULT_READERS_OLD] likewise for
    [read_dataset]: a label of the caller gives the caller's reader, any
    other label gives the default reader, and the labels, which the
    [KeyError] for an unsupported format lists, are the default labels in
    the order of their declaration followed by the caller's new labels. *)
Theorem effective_readers_registry extra extra_old w :
  List.NoDup (dict_keys extra) ->
  List.NoDup (dict_keys extra_old) ->
  let readers := effective_readers (Some extra) w in
  let readers_old := effective_readers_old (Some extra_old) w in
  (forall k,
     dict_get k readers
     = match dict_get k extra with
       | Some read => Some read
       | None => dict_get k (DEFAULT_READERS w)
       end)
  /\ dict_keys readers
     = dict_keys (DEFAULT_READERS w)
       ++ List.filter
            (fun k => negb (str_mem k (dict_keys (DEFAULT_READERS w))))
            (dict_keys extra)
  /\ (forall k,
        dict_get k readers_old
        = match dict_get k extra_old with
          | Some read => Some read
          | None => dict_get k (DEFAULT_READERS_OLD w)
          end)
  /\ dict_keys readers_old
     = dict_keys (DEFAULT_READERS_OLD w)
       ++ List.filter
            (fun k => negb (str_mem k (dict_keys (DEFAULT_READERS_OLD w))))
            (dict_keys extra_old).
Proof.
  intros Hnd Hnd_old. cbv zeta. unfold effective_readers, effective_readers_old.
  splits.
  - intros k. now rewrite dict_merge_get, (dict_get_rev _ _ Hnd).
  - now apply dict_merge_keys.
  - intros k. now rewrite dict_merge_get, (dict_get_rev _ _ Hnd_old).
  - now apply dict_merge_keys.
Qed.

(** ** Concrete runs *)

(** X5, on two datasets: the titles of the table are those of the two
    sidecar files, in the order of the scan. *)
Lemma ds_info_table_cells_witness :
  let env := example_env two_datasets false in
  exists r f,
    fst (ds_info_table env DATA_DIR example_world) = Ok r
    /\ heap (snd (ds_info_table env DATA_DIR example_world)) !! r = Some f
    /\ frame_column f "title" = Ok [CStr "Demo"; CStr "Second"]
    /\ ~ In "schemaVersion"%string (columns f).
Proof.
  cbv zeta.
  destruct (ds_info_table (example_env two_datasets false) DATA_DIR example_world)
    as [[r | e] w'] eqn:E; [| vm_compute in E; discriminate].
  destruct (ds_info_table_cells _ _ _ _ _ E)
    as (paths & w1 & infos & f & rest & Hp & Hm & Hf & _ & _ & _ & Hc & _ & Hs & _ & Hv).
  exists r, f. cbn [fst snd].
  refine (conj eq_refl (conj Hf (conj _ Hs))).
  rewrite Hv by (rewrite Hc; apply in_app_iff; left; simpl; tauto).
  vm_compute in Hp. injection Hp as <- _.
  vm_compute in Hm. injection Hm as <-.
  reflexivity.
Defined.

(** X6, on one of two datasets, in IPython: the frame that comes back has
    the title of the sidecar file, not the link. *)
Lemma ds_info_pretty_same_result_witness :
  let env := example_env two_datasets true in
  exists r f,
    fst (ds_info env (Some "Demo") true true DATA_DIR example_world) = Ok (Some r)
    /\ heap (snd (ds_info env (Some "Demo") true true DATA_DIR example_world)) !! r
       = Some f
    /\ frame_loc f 0 "title" = Ok (CStr "Demo").
Proof.
  cbv zeta.
  destruct (ds_info (example_env two_datasets true) (Some "Demo") true true
              DATA_DIR example_world) as [[o | e] w1] eqn:E;
    [| vm_compute in E; discriminate].
  destruct (ds_info_pretty_same_result _ _ _ _ _ _ E)
    as (r & r' & w2 & f & -> & Hplain & Hf & Hf').
  exists r, f. cbn [fst snd]. refine (conj eq_refl (conj Hf _)).
  vm_compute in Hplain. injection Hplain as <- <-.
  vm_compute in Hf'. injection Hf' as <-. reflexivity.
Defined.

(** X11, on two datasets and no identifier. *)
Lemma load_data_without_identifier_witness :
  fst (load_data (example_env two_datasets false) None DATA_DIR None example_world)
  = Raise (Exn AssertionError msg_more_than_one).
Proof.
  destruct (ds_info_table (example_env two_datasets false) DATA_DIR example_world)
    as [[r | e] w1] eqn:Et; [| vm_compute in Et; discriminate].
  destruct (get_ds_paths (example_env two_datasets false) DATA_DIR example_world)
    as [[paths | e] w0] eqn:Ep; [| vm_compute in Ep; discriminate].
  destruct (load_data_without_identifier (example_env two_datasets false) None
              DATA_DIR None example_world paths w0 r w1 eq_refl Ep Et) as [H _].
  rewrite H; [reflexivity |].
  vm_compute in Ep. injection Ep as <- _. discriminate.
Defined.

(** X12, on the second of two datasets, selected by its id. *)
Lemma load_data_record_from_sidecar_witness :
  let env := example_env two_datasets false in
  exists r f,
    fst (load_data_select env (Some "b2") DATA_DIR example_world) = Ok r
    /\ heap (snd (load_data_select env (Some "b2") DATA_DIR example_world)) !! r
       = Some f
    /\ frame_loc f 0 "path"
       = Ok (CPath ["/"; "fastgenomics"; "data"; "dataset_0002"])
    /\ frame_loc f 0 "title" = Ok (CStr "Second").
Proof.
  cbv zeta.
  destruct (load_data_select (example_env two_datasets false) (Some "b2") DATA_DIR
              example_world) as [[r | e] w1] eqn:E;
    [| vm_compute in E; discriminate].
  destruct (load_data_record_from_sidecar _ _ _ _ _ _ E)
    as (paths & w0 & dir & info & f & metadata
        & _ & _ & _ & Hf & _ & _ & _ & _ & _ & _).
  exists r, f. cbn [fst snd]. refine (conj eq_refl (conj Hf _)).
  vm_compute in E. injection E as <- <-.
  vm_compute in Hf. injection Hf as <-. split; reflexivity.
Defined.

(** X13, on the second of two datasets: the two records of a load. *)
Lemma load_data_log_witness :
  let env := example_env two_datasets false in
  w_log (snd (load_data env (Some "b2") DATA_DIR None example_world))
  = [ LogInfo (msg_loading env (CStr "Second") (CStr "Loom")
                 (CPath ["/"; "fastgenomics"; "data"; "dataset_0002"]));
      LogInfo (msg_loaded env (CStr "Second") 1 1) ].
Proof.
  cbv zeta.
  destruct (load_data_select (example_env two_datasets false) (Some "b2") DATA_DIR
              example_world) as [[r | e] w1] eqn:E;
    [| vm_compute in E; discriminate].
  destruct (load_data_select_ok _ _ _ _ _ _ E) as (f & _ & _ & Hf & _).
  pose proof E as E'. vm_compute in E'. injection E' as Hr Hw. subst r w1.
  pose proof Hf as Hf'. vm_compute in Hf'. injection Hf' as Hf'. subst f.
  rewrite (load_data_log (example_env two_datasets false) (Some "b2") DATA_DIR None
             example_world _ _ _ (CStr "Second") (CStr "b2") "Loom"
             ["/"; "fastgenomics"; "data"; "dataset_0002"]%string "data.csv"
             (read_loom_to_anndata example_readers) E Hf
             eq_refl eq_refl eq_refl eq_refl eq_refl eq_refl eq_refl).
  reflexivity.
Defined.

(** X14, on a file system without the data directory. *)
Lemma load_data_missing_root_witness :
  let env := example_env (Dir []) false in
  fst (load_data env None DATA_DIR None example_world)
  = Raise (Exn ValueError "list.remove(x): x not in list")
  /\ w_log (snd (load_data env None DATA_DIR None example_world))
     = [LogWarning "There are no datasets attached to this analysis."].
Proof.
  apply (load_data_missing_root (example_env (Dir []) false) None DATA_DIR None
           example_world).
  reflexivity.
Defined.

(** X15, on a dataset whose sidecar file names no format, beside one that
    names one. *)
Lemma load_data_format_not_a_string_witness :
  let env := example_env missing_format false in
  fst (load_data env (Some "b2") DATA_DIR None example_world)
  = Raise (Exn KeyError
             (msg_unknown env CNaN (dict_keys (default_readers example_readers)))).
Proof.
  cbv zeta.
  destruct (load_data_select (example_env missing_format false) (Some "b2")
              DATA_DIR example_world) as [[r | e] w1] eqn:E;
    [| vm_compute in E; discriminate].
  destruct (load_data_select_ok _ _ _ _ _ _ E) as (f & _ & _ & Hf & _).
  destruct (load_data_format_not_a_string (example_env missing_format false)
              (Some "b2") DATA_DIR None example_world r w1 f (CStr "Second") CNaN E Hf)
    as (_ & H & _).
  - vm_compute in E. injection E as <- <-.
    vm_compute in Hf. injection Hf as <-. reflexivity.
  - vm_compute in E. injection E as <- <-.
    vm_compute in Hf. injection Hf as <-. reflexivity.
  - discriminate.
  - now apply H.
Defined.

(** X16, on a handle of format [Loom]. *)
Lemma read_dataset_invokes_reader_witness :
  let env := example_env two_datasets false in
  exists adata,
    fst (read_dataset env (example_dataset "Loom") None example_world) = Ok adata
    /\ n_obs adata = 1 /\ n_vars adata = 2
    /\ dict_get "fg_id" (obs adata) = Some [CStr "0001"]
    /\ dict_get "fg_title" (obs adata) = Some [CStr "Demo"].
Proof.
  cbv zeta.
  destruct (read_dataset_invokes_reader (example_env two_datasets false)
              (example_dataset "Loom") None example_world "Loom"
              (read_loom_to_anndata example_readers_old) eq_refl eq_refl
              eq_refl eq_refl)
    as (_ & _ & H).
  destruct (H (example_body 1 2) eq_refl)
    as (adata & H1 & H2 & H3 & _ & H5 & H6 & _).
  exists adata. exact (conj H1 (conj H2 (conj H3 (conj H6 H5)))).
Defined.

(** X17, on a handle of a format that has no reader. *)
Lemma read_dataset_format_errors_witness :
  let env := example_env two_datasets false in
  fst (read_dataset env (example_dataset "Not set") None example_world)
  = Raise (Exn ValueError (msg_not_set env (CStr "Demo"))).
Proof.
  cbv zeta.
  destruct (read_dataset_format_errors (example_env two_datasets false)
              (example_dataset "Not set") None example_world "Not set"
              eq_refl eq_refl) as (_ & _ & H & _).
  now apply H.
Defined.

(** X18, with a caller's reader for [Loom]. *)
Lemma read_dataset_override_per_call_witness :
  let env := example_env two_datasets false in
  let first :=
    read_dataset env (example_dataset "Loom")
      (Some [("Loom"%string, custom_reader_old)]) example_world in
  (exists adata, fst first = Ok adata /\ n_obs adata = 9)
  /\ DEFAULT_READERS_OLD (snd first) = default_readers example_readers_old.
Proof.
  intros env first.
  destruct (read_dataset_override_per_call env (example_dataset "Loom")
              [("Loom"%string, custom_reader_old)] example_world "Loom"
              custom_reader_old) as (_ & Hrun & Hsame & _).
  - repeat constructor. simpl. tauto.
  - reflexivity.
  - reflexivity.
  - split.
    + destruct (Hrun (example_body 9 9) eq_refl) as (adata & H1 & H2 & _).
      exists adata. split; [exact H1 | exact H2].
    + destruct Hsame as (_ & H & _). exact H.
Defined.

(** X19, with a caller's reader for [Loom] and one for a new label. *)
Lemma effective_readers_registry_witness :
  dict_keys
    (effective_readers
       (Some [("Loom"%string, custom_reader); ("h5ad"%string, custom_reader)])
       example_world)
  = ["Loom"; "Seurat Object"; "AnnData"; "10x (hdf5)"; "10x (mtx)";
     "tab-separated text"; "comma-separated text"; "h5ad"]%string.
Proof.
  destruct (effective_readers_registry
              [("Loom"%string, custom_reader); ("h5ad"%string, custom_reader)]
              [] example_world) as (_ & H & _).
  - repeat constructor; simpl; intuition discriminate.
  - constructor.
  - etransitivity; [exact H | reflexivity].
Defined.

(** X20, on the listing of two datasets outside IPython. *)
Lemma ds_info_pretty_log_witness :
  let env := example_env two_datasets false in
  w_log (snd (ds_info env None true true DATA_DIR example_world))
  = [LogWarning
       "IPython not available. Pretty printing only works in Jupyter Notebooks."].
Proof.
  cbv zeta.
  destruct (ds_info (example_env two_datasets false) None true true DATA_DIR
              example_world) as [[o | e] w'] eqn:E;
    [| vm_compute in E; discriminate].
  destruct (ds_info_pretty_log _ _ _ _ _ _ _ E) as [g Hg].
  cbn [snd]. rewrite Hg. reflexivity.
Defined.

(** C5, the failing input: the specification's first scenario, a root with
    the one directory [dataset_0001] whose sidecar file has the four
    required fields. The root exists, the scan returns the directory, and
    its sidecar file is read; but no call of [ds_info] returns a table, with
    one row or any: whatever the identifier, [pretty] and [output] are, the
    call raises the [ValueError] of the column sort, and so does
    [load_data]. *)
Lemma ds_info_demo_scenario_example :
  let env := example_env demo_scenario false in
  let dataset_0001 := ["/"; "fastgenomics"; "data"; "dataset_0001"]%string in
  path_exists env DATA_DIR = true
  /\ path_iterdir env DATA_DIR = Ok ["dataset_0001"%string]
  /\ dataset_dirs env DATA_DIR ["dataset_0001"%string] = [dataset_0001]
  /\ get_ds_paths env DATA_DIR example_world = (Ok [dataset_0001], example_world)
  /\ read_info env dataset_0001
     = Ok [ ("id"%string, CStr "a1"); ("title"%string, CStr "Demo");
            ("format"%string, CStr "comma-separated text");
            ("file"%string, CStr "data.csv");
            ("path"%string, CPath dataset_0001) ]
  /\ (forall ds pretty output,
        fst (ds_info env ds pretty output DATA_DIR example_world)
        = Raise (Exn ValueError "list.remove(x): x not in list"))
  /\ (forall ds extra,
        fst (load_data env ds DATA_DIR extra example_world)
        = Raise (Exn ValueError "list.remove(x): x not in list")).
Proof.
  cbv zeta.
  assert (Hno : forall d,
            In d [[ ("id"%string, CStr "a1"); ("title"%string, CStr "Demo");
                    ("format"%string, CStr "comma-separated text");
                    ("file"%string, CStr "data.csv");
                    ("path"%string,
                     CPath ["/"; "fastgenomics"; "data"; "dataset_0001"]) ]] ->
            ~ In "organism"%string (dict_keys d)).
  { intros d [<- | []]. simpl. intuition discriminate. }
  splits; try reflexivity.
  - intros ds pretty output.
    apply (ds_info_without_priority_field (example_env demo_scenario false)
             ds pretty output DATA_DIR example_world _ _ "organism" eq_refl eq_refl);
      [simpl; tauto | exact Hno].
  - intros ds extra.
    apply (load_data_without_priority_field (example_env demo_scenario false)
             ds DATA_DIR extra example_world _ _ "organism" eq_refl eq_refl);
      [simpl; tauto | exact Hno].
Qed.
